(** * The HyperLogLog sketch of [be/src/olap/hll.h]

    A shallow embedding of the [HyperLogLog] class and the properties of
    its register engine, its explicit buffer and its life cycle
    (constructors, assignment operators, [clear], [memory_consumed]).

    Register arrays and the explicit buffer are lists of integers with the
    fixed-width arithmetic of the source written out.  Objects live in a
    store indexed by their address and point into a heap of arrays, so
    that [this != &other], [new], [delete[]] and [memcpy] mean what they
    mean in the source; a computation that the language leaves undefined
    has no result.  [is_valid] and [deserialize], whose bodies the header
    only declares, are modelled from the specification; [deserialize]
    is modelled on an EMPTY target only, the one target the header says
    the function supports. *)

From stdpp Require Import gmap list sorting.
From Stdlib Require Import ZArith Lia.

Local Open Scope Z_scope.

(** ** Constants of the header *)

Definition HLL_COLUMN_PRECISION : Z := 14.
Definition HLL_ZERO_COUNT_BITS : Z := 64 - HLL_COLUMN_PRECISION.
Definition HLL_EXPLICIT_INT64_NUM : Z := 160.
Definition HLL_EXPLICIT_INT64_NUM_DOUBLE : Z := HLL_EXPLICIT_INT64_NUM * 2.
Definition HLL_SPARSE_THRESHOLD : Z := 4096.
Definition HLL_REGISTERS_COUNT : Z := 16 * 1024.
Definition HLL_COLUMN_DEFAULT_LEN : Z := HLL_REGISTERS_COUNT + 1.
Definition HLL_SINGLE_VALUE_SIZE : Z := 10.
Definition HLL_EMPTY_SIZE : Z := 1.

(** The four enumerators; an object never holds another value, so the
    [default:] labels of the source are not reached. *)
Inductive HllDataType : Type :=
  | HLL_DATA_EMPTY
  | HLL_DATA_EXPLICIT
  | HLL_DATA_SPARSE
  | HLL_DATA_FULL.

#[global] Instance HllDataType_eq_dec : EqDecision HllDataType.
Proof. solve_decision. Defined.

(** Numeric value of the enumerators (persisted on storage). *)
Definition HllDataType_value (t : HllDataType) : Z :=
  match t with
  | HLL_DATA_EMPTY => 0
  | HLL_DATA_EXPLICIT => 1
  | HLL_DATA_SPARSE => 2
  | HLL_DATA_FULL => 3
  end.

(** ** Fixed-width integers

    Unsigned [w]-bit values are integers in [0, 2^w); a conversion to an
    unsigned type is reduction modulo [2^w]. *)

Definition wrap (w : Z) (x : Z) : Z := x mod 2 ^ w.
Definition uint8_t (x : Z) : Z := wrap 8 x.
Definition uint32_t (x : Z) : Z := wrap 32 x.
Definition uint64_t (x : Z) : Z := wrap 64 x.
Definition is_uint64 (x : Z) : Prop := 0 <= x < 2 ^ 64.

(** [__builtin_ctzl] on a 64-bit [unsigned long] (LP64): the number of
    zero bits below the lowest set bit.  The scan inspects at most [n]
    bits; the builtin is undefined at 0, where the scan gives [n]. *)
Fixpoint ctz_scan (n : nat) (x : Z) : Z :=
  match n with
  | O => 0
  | S n' => if Z.testbit x 0 then 0 else 1 + ctz_scan n' (Z.shiftr x 1)
  end.

Definition __builtin_ctzl (x : Z) : Z := ctz_scan 64 x.

(** ** Register engine *)

(** [_update_registers]: fold one hash value into the register array.
    The result is [None] when the indexed register lies outside the array
    (an out-of-bounds access in the source). *)
Definition _update_registers (registers : list Z) (hash_value : Z) : option (list Z) :=
  let idx := hash_value mod HLL_REGISTERS_COUNT in
  let hash_value := Z.shiftr hash_value HLL_COLUMN_PRECISION in
  let hash_value := uint64_t (Z.lor hash_value (Z.shiftl 1 HLL_ZERO_COUNT_BITS)) in
  let first_one_bit := uint8_t (__builtin_ctzl hash_value + 1) in
  match registers !! Z.to_nat idx with
  | Some r =>
      Some (<[Z.to_nat idx := if r >? first_one_bit then r else first_one_bit]> registers)
  | None => None
  end.

(** The value whose trailing zeros are counted: the hash shifted past the
    index bits, with bit [HLL_ZERO_COUNT_BITS] forced to one. *)
Definition guarded_suffix (h : Z) : Z :=
  Z.lor (Z.shiftr h HLL_COLUMN_PRECISION) (2 ^ HLL_ZERO_COUNT_BITS).

(** [_merge_registers]: absorb [other] into the register array.  The loop
    [for (i = 0; i < HLL_REGISTERS_COUNT; ++i)] runs [k] more iterations
    from index [i]; [None] is an access outside either array. *)
Fixpoint _merge_registers_from (k : nat) (i : nat) (registers other : list Z)
  : option (list Z) :=
  match k with
  | O => Some registers
  | S k' =>
      match registers !! i, other !! i with
      | Some r, Some o =>
          _merge_registers_from k' (S i)
            (<[i := if r <? o then o else r]> registers) other
      | _, _ => None
      end
  end.

Definition _merge_registers (registers other : list Z) : option (list Z) :=
  _merge_registers_from (Z.to_nat HLL_REGISTERS_COUNT) 0 registers other.

(** ** Explicit buffer *)

(** Conversion to [int32_t] (two's complement). *)
Definition int32_t (x : Z) : Z := (x + 2 ^ 31) mod 2 ^ 32 - 2 ^ 31.

(** Outcome of the search loop of [_explicit_data_insert]. *)
Inductive scan_result : Type :=
  | Found            (* an equal element was met: [return false] *)
  | InsertAfter (i : Z).  (* the loop was left with index [i] *)

(** The loop [while (i >= 0)] of [_explicit_data_insert], walking from
    the tail toward the head.  [None] is an out-of-bounds read or
    exhausted fuel. *)
Fixpoint _explicit_data_scan (fuel : nat) (buf : list Z) (data : Z) (i : Z)
  : option scan_result :=
  match fuel with
  | O => None
  | S fuel' =>
      if 0 <=? i then
        match buf !! Z.to_nat i with
        | Some x =>
            if x =? data then Some Found
            else if x <? data then Some (InsertAfter i)
            else _explicit_data_scan fuel' buf data (i - 1)
        | None => None
        end
      else Some (InsertAfter i)
  end.

(** [memmove(buf + dst, buf + src, n * sizeof(uint64_t))] inside one
    array, counted in elements; [None] when a range leaves the array. *)
Definition memmove (buf : list Z) (dst src n : Z) : option (list Z) :=
  if (0 <=? dst) && (0 <=? src) && (0 <=? n)
     && (src + n <=? Z.of_nat (length buf)) && (dst + n <=? Z.of_nat (length buf))
  then Some (take (Z.to_nat dst) buf
             ++ take (Z.to_nat n) (drop (Z.to_nat src) buf)
             ++ drop (Z.to_nat (dst + n)) buf)
  else None.

(** [_explicit_data_insert]: insert [data] into the ascending buffer.
    The state is the array [_explicit_data] with its count
    [_explicit_data_num]; the result carries the returned flag and the
    new array and count. *)
Definition _explicit_data_insert (explicit_data : list Z) (explicit_data_num : Z)
    (data : Z) : option (bool * list Z * Z) :=
  let i := int32_t explicit_data_num - 1 in
  match _explicit_data_scan (S (Z.to_nat explicit_data_num)) explicit_data data i with
  | None => None
  | Some Found => Some (false, explicit_data, explicit_data_num)
  | Some (InsertAfter i) =>
      let i := i + 1 in
      let n := uint64_t (uint32_t (explicit_data_num - i) * 8) in
      match (if n =? 0 then Some explicit_data
             else memmove explicit_data (i + 1) i (n / 8)) with
      | None => None
      | Some moved =>
          if (0 <=? i) && (i <? Z.of_nat (length moved))
          then Some (true, <[Z.to_nat i := data]> moved, uint32_t (explicit_data_num + 1))
          else None
      end
  end.

(** ** Objects and heap

    A [HyperLogLog] object is its four data members; the two payload
    pointers are heap addresses, [None] standing for [nullptr]. *)

Definition oid := nat.
Definition ptr := nat.

Record HyperLogLog : Type := mkHLL {
  _type : HllDataType;
  _explicit_data_num : Z;
  _explicit_data : option ptr;
  _registers : option ptr
}.

#[global] Instance HyperLogLog_eq_dec : EqDecision HyperLogLog.
Proof. solve_decision. Defined.

Definition with_type (v : HllDataType) (s : HyperLogLog) : HyperLogLog :=
  mkHLL v (_explicit_data_num s) (_explicit_data s) (_registers s).
Definition with_explicit_data_num (v : Z) (s : HyperLogLog) : HyperLogLog :=
  mkHLL (_type s) v (_explicit_data s) (_registers s).
Definition with_explicit_data (v : option ptr) (s : HyperLogLog) : HyperLogLog :=
  mkHLL (_type s) (_explicit_data_num s) v (_registers s).
Definition with_registers (v : option ptr) (s : HyperLogLog) : HyperLogLog :=
  mkHLL (_type s) (_explicit_data_num s) (_explicit_data s) v.

(** The memory: live objects by address, and live heap arrays by address
    (an array is the list of its elements). *)
Record Mem : Type := mkMem {
  objs : gmap oid HyperLogLog;
  heap : gmap ptr (list Z)
}.

Definition empty_mem : Mem := mkMem ∅ ∅.

(** Computations over the memory; [None] is undefined behaviour (a null
    or dangling access, a double free, an out-of-bounds copy). *)
Definition M (A : Type) : Type := Mem → option (A * Mem).

#[global] Instance M_ret : MRet M := λ A a m, Some (a, m).
#[global] Instance M_bind : MBind M := λ A B k c m,
  match c m with
  | Some (a, m') => k a m'
  | None => None
  end.

(** Read the member [f] of the object at [o]. *)
Definition rd {A : Type} (f : HyperLogLog → A) (o : oid) : M A := λ m,
  match objs m !! o with
  | Some s => Some (f s, m)
  | None => None
  end.

(** Assign a member of the object at [o]. *)
Definition wr (upd : HyperLogLog → HyperLogLog) (o : oid) : M unit := λ m,
  match objs m !! o with
  | Some s => Some (tt, mkMem (<[o := upd s]> (objs m)) (heap m))
  | None => None
  end.

(** Start of a constructor: the storage at [this] holds no object yet and
    receives the default member initializers
    ([_type = HLL_DATA_EMPTY], [_explicit_data_num = 0], null pointers). *)
Definition construct (this : oid) : M unit := λ m,
  match objs m !! this with
  | Some _ => None
  | None =>
      Some (tt, mkMem (<[this := mkHLL HLL_DATA_EMPTY 0 None None]> (objs m)) (heap m))
  end.

(** [new T[n]]: a fresh address; the elements are indeterminate, given
    here by [uninit] (cut or padded to [n] elements). *)
Definition new_array (n : Z) (uninit : list Z) : M ptr := λ m,
  let a := fresh (dom (heap m)) in
  Some (a, mkMem (objs m) (<[a := resize (Z.to_nat n) 0 uninit]> (heap m))).

(** [delete[] p]: nothing for a null pointer. *)
Definition delete_array (p : option ptr) : M unit := λ m,
  match p with
  | None => Some (tt, m)
  | Some a =>
      match heap m !! a with
      | Some _ => Some (tt, mkMem (objs m) (delete a (heap m)))
      | None => None
      end
  end.

(** [memcpy(dst, src, n * sizeof(T))], counted in elements. *)
Definition memcpy (dst src : option ptr) (n : Z) : M unit := λ m,
  match dst, src with
  | Some d, Some s =>
      match heap m !! d, heap m !! s with
      | Some bd, Some bs =>
          if decide (d ≠ s ∧ 0 <= n <= Z.of_nat (length bd) ∧ n <= Z.of_nat (length bs))
          then Some (tt, mkMem (objs m)
                           (<[d := take (Z.to_nat n) bs ++ drop (Z.to_nat n) bd]> (heap m)))
          else None
      | _, _ => None
      end
  | _, _ => None
  end.

(** [p[i] = v]. *)
Definition store (p : option ptr) (i : Z) (v : Z) : M unit := λ m,
  match p with
  | Some a =>
      match heap m !! a with
      | Some b =>
          if decide (0 <= i < Z.of_nat (length b))
          then Some (tt, mkMem (objs m) (<[a := <[Z.to_nat i := v]> b]> (heap m)))
          else None
      | None => None
      end
  | None => None
  end.

(** ** Life cycle of [HyperLogLog] *)

(** [HyperLogLog() = default]. *)
Definition HyperLogLog_default (this : oid) : M unit :=
  construct this.

(** [explicit HyperLogLog(uint64_t hash_value)]. *)
Definition HyperLogLog_hash (this : oid) (hash_value : Z) (uninit : list Z) : M unit :=
  construct this;;
  wr (with_type HLL_DATA_EXPLICIT) this;;
  p ← new_array HLL_EXPLICIT_INT64_NUM_DOUBLE uninit;
  wr (with_explicit_data (Some p)) this;;
  p ← rd _explicit_data this;
  store p 0 hash_value;;
  wr (with_explicit_data_num 1) this.

(** The [switch (other._type)] shared by the copy constructor and the
    copy assignment (the source writes it out in both). *)
Definition copy_payload (this other : oid) (uninit : list Z) : M unit :=
  t ← rd _type other;
  wr (with_type t) this;;
  match t with
  | HLL_DATA_EMPTY => mret tt
  | HLL_DATA_EXPLICIT =>
      n ← rd _explicit_data_num other;
      wr (with_explicit_data_num n) this;;
      p ← new_array HLL_EXPLICIT_INT64_NUM_DOUBLE uninit;
      wr (with_explicit_data (Some p)) this;;
      dst ← rd _explicit_data this;
      src ← rd _explicit_data other;
      n ← rd _explicit_data_num this;
      memcpy dst src n
  | HLL_DATA_SPARSE | HLL_DATA_FULL =>
      p ← new_array HLL_REGISTERS_COUNT uninit;
      wr (with_registers (Some p)) this;;
      dst ← rd _registers this;
      src ← rd _registers other;
      memcpy dst src HLL_REGISTERS_COUNT
  end.

(** [HyperLogLog(const HyperLogLog& other)]. *)
Definition HyperLogLog_copy (this other : oid) (uninit : list Z) : M unit :=
  construct this;;
  copy_payload this other uninit.

(** The [switch (other._type)] shared by the move constructor and the
    move assignment (the source writes it out in both). *)
Definition move_payload (this other : oid) : M unit :=
  t ← rd _type other;
  wr (with_type t) this;;
  match t with
  | HLL_DATA_EMPTY => mret tt
  | HLL_DATA_EXPLICIT =>
      n ← rd _explicit_data_num other;
      wr (with_explicit_data_num n) this;;
      p ← rd _explicit_data other;
      wr (with_explicit_data p) this;;
      wr (with_explicit_data_num 0) other;;
      wr (with_explicit_data None) other;;
      wr (with_type HLL_DATA_EMPTY) other
  | HLL_DATA_SPARSE | HLL_DATA_FULL =>
      p ← rd _registers other;
      wr (with_registers p) this;;
      wr (with_registers None) other;;
      wr (with_type HLL_DATA_EMPTY) other
  end.

(** [HyperLogLog(HyperLogLog&& other)]. *)
Definition HyperLogLog_move (this other : oid) : M unit :=
  construct this;;
  move_payload this other.

(** The release of the own payload at the head of both assignment
    operators. *)
Definition release_payload (this : oid) : M unit :=
  r ← rd _registers this;
  (if r is Some _ then delete_array r;; wr (with_registers None) this else mret tt);;
  e ← rd _explicit_data this;
  (if e is Some _ then delete_array e;; wr (with_explicit_data None) this else mret tt);;
  wr (with_explicit_data_num 0) this.

(** [HyperLogLog& operator=(HyperLogLog&& other)]. *)
Definition move_assign (this other : oid) : M unit :=
  if decide (this ≠ other) then
    release_payload this;;
    move_payload this other
  else mret tt.

(** [HyperLogLog& operator=(const HyperLogLog& other)]. *)
Definition copy_assign (this other : oid) (uninit : list Z) : M unit :=
  if decide (this ≠ other) then
    release_payload this;;
    copy_payload this other uninit
  else mret tt.

(** [void clear()]. *)
Definition clear (this : oid) : M unit :=
  wr (with_type HLL_DATA_EMPTY) this;;
  p ← rd _registers this;
  delete_array p;;
  wr (with_registers None) this;;
  p ← rd _explicit_data this;
  delete_array p;;
  wr (with_explicit_data None) this;;
  wr (with_explicit_data_num 0) this.

(** [size_t memory_consumed() const]; [sizeof_this] is the size of the
    object itself, fixed by the platform ABI. *)
Definition memory_consumed (sizeof_this : Z) (this : oid) : M Z :=
  let size := sizeof_this in
  e ← rd _explicit_data this;
  let size := if e is Some _ then uint64_t (size + HLL_EXPLICIT_INT64_NUM_DOUBLE) else size in
  r ← rd _registers this;
  let size := if r is Some _ then uint64_t (size + HLL_REGISTERS_COUNT) else size in
  mret size.

(** ** Representation invariant and abstract view *)

(** A default-constructed or cleared object: EMPTY, no payload. *)
Definition empty_hll : HyperLogLog := mkHLL HLL_DATA_EMPTY 0 None None.

(** [owns s a]: one of the payload pointers of [s] is the array [a]. *)
Definition owns (s : HyperLogLog) (a : ptr) : Prop :=
  _explicit_data s = Some a ∨ _registers s = Some a.

(** The payload selected by the tag is allocated with the capacity the
    constructors give it, and the other members are at their defaults. *)
Definition hll_wf (h : gmap ptr (list Z)) (s : HyperLogLog) : Prop :=
  match _type s with
  | HLL_DATA_EMPTY =>
      _explicit_data_num s = 0 ∧ _explicit_data s = None ∧ _registers s = None
  | HLL_DATA_EXPLICIT =>
      0 <= _explicit_data_num s <= HLL_EXPLICIT_INT64_NUM_DOUBLE ∧
      _registers s = None ∧
      ∃ a b, _explicit_data s = Some a ∧ h !! a = Some b ∧
             length b = Z.to_nat HLL_EXPLICIT_INT64_NUM_DOUBLE
  | HLL_DATA_SPARSE | HLL_DATA_FULL =>
      _explicit_data_num s = 0 ∧ _explicit_data s = None ∧
      ∃ a b, _registers s = Some a ∧ h !! a = Some b ∧
             length b = Z.to_nat HLL_REGISTERS_COUNT
  end.

(** Every live object is well formed, and a heap array has one owner. *)
Definition mem_wf (m : Mem) : Prop :=
  (∀ o s, objs m !! o = Some s → hll_wf (heap m) s) ∧
  (∀ o1 o2 s1 s2 a,
     objs m !! o1 = Some s1 → objs m !! o2 = Some s2 →
     owns s1 a → owns s2 a → o1 = o2).

(** Both [delete[]] of [clear] are defined on [s]: each non-null payload
    pointer is a live array, and the two are different arrays. *)
Definition releasable (h : gmap ptr (list Z)) (s : HyperLogLog) : Prop :=
  (∀ a, owns s a → is_Some (h !! a)) ∧
  (∀ a, _explicit_data s = Some a → _registers s ≠ Some a).

(** The contents a sketch stands for: nothing when EMPTY, the stored
    hashes when EXPLICIT, the register array when SPARSE or FULL. *)
Definition payload (h : gmap ptr (list Z)) (s : HyperLogLog) : option (list Z) :=
  match _type s with
  | HLL_DATA_EMPTY => Some []
  | HLL_DATA_EXPLICIT =>
      a ← _explicit_data s;
      b ← h !! a;
      Some (take (Z.to_nat (_explicit_data_num s)) b)
  | HLL_DATA_SPARSE | HLL_DATA_FULL =>
      a ← _registers s;
      h !! a
  end.

(** The heap once [delete[] p] has run. *)
Definition released (p : option ptr) (h : gmap ptr (list Z)) : gmap ptr (list Z) :=
  match p with
  | Some a => delete a h
  | None => h
  end.

#[global] Instance owns_dec (s : HyperLogLog) (a : ptr) : Decision (owns s a).
Proof. unfold owns. apply _. Defined.

(** A register array of zeros. *)
Definition zero_registers : list Z := replicate (Z.to_nat HLL_REGISTERS_COUNT) 0.

(** ** Codec

    [is_valid] and [deserialize] are declared in the header; their bodies
    are not part of the sources at hand.  They are modelled from the byte
    layout and the error contract of the specification. *)

Definition is_byte (b : Z) : Prop := 0 <= b < 256.

#[global] Instance is_byte_dec (b : Z) : Decision (is_byte b).
Proof. unfold is_byte. apply _. Defined.

(** Little-endian value of a byte sequence. *)
Fixpoint decode_le (bytes : list Z) : Z :=
  match bytes with
  | [] => 0
  | b :: bytes' => b + 2 ^ 8 * decode_le bytes'
  end.

(** The bytes [slice[i .. i+n)], when they all exist. *)
Definition bytes_at (slice : list Z) (i n : nat) : option (list Z) :=
  if decide (i + n ≤ length slice)%nat then Some (take n (drop i slice)) else None.

(** Modelled from the spec: the byte layout of the serialized form.  The
    total size the layout gives to a buffer, read off its tag and count
    field: 1 for EMPTY, [2 + 8 n] for EXPLICIT with the count byte
    [n], [5 + 3 k] for SPARSE with the signed 32-bit count [k],
    [1 + HLL_REGISTERS_COUNT] for FULL.  [None] when the tag is none of
    these or the count field is cut short. *)
Definition declared_size (slice : list Z) : option Z :=
  match slice !! 0%nat with
  | Some 0 => Some HLL_EMPTY_SIZE
  | Some 1 => n ← slice !! 1%nat; Some (2 + 8 * n)
  | Some 2 => k ← bytes_at slice 1 4; Some (5 + 3 * int32_t (decode_le k))
  | Some 3 => Some (1 + HLL_REGISTERS_COUNT)
  | _ => None
  end.

(** Modelled from the spec: the body of [HyperLogLog::is_valid]
    (hll.h:269 declares it) is missing.  The classifier reads the tag and
    compares the length with what the tag makes plausible: EMPTY at least
    1 byte, EXPLICIT at least 2 and equal to [2 + 8 * bytes[1]], SPARSE at
    least 5 and equal to [5 + 3 * k], FULL at least
    [1 + HLL_REGISTERS_COUNT]. *)
Definition is_valid (slice : list Z) : bool :=
  let size := Z.of_nat (length slice) in
  match slice !! 0%nat with
  | None => false
  | Some tag =>
      if tag =? HllDataType_value HLL_DATA_EMPTY then
        1 <=? size
      else if tag =? HllDataType_value HLL_DATA_EXPLICIT then
        (2 <=? size) && (size =? 2 + 8 * default 0 (slice !! 1%nat))
      else if tag =? HllDataType_value HLL_DATA_SPARSE then
        (5 <=? size)
        && (size =? 5 + 3 * int32_t (decode_le (take 4 (drop 1 slice))))
      else if tag =? HllDataType_value HLL_DATA_FULL then
        1 + HLL_REGISTERS_COUNT <=? size
      else false
  end.

(** Modelled from the spec: the EXPLICIT payload, [n] hashes of 8 bytes
    each, little-endian. *)
Fixpoint decode_hashes (n : nat) (body : list Z) : list Z :=
  match n with
  | O => []
  | S n' => decode_le (take 8 body) :: decode_hashes n' (drop 8 body)
  end.

(** Modelled from the spec: the SPARSE payload, [k] records of a 16-bit
    little-endian index and a value byte, written into the dense array in
    order; [None] at an index outside the array. *)
Fixpoint decode_sparse (k : nat) (body : list Z) (regs : list Z) : option (list Z) :=
  match k with
  | O => Some regs
  | S k' =>
      let idx := decode_le (take 2 body) in
      if idx <? HLL_REGISTERS_COUNT then
        decode_sparse k' (drop 3 body) (<[Z.to_nat idx := default 0 (body !! 2%nat)]> regs)
      else None
  end.

(** Modelled from the spec: the reader of the byte layout.  Kind and
    payload contents a buffer stands for; [None] is the InvalidEncoding
    failure: unknown tag, length different from the
    declared size, or a SPARSE index outside the registers. *)
Definition decode (slice : list Z) : option (HllDataType * list Z) :=
  match slice !! 0%nat with
  | None => None
  | Some tag =>
      if decide (declared_size slice = Some (Z.of_nat (length slice))) then
        if tag =? 0 then Some (HLL_DATA_EMPTY, [])
        else if tag =? 1 then
          Some (HLL_DATA_EXPLICIT,
                decode_hashes (Z.to_nat (default 0 (slice !! 1%nat))) (drop 2 slice))
        else if tag =? 2 then
          regs ← decode_sparse
                   (Z.to_nat (int32_t (decode_le (take 4 (drop 1 slice)))))
                   (drop 5 slice) zero_registers;
          Some (HLL_DATA_SPARSE, regs)
        else Some (HLL_DATA_FULL, drop 1 slice)
      else None
  end.

(** [p[0 .. length content) = content]. *)
Definition write_array (p : option ptr) (content : list Z) : M unit := λ m,
  match p with
  | Some a =>
      match heap m !! a with
      | Some b =>
          if decide (length content ≤ length b)%nat
          then Some (tt, mkMem (objs m) (<[a := content ++ drop (length content) b]> (heap m)))
          else None
      | None => None
      end
  | None => None
  end.

(** Modelled from the spec: the load step of [deserialize].  The EMPTY
    object [this] gets the kind [t] and a new array holding [content];
    for EXPLICIT the count becomes the number of decoded hashes. *)
Definition load_payload (this : oid) (t : HllDataType) (content uninit : list Z)
  : M unit :=
  match t with
  | HLL_DATA_EMPTY => mret tt
  | HLL_DATA_EXPLICIT =>
      p ← new_array HLL_EXPLICIT_INT64_NUM_DOUBLE uninit;
      write_array (Some p) content;;
      wr (with_explicit_data (Some p)) this;;
      wr (with_explicit_data_num (Z.of_nat (length content))) this;;
      wr (with_type HLL_DATA_EXPLICIT) this
  | HLL_DATA_SPARSE | HLL_DATA_FULL =>
      p ← new_array HLL_REGISTERS_COUNT uninit;
      write_array (Some p) content;;
      wr (with_registers (Some p)) this;;
      wr (with_type t) this
  end.

(** A call outside what a function supports: no outcome is given. *)
Definition unsupported {A : Type} : M A := λ _, None.

(** Modelled from the spec: the body of [HyperLogLog::deserialize]
    (hll.h:254 declares it, returning [bool]) is missing.  The comment
    above the declaration (hll.h:253) restricts the function to an empty
    HLL, and the specification records the same limitation of the source:
    nothing clears or releases a former payload, and on a target of
    another kind the call is [unsupported].  On an EMPTY target the
    buffer is decoded; on InvalidEncoding the result is [false] and the
    target is not touched; otherwise the decoded kind and contents are
    loaded and the result is [true]. *)
Definition deserialize (this : oid) (slice uninit : list Z) : M bool :=
  t0 ← rd _type this;
  match t0 with
  | HLL_DATA_EMPTY =>
      match decode slice with
      | None => mret false
      | Some (t, content) =>
          load_payload this t content uninit;;
          mret true
      end
  | HLL_DATA_EXPLICIT | HLL_DATA_SPARSE | HLL_DATA_FULL => unsupported
  end.

(** The count member that goes with decoded contents: their number for
    EXPLICIT, 0 for the other kinds. *)
Definition loaded_num (t : HllDataType) (content : list Z) : Z :=
  match t with
  | HLL_DATA_EXPLICIT => Z.of_nat (length content)
  | HLL_DATA_EMPTY | HLL_DATA_SPARSE | HLL_DATA_FULL => 0
  end.

(** The decoded contents fit the array [load_payload] allocates. *)
Definition fits (t : HllDataType) (content : list Z) : Prop :=
  match t with
  | HLL_DATA_EMPTY => content = []
  | HLL_DATA_EXPLICIT => (length content ≤ Z.to_nat HLL_EXPLICIT_INT64_NUM_DOUBLE)%nat
  | HLL_DATA_SPARSE | HLL_DATA_FULL => length content = Z.to_nat HLL_REGISTERS_COUNT
  end.

(** The three causes of InvalidEncoding. *)
Definition tag_unknown (slice : list Z) : Prop :=
  ∀ tag, slice !! 0%nat = Some tag → ¬ (0 <= tag <= 3).

Definition length_mismatch (slice : list Z) : Prop :=
  ∃ tag, slice !! 0%nat = Some tag ∧ 0 <= tag <= 3 ∧
         declared_size slice ≠ Some (Z.of_nat (length slice)).

Definition sparse_index_out_of_range (slice : list Z) : Prop :=
  slice !! 0%nat = Some 2 ∧
  declared_size slice = Some (Z.of_nat (length slice)) ∧
  ∃ (i : nat) b0 b1,
    slice !! (5 + 3 * i)%nat = Some b0 ∧ slice !! (5 + 3 * i + 1)%nat = Some b1 ∧
    HLL_REGISTERS_COUNT <= b0 + 256 * b1.

Definition invalid_encoding (slice : list Z) : Prop :=
  tag_unknown slice ∨ length_mismatch slice ∨ sparse_index_out_of_range slice.

(** ** Sample memories *)

Definition sample_hash : Z := 0x0123456789ABCDEF.

(** The array of [HyperLogLog(sample_hash)]: the hash in slot 0, the
    other 319 slots as [new] left them (here zeros). *)
Definition sample_explicit_data : list Z :=
  sample_hash :: replicate (Z.to_nat (HLL_EXPLICIT_INT64_NUM_DOUBLE - 1)) 0.

(** One object, at address 0, built by [HyperLogLog(sample_hash)]. *)
Definition one_explicit : Mem :=
  mkMem {[ 0%nat := mkHLL HLL_DATA_EXPLICIT 1 (Some 0%nat) None ]}
        {[ 0%nat := sample_explicit_data ]}.

(** The same with a default-constructed object at address 1. *)
Definition two_sketches : Mem :=
  mkMem (<[ 1%nat := empty_hll ]> (objs one_explicit)) (heap one_explicit).

(** Two more register arrays: one register at 9, and all registers at 2. *)
Definition one_register_set : list Z := <[3%nat := 9]> zero_registers.
Definition all_registers_two : list Z := replicate (Z.to_nat HLL_REGISTERS_COUNT) 2.

(** The members of the object of [one_explicit]. *)
Definition sample_explicit : HyperLogLog :=
  mkHLL HLL_DATA_EXPLICIT 1 (Some 0%nat) None.

(** Bytes of heap storage behind the payload pointers of [s]: 8 per slot
    of the [uint64_t] array, 1 per register of the [uint8_t] array. *)
Definition heap_bytes (h : gmap ptr (list Z)) (s : HyperLogLog) : Z :=
  (match _explicit_data s ≫= (h !!.) with
   | Some b => 8 * Z.of_nat (length b)
   | None => 0
   end)
  + (match _registers s ≫= (h !!.) with
     | Some b => Z.of_nat (length b)
     | None => 0
     end).

(** The serialized form of [HyperLogLog(sample_hash)]: tag 1, count 1,
    the hash in little-endian order. *)
Definition sample_slice : list Z :=
  [1; 1; 0xEF; 0xCD; 0xAB; 0x89; 0x67; 0x45; 0x23; 0x01].

(** ** Successive calls *)

(** [_explicit_data_insert] called with each value of [vs] in turn, the
    returned flags dropped. *)
Fixpoint explicit_data_insert_all (explicit_data : list Z) (explicit_data_num : Z)
    (vs : list Z) : option (list Z * Z) :=
  match vs with
  | [] => Some (explicit_data, explicit_data_num)
  | v :: vs' =>
      match _explicit_data_insert explicit_data explicit_data_num v with
      | Some (_, explicit_data', explicit_data_num') =>
          explicit_data_insert_all explicit_data' explicit_data_num' vs'
      | None => None
      end
  end.

(** [_update_registers] called with each hash of [hashes] in turn. *)
Fixpoint update_registers_all (registers : list Z) (hashes : list Z)
  : option (list Z) :=
  match hashes with
  | [] => Some registers
  | h :: hashes' =>
      match _update_registers registers h with
      | Some registers' => update_registers_all registers' hashes'
      | None => None
      end
  end.

(** ** Register contents as a function of the hashes *)

(** The register a hash selects and the value it offers to it. *)
Definition register_index (h : Z) : nat := Z.to_nat (h mod HLL_REGISTERS_COUNT).
Definition register_rank (h : Z) : Z := __builtin_ctzl (guarded_suffix h) + 1.

(** The value register [j] reaches from [r] once the hashes [hs] that
    select it have offered theirs. *)
Definition register_after (j : nat) (r : Z) (hs : list Z) : Z :=
  foldl (λ acc h, if decide (register_index h = j)
                  then Z.max acc (register_rank h) else acc) r hs.

(** ** End of life and ownership of the heap *)

(** The storage of the object at [this] ends: the object leaves the
    store. *)
Definition end_of_storage (this : oid) : M unit := λ m,
  match objs m !! this with
  | Some _ => Some (tt, mkMem (delete this (objs m)) (heap m))
  | None => None
  end.

(** [~HyperLogLog() { clear(); }]. *)
Definition HyperLogLog_dtor (this : oid) : M unit :=
  clear this;;
  end_of_storage this.

(** Every live array is the payload of a live object: nothing is leaked. *)
Definition no_garbage (m : Mem) : Prop :=
  ∀ a, is_Some (heap m !! a) → ∃ o s, objs m !! o = Some s ∧ owns s a.

(** The representation invariant together with the absence of leaks. *)
Definition tidy (m : Mem) : Prop := mem_wf m ∧ no_garbage m.

(** ** More sample data *)

(** A full explicit array: the 320 hashes 0, 1, ..., 319. *)
Definition full_explicit_data : list Z :=
  Z.of_nat <$> seq 0 (Z.to_nat HLL_EXPLICIT_INT64_NUM_DOUBLE).

(** One FULL object, at address 0, over a register array of zeros. *)
Definition sample_full : HyperLogLog := mkHLL HLL_DATA_FULL 0 None (Some 0%nat).
Definition one_full : Mem :=
  mkMem {[ 0%nat := sample_full ]} {[ 0%nat := zero_registers ]}.

(** * Properties *)

(** ** Facts about the trailing-zero count *)

Lemma ctz_scan_nonneg n x : 0 <= ctz_scan n x.
Proof.
  revert x; induction n as [|n IH]; intros x; cbn [ctz_scan]; [lia|].
  destruct (Z.testbit x 0); [lia|]. specialize (IH (Z.shiftr x 1)). lia.
Qed.

Lemma ctz_scan_le n x k :
  (k < n)%nat → Z.testbit x (Z.of_nat k) = true → ctz_scan n x <= Z.of_nat k.
Proof.
  revert x k; induction n as [|n IH]; intros x k Hk Hb; [lia|].
  cbn [ctz_scan]. destruct (Z.testbit x 0) eqn:H0; [lia|].
  destruct k as [|k]; [change (Z.of_nat 0) with 0 in Hb; congruence|].
  assert (ctz_scan n (Z.shiftr x 1) <= Z.of_nat k); [|lia].
  apply IH; [lia|]. rewrite Z.shiftr_spec by lia.
  rewrite <- Hb. f_equal. lia.
Qed.

Lemma ctz_scan_low n x j :
  0 <= j < ctz_scan n x → Z.testbit x j = false.
Proof.
  revert x j; induction n as [|n IH]; intros x j Hj; cbn [ctz_scan] in Hj; [lia|].
  destruct (Z.testbit x 0) eqn:H0; [lia|].
  destruct (decide (j = 0)) as [->|Hne]; [done|].
  replace j with ((j - 1) + 1) by lia.
  rewrite <- Z.shiftr_spec by lia. apply IH. lia.
Qed.

Lemma ctz_scan_set n x k :
  (k < n)%nat → Z.testbit x (Z.of_nat k) = true →
  Z.testbit x (ctz_scan n x) = true.
Proof.
  revert x k; induction n as [|n IH]; intros x k Hk Hb; [lia|].
  cbn [ctz_scan]. destruct (Z.testbit x 0) eqn:H0; [done|].
  destruct k as [|k]; [change (Z.of_nat 0) with 0 in Hb; congruence|].
  pose proof (ctz_scan_nonneg n (Z.shiftr x 1)).
  replace (1 + ctz_scan n (Z.shiftr x 1)) with (ctz_scan n (Z.shiftr x 1) + 1) by lia.
  rewrite <- Z.shiftr_spec by lia. apply (IH _ k); [lia|].
  rewrite Z.shiftr_spec by lia. rewrite <- Hb. f_equal. lia.
Qed.

Lemma guarded_suffix_range h : is_uint64 h → is_uint64 (guarded_suffix h).
Proof.
  intros [Hlo Hhi]. unfold guarded_suffix, is_uint64.
  assert (H1 : 0 <= Z.shiftr h HLL_COLUMN_PRECISION < 2 ^ 50).
  { rewrite Z.shiftr_div_pow2 by (unfold HLL_COLUMN_PRECISION; lia).
    unfold HLL_COLUMN_PRECISION. split.
    - apply Z.div_pos; lia.
    - apply Z.div_lt_upper_bound; [lia|]. change (2 ^ 14 * 2 ^ 50) with (2 ^ 64). lia. }
  split.
  - apply Z.lor_nonneg. split; [lia|]. unfold HLL_ZERO_COUNT_BITS, HLL_COLUMN_PRECISION. lia.
  - destruct (decide (Z.lor (Z.shiftr h HLL_COLUMN_PRECISION) (2 ^ HLL_ZERO_COUNT_BITS) = 0)) as [->|Hne]; [lia|].
    apply Z.log2_lt_cancel. rewrite Z.log2_lor.
    + rewrite (Z.log2_pow2 64) by lia.
      assert (Z.log2 (Z.shiftr h HLL_COLUMN_PRECISION) < 50).
      { destruct (decide (Z.shiftr h HLL_COLUMN_PRECISION = 0)) as [->|Hz]; [simpl; lia|].
        apply Z.log2_lt_pow2; lia. }
      assert (Z.log2 (2 ^ HLL_ZERO_COUNT_BITS) = 50) by (apply Z.log2_pow2; unfold HLL_ZERO_COUNT_BITS, HLL_COLUMN_PRECISION; lia).
      lia.
    + lia.
    + unfold HLL_ZERO_COUNT_BITS, HLL_COLUMN_PRECISION. lia.
Qed.

Lemma guarded_suffix_bit h : Z.testbit (guarded_suffix h) 50 = true.
Proof.
  unfold guarded_suffix. rewrite Z.lor_spec.
  change HLL_ZERO_COUNT_BITS with 50.
  rewrite Z.pow2_bits_true by lia. apply orb_true_r.
Qed.

Lemma ctzl_guarded_suffix h :
  0 <= __builtin_ctzl (guarded_suffix h) <= HLL_ZERO_COUNT_BITS.
Proof.
  split; [apply ctz_scan_nonneg|].
  change HLL_ZERO_COUNT_BITS with (Z.of_nat 50).
  apply ctz_scan_le; [lia|]. apply guarded_suffix_bit.
Qed.

Lemma update_registers_unfold (regs : list Z) (h : Z) :
  is_uint64 h →
  _update_registers regs h =
    match regs !! Z.to_nat (h mod HLL_REGISTERS_COUNT) with
    | Some r =>
        Some (<[Z.to_nat (h mod HLL_REGISTERS_COUNT) :=
                 Z.max r (__builtin_ctzl (guarded_suffix h) + 1)]> regs)
    | None => None
    end.
Proof.
  intros Hh. unfold _update_registers.
  change (Z.shiftl 1 HLL_ZERO_COUNT_BITS) with (2 ^ HLL_ZERO_COUNT_BITS).
  fold (guarded_suffix h).
  pose proof (guarded_suffix_range h Hh) as Hr.
  pose proof (ctzl_guarded_suffix h) as Hc. change HLL_ZERO_COUNT_BITS with 50 in Hc.
  unfold uint64_t, uint8_t, wrap.
  rewrite (Z.mod_small (guarded_suffix h)) by exact Hr.
  rewrite (Z.mod_small (_ + 1)) by lia.
  destruct (regs !! Z.to_nat (h mod HLL_REGISTERS_COUNT)) as [r|]; [|done].
  do 2 f_equal. destruct (Z.gtb_spec r (__builtin_ctzl (guarded_suffix h) + 1)); lia.
Qed.

(** C1. For a 64-bit hash [h] and a register array of 16384 bytes,
    [_update_registers] sets register [h mod 16384] to the maximum of its
    old value and [ctz((h >> 14) | 2^50) + 1]; that value lies in [1, 51]
    (the counted position is the lowest set bit of the guarded suffix);
    every other register is unchanged. *)
Theorem update_registers_max (regs : list Z) (h : Z) :
  is_uint64 h →
  length regs = Z.to_nat HLL_REGISTERS_COUNT →
  let idx := Z.to_nat (h mod 16384) in
  let x := Z.lor (Z.shiftr h 14) (2 ^ 50) in
  let v := __builtin_ctzl x + 1 in
  1 <= v <= 51 ∧
  Z.testbit x (v - 1) = true ∧
  (∀ j, 0 <= j < v - 1 → Z.testbit x j = false) ∧
  ∃ r regs',
    regs !! idx = Some r ∧
    _update_registers regs h = Some regs' ∧
    length regs' = length regs ∧
    regs' !! idx = Some (Z.max r v) ∧
    ∀ j, j ≠ idx → regs' !! j = regs !! j.
Proof.
  intros Hh Hlen idx x v.
  assert (Hx : x = guarded_suffix h) by reflexivity.
  pose proof (ctzl_guarded_suffix h) as Hc. change HLL_ZERO_COUNT_BITS with 50 in Hc.
  assert (Hidx : (idx < length regs)%nat).
  { subst idx. rewrite Hlen. apply Z2Nat.inj_lt; [| done |].
    - apply Z.mod_pos_bound; lia.
    - change HLL_REGISTERS_COUNT with 16384. apply Z.mod_pos_bound; lia. }
  split; [subst v; rewrite Hx; lia|].
  split.
  { subst v. replace (__builtin_ctzl x + 1 - 1) with (__builtin_ctzl x) by lia.
    rewrite Hx. apply (ctz_scan_set 64 _ 50); [lia|]. apply guarded_suffix_bit. }
  split.
  { intros j Hj. apply (ctz_scan_low 64). unfold __builtin_ctzl in v. lia. }
  destruct (lookup_lt_is_Some_2 regs idx Hidx) as [r Hr].
  exists r, (<[idx := Z.max r v]> regs).
  split; [exact Hr|].
  split.
  { rewrite update_registers_unfold by exact Hh.
    change (Z.to_nat (h mod HLL_REGISTERS_COUNT)) with idx. rewrite Hr.
    subst v. by rewrite Hx. }
  split; [apply length_insert|].
  split; [by apply list_lookup_insert_eq|].
  intros j Hj. by apply list_lookup_insert_ne.
Qed.

(** C1 at [sample_hash] on an array of zeros. *)
Lemma update_registers_max_witness :
  is_uint64 sample_hash ∧
  length zero_registers = Z.to_nat HLL_REGISTERS_COUNT ∧
  let idx := Z.to_nat (sample_hash mod 16384) in
  let x := Z.lor (Z.shiftr sample_hash 14) (2 ^ 50) in
  let v := __builtin_ctzl x + 1 in
  1 <= v <= 51 ∧
  Z.testbit x (v - 1) = true ∧
  (∀ j, 0 <= j < v - 1 → Z.testbit x j = false) ∧
  ∃ r regs',
    zero_registers !! idx = Some r ∧
    _update_registers zero_registers sample_hash = Some regs' ∧
    length regs' = length zero_registers ∧
    regs' !! idx = Some (Z.max r v) ∧
    ∀ j, j ≠ idx → regs' !! j = zero_registers !! j.
Proof.
  assert (H1 : is_uint64 sample_hash) by (unfold is_uint64, sample_hash; lia).
  assert (H2 : length zero_registers = Z.to_nat HLL_REGISTERS_COUNT)
    by apply length_replicate.
  split; [exact H1|]. split; [exact H2|].
  exact (update_registers_max zero_registers sample_hash H1 H2).
Defined.

(** ** Merge of register arrays *)

Lemma merge_registers_from_spec (k i : nat) (a b : list Z) :
  (i + k ≤ length a)%nat → (i + k ≤ length b)%nat →
  ∃ c, _merge_registers_from k i a b = Some c ∧
       length c = length a ∧
       ∀ j x y, a !! j = Some x → b !! j = Some y →
         c !! j = Some (if decide (i ≤ j < i + k)%nat then Z.max x y else x).
Proof.
  revert i a; induction k as [|k IH]; intros i a Ha Hb.
  - exists a. split; [done|]. split; [done|].
    intros j x y Hx _. rewrite decide_False by lia. exact Hx.
  - cbn [_merge_registers_from].
    destruct (lookup_lt_is_Some_2 a i ltac:(lia)) as [r Hr].
    destruct (lookup_lt_is_Some_2 b i ltac:(lia)) as [o Ho].
    rewrite Hr, Ho.
    destruct (IH (S i) (<[i := if r <? o then o else r]> a)) as (c & Hc & Hlen & Hlk).
    { rewrite length_insert. lia. }
    { lia. }
    exists c. split; [exact Hc|]. rewrite length_insert in Hlen. split; [exact Hlen|].
    intros j x y Hx Hy. destruct (decide (j = i)) as [->|Hne].
    + assert (x = r) by congruence. assert (y = o) by congruence. subst x y.
      rewrite (Hlk i (if r <? o then o else r) o).
      * rewrite decide_False by lia. rewrite decide_True by lia.
        f_equal. destruct (Z.ltb_spec r o); lia.
      * apply list_lookup_insert_eq. lia.
      * exact Ho.
    + rewrite (Hlk j x y).
      * destruct (decide (S i ≤ j < S i + k)%nat), (decide (i ≤ j < i + S k)%nat);
          (done || lia).
      * rewrite list_lookup_insert_ne by done. exact Hx.
      * exact Hy.
Qed.

Lemma merge_registers_zip (a b : list Z) :
  length a = Z.to_nat HLL_REGISTERS_COUNT →
  length b = Z.to_nat HLL_REGISTERS_COUNT →
  _merge_registers a b = Some (zip_with Z.max a b).
Proof.
  intros Ha Hb. unfold _merge_registers.
  destruct (merge_registers_from_spec (Z.to_nat HLL_REGISTERS_COUNT) 0 a b)
    as (c & Hc & Hlen & Hlk); [lia | lia |].
  rewrite Hc. f_equal. apply list_eq. intros j.
  rewrite lookup_zip_with.
  destruct (a !! j) as [x|] eqn:Hx.
  - destruct (lookup_lt_is_Some_2 b j) as [y Hy].
    { apply lookup_lt_Some in Hx. lia. }
    rewrite Hy. cbn. rewrite (Hlk j x y Hx Hy).
    apply lookup_lt_Some in Hx. rewrite decide_True by lia. done.
  - cbn. apply lookup_ge_None. apply lookup_ge_None in Hx. lia.
Qed.

Lemma zip_max_comm (a b : list Z) : zip_with Z.max a b = zip_with Z.max b a.
Proof.
  revert b; induction a as [|x a IH]; intros [|y b]; cbn; try done.
  by rewrite IH, Z.max_comm.
Qed.

Lemma zip_max_assoc (a b c : list Z) :
  zip_with Z.max (zip_with Z.max a b) c = zip_with Z.max a (zip_with Z.max b c).
Proof.
  revert b c; induction a as [|x a IH]; intros [|y b] [|z c]; cbn; try done.
  by rewrite IH, Z.max_assoc.
Qed.

Lemma zip_max_idemp (a : list Z) : zip_with Z.max a a = a.
Proof. induction a as [|x a IH]; cbn; [done|]. by rewrite IH, Z.max_id. Qed.

Lemma zip_max_length (a b : list Z) :
  length a = length b → length (zip_with Z.max a b) = length a.
Proof. intros H. rewrite length_zip_with. lia. Qed.

(** C2. On register arrays of 16384 bytes [_merge_registers] computes the
    element-wise maximum, and as a binary operation it is commutative,
    associative and idempotent. *)
Theorem merge_registers_semilattice (a b c : list Z) :
  length a = Z.to_nat HLL_REGISTERS_COUNT →
  length b = Z.to_nat HLL_REGISTERS_COUNT →
  length c = Z.to_nat HLL_REGISTERS_COUNT →
  (∃ ab, _merge_registers a b = Some ab ∧
         length ab = Z.to_nat HLL_REGISTERS_COUNT ∧
         ∀ i x y, a !! i = Some x → b !! i = Some y → ab !! i = Some (Z.max x y)) ∧
  _merge_registers a b = _merge_registers b a ∧
  (_merge_registers a b ≫= λ ab, _merge_registers ab c)
    = (_merge_registers b c ≫= λ bc, _merge_registers a bc) ∧
  _merge_registers a a = Some a.
Proof.
  intros Ha Hb Hc.
  assert (Hab : length (zip_with Z.max a b) = Z.to_nat HLL_REGISTERS_COUNT).
  { rewrite zip_max_length; congruence. }
  assert (Hbc : length (zip_with Z.max b c) = Z.to_nat HLL_REGISTERS_COUNT).
  { rewrite zip_max_length; congruence. }
  repeat split.
  - exists (zip_with Z.max a b). split; [by apply merge_registers_zip|].
    split; [exact Hab|]. intros i x y Hx Hy.
    rewrite lookup_zip_with, Hx, Hy. done.
  - rewrite !merge_registers_zip by done. by rewrite zip_max_comm.
  - rewrite (merge_registers_zip a b), (merge_registers_zip b c) by done. cbn.
    rewrite !merge_registers_zip by done. by rewrite zip_max_assoc.
  - rewrite merge_registers_zip by done. by rewrite zip_max_idemp.
Qed.

(** ** Insertion into the explicit buffer *)

Lemma StronglySorted_lt_lookup (l : list Z) (i j : nat) (x y : Z) :
  StronglySorted Z.lt l → (i < j)%nat →
  l !! i = Some x → l !! j = Some y → x < y.
Proof.
  intros Hs. revert i j. induction Hs as [|a l Hs IH Hall]; intros i j Hij Hi Hj.
  - by rewrite lookup_nil in Hi.
  - destruct j as [|j]; [lia|]. cbn in Hj. destruct i as [|i].
    + cbn in Hi. injection Hi as ->. rewrite Forall_forall in Hall.
      apply Hall. apply list_elem_of_lookup. eauto.
    + cbn in Hi. apply (IH i j); (done || lia).
Qed.

Lemma StronglySorted_lt_NoDup (l : list Z) : StronglySorted Z.lt l → NoDup l.
Proof.
  induction 1 as [|a l Hs IH Hall]; constructor; [|done].
  intros Hin. rewrite Forall_forall in Hall. specialize (Hall a Hin). lia.
Qed.

Section explicit_scan.
Variables (buf : list Z) (v : Z) (n : nat).
Hypothesis Hsorted : StronglySorted Z.lt (take n buf).
Hypothesis Hcap : (n ≤ length buf)%nat.

Lemma prefix_lt (i j : nat) (x y : Z) :
  (i < j < n)%nat → buf !! i = Some x → buf !! j = Some y → x < y.
Proof.
  intros Hij Hi Hj. apply (StronglySorted_lt_lookup (take n buf) i j); [done|lia| |].
  - rewrite lookup_take_lt by lia. done.
  - rewrite lookup_take_lt by lia. done.
Qed.

(** The search loop ends: it meets [v] when [v] is stored, and
    otherwise leaves the index of the last element below [v]. *)
Lemma explicit_data_scan_spec (fuel : nat) (i : Z) :
  (-1) <= i < Z.of_nat n → (Z.to_nat (i + 1) < fuel)%nat →
  (∀ (j : nat) x, i < Z.of_nat j → (j < n)%nat → buf !! j = Some x → v < x) →
  (v ∈ take n buf ∧ _explicit_data_scan fuel buf v i = Some Found) ∨
  ((v ∉ take n buf) ∧ ∃ p, _explicit_data_scan fuel buf v i = Some (InsertAfter p) ∧
     (-1) <= p <= i ∧
     ∀ (j : nat) x, (j < n)%nat → buf !! j = Some x →
       if decide (Z.of_nat j <= p) then x < v else v < x).
Proof.
  revert i; induction fuel as [|fuel IH]; intros i Hi Hfuel Hinv; [lia|].
  cbn [_explicit_data_scan]. destruct (Z.leb_spec 0 i) as [Hge|Hlt].
  - destruct (lookup_lt_is_Some_2 buf (Z.to_nat i) ltac:(lia)) as [x Hx].
    rewrite Hx. destruct (Z.eqb_spec x v) as [->|Hne].
    { left. split; [|done]. apply elem_of_take. exists (Z.to_nat i). split; [done|lia]. }
    destruct (Z.ltb_spec x v) as [Hxv|Hxv].
    + right. split.
      * intros Hin. apply elem_of_take in Hin as (j & Hj & Hjn).
        destruct (decide (Z.of_nat j <= i)) as [Hle|Hgt].
        -- destruct (decide (j = Z.to_nat i)) as [->|Hji]; [congruence|].
           pose proof (prefix_lt j (Z.to_nat i) v x ltac:(lia) Hj Hx). lia.
        -- pose proof (Hinv j v ltac:(lia) Hjn Hj). lia.
      * exists i. split; [done|]. split; [lia|]. intros j y Hjn Hy.
        destruct (decide (Z.of_nat j <= i)) as [Hle|Hgt].
        -- destruct (decide (j = Z.to_nat i)) as [->|Hji]; [congruence|].
           pose proof (prefix_lt j (Z.to_nat i) y x ltac:(lia) Hy Hx). lia.
        -- apply (Hinv j y); (done || lia).
    + destruct (IH (i - 1)) as [Hfound|(Hnot & p & Hp & Hrange & Hsplit)].
      * lia.
      * lia.
      * intros j y Hj Hjn Hy. destruct (decide (j = Z.to_nat i)) as [->|Hji].
        -- assert (y = x) by congruence. lia.
        -- apply (Hinv j y); (done || lia).
      * by left.
      * right. split; [done|]. exists p. split; [done|]. split; [lia|done].
  - right. split.
    + intros Hin. apply elem_of_take in Hin as (j & Hj & Hjn).
      pose proof (Hinv j v ltac:(lia) Hjn Hj). lia.
    + exists i. split; [done|]. split; [lia|]. intros j y Hjn Hy.
      rewrite decide_False by lia. apply (Hinv j y); (done || lia).
Qed.
End explicit_scan.

(** Shape of the array once the gap is opened at [p] and filled. *)
Lemma insert_after_shift (buf : list Z) (p n : nat) (v : Z) :
  (p ≤ n < length buf)%nat →
  <[p := v]> (take (S p) buf ++ take (n - p) (drop p buf) ++ drop (S n) buf)
  = take p buf ++ v :: take (n - p) (drop p buf) ++ drop (S n) buf.
Proof.
  intros Hp. destruct (lookup_lt_is_Some_2 buf p ltac:(lia)) as [x Hx].
  rewrite (take_S_r buf p x Hx), <- app_assoc.
  rewrite insert_app_r_alt by (rewrite length_take; lia).
  rewrite length_take. replace (p - p `min` length buf)%nat with 0%nat by lia. done.
Qed.

Lemma take_insert_gap (buf : list Z) (p n : nat) (v : Z) :
  (p ≤ n < length buf)%nat →
  take (S n) (take p buf ++ v :: take (n - p) (drop p buf) ++ drop (S n) buf)
  = take p (take n buf) ++ v :: drop p (take n buf).
Proof.
  intros Hp.
  rewrite take_take. replace (p `min` n)%nat with p by lia.
  rewrite (take_drop_commute buf (n - p) p).
  replace (p + (n - p))%nat with n by lia.
  change (take p buf ++ v :: drop p (take n buf) ++ drop (S n) buf)
    with (take p buf ++ (v :: drop p (take n buf)) ++ drop (S n) buf).
  rewrite app_assoc. apply take_app_length'.
  rewrite length_app, length_take. cbn. rewrite length_drop, length_take. lia.
Qed.

Lemma explicit_data_insert_run (buf : list Z) (n : nat) (v p : Z) :
  (n < length buf)%nat → Z.of_nat n < 2 ^ 31 → (-1) <= p < Z.of_nat n →
  _explicit_data_scan (S n) buf v (Z.of_nat n - 1) = Some (InsertAfter p) →
  _explicit_data_insert buf (Z.of_nat n) v =
    Some (true,
          take (Z.to_nat (p + 1)) buf
            ++ v :: take (n - Z.to_nat (p + 1)) (drop (Z.to_nat (p + 1)) buf)
            ++ drop (S n) buf,
          Z.of_nat n + 1).
Proof.
  intros Hn Hsmall Hp Hscan. unfold _explicit_data_insert.
  assert (Hi : int32_t (Z.of_nat n) = Z.of_nat n).
  { unfold int32_t. rewrite Z.mod_small by lia. lia. }
  rewrite Hi, Nat2Z.id, Hscan. cbv zeta.
  set (q := Z.to_nat (p + 1)).
  assert (Hq : p + 1 = Z.of_nat q) by lia.
  assert (Hbytes : uint64_t (uint32_t (Z.of_nat n - (p + 1)) * 8) = Z.of_nat (n - q) * 8).
  { unfold uint64_t, uint32_t, wrap. rewrite (Z.mod_small (_ - _)) by lia.
    rewrite Z.mod_small by lia. lia. }
  rewrite Hbytes.
  assert (Hcnt : uint32_t (Z.of_nat n + 1) = Z.of_nat n + 1).
  { unfold uint32_t, wrap. apply Z.mod_small. lia. }
  rewrite Hcnt.
  destruct (Z.eqb_spec (Z.of_nat (n - q) * 8) 0) as [Hz|Hnz].
  - assert (q = n) by lia. subst q.
    destruct (Z.leb_spec 0 (p + 1)); [|lia].
    destruct (Z.ltb_spec (p + 1) (Z.of_nat (length buf))); [|lia]. cbn [andb].
    do 3 f_equal. rewrite H, Nat.sub_diag, take_0, app_nil_l.
    apply insert_take_drop. lia.
  - unfold memmove.
    rewrite Z.div_mul by lia.
    destruct (Z.leb_spec 0 (p + 1 + 1)); [|lia].
    destruct (Z.leb_spec 0 (p + 1)); [|lia].
    destruct (Z.leb_spec 0 (Z.of_nat (n - q))); [|lia].
    destruct (Z.leb_spec (p + 1 + Z.of_nat (n - q)) (Z.of_nat (length buf))); [|lia].
    destruct (Z.leb_spec (p + 1 + 1 + Z.of_nat (n - q)) (Z.of_nat (length buf))); [|lia].
    cbn [andb].
    replace (Z.to_nat (p + 1 + 1)) with (S q) by lia.
    replace (Z.to_nat (p + 1 + 1 + Z.of_nat (n - q))) with (S n) by lia.
    rewrite Nat2Z.id. fold q.
    destruct (Z.ltb_spec (p + 1)
      (Z.of_nat (length (take (S q) buf ++ take (n - q) (drop q buf) ++ drop (S n) buf))))
      as [Hlt|Hge].
    + cbn [andb]. do 3 f_equal. apply insert_after_shift. lia.
    + exfalso. rewrite length_app, length_take in Hge. lia.
Qed.

(** C3. On a strictly ascending explicit buffer holding [n < 320]
    hashes: inserting a stored value returns [false] and leaves buffer and
    count as they were; inserting a new value returns [true], the count
    becomes [n + 1], and the buffer holds the old hashes plus the new one,
    strictly ascending and free of duplicates. *)
Theorem explicit_data_insert_sorted (buf : list Z) (n v : Z) :
  length buf = Z.to_nat HLL_EXPLICIT_INT64_NUM_DOUBLE →
  0 <= n < HLL_EXPLICIT_INT64_NUM_DOUBLE →
  Sorted Z.lt (take (Z.to_nat n) buf) →
  (v ∈ take (Z.to_nat n) buf →
     _explicit_data_insert buf n v = Some (false, buf, n)) ∧
  (v ∉ take (Z.to_nat n) buf →
     ∃ buf',
       _explicit_data_insert buf n v = Some (true, buf', n + 1) ∧
       length buf' = length buf ∧
       take (Z.to_nat (n + 1)) buf' ≡ₚ v :: take (Z.to_nat n) buf ∧
       StronglySorted Z.lt (take (Z.to_nat (n + 1)) buf') ∧
       NoDup (take (Z.to_nat (n + 1)) buf')).
Proof.
  intros Hlen Hn Hsorted.
  apply (Sorted_StronglySorted Z.lt) in Hsorted.
  change HLL_EXPLICIT_INT64_NUM_DOUBLE with 320 in *.
  set (k := Z.to_nat n) in *.
  assert (Hk : n = Z.of_nat k) by lia. rewrite Hk.
  assert (Hkl : (k < length buf)%nat) by lia.
  destruct (explicit_data_scan_spec buf v k Hsorted ltac:(lia) (S k) (Z.of_nat k - 1))
    as [[Hin Hscan]|(Hnot & p & Hscan & Hp & Hsplit)]; [lia | lia | | |].
  { intros j x Hj Hjk _. lia. }
  - split; [|done]. intros _. unfold _explicit_data_insert.
    unfold int32_t. rewrite Z.mod_small by lia.
    replace (Z.of_nat k + 2 ^ 31 - 2 ^ 31) with (Z.of_nat k) by lia.
    rewrite Nat2Z.id, Hscan. done.
  - split; [done|]. intros _.
    set (q := Z.to_nat (p + 1)).
    exists (take q buf ++ v :: take (k - q) (drop q buf) ++ drop (S k) buf).
    assert (Htake : take (Z.to_nat (Z.of_nat k + 1))
                      (take q buf ++ v :: take (k - q) (drop q buf) ++ drop (S k) buf)
                    = take q (take k buf) ++ v :: drop q (take k buf)).
    { replace (Z.to_nat (Z.of_nat k + 1)) with (S k) by lia.
      apply take_insert_gap. lia. }
    assert (Hlow : ∀ x, x ∈ take q (take k buf) → x < v).
    { intros x Hx. apply elem_of_take in Hx as (j & Hj & Hjq).
      apply lookup_take_Some in Hj as [Hj Hjk].
      specialize (Hsplit j x Hjk Hj). rewrite decide_True in Hsplit by lia. done. }
    assert (Hhigh : ∀ x, x ∈ drop q (take k buf) → v < x).
    { intros x Hx. apply list_elem_of_lookup in Hx as [j Hj].
      rewrite lookup_drop in Hj. apply lookup_take_Some in Hj as [Hj Hjk].
      specialize (Hsplit (q + j)%nat x Hjk Hj). rewrite decide_False in Hsplit by lia. done. }
    assert (Hss : StronglySorted Z.lt (take q (take k buf) ++ v :: drop q (take k buf))).
    { rewrite <- (take_drop q (take k buf)) in Hsorted.
      apply StronglySorted_app in Hsorted as (Hcross & HA & HB).
      apply StronglySorted_app_2; [| done |].
      - intros x1 x2 H1 H2. apply elem_of_cons in H2 as [->|H2]; [by apply Hlow|].
        by apply Hcross.
      - apply StronglySorted_cons. split; [|done]. by apply Forall_forall. }
    split; [apply explicit_data_insert_run; (done || lia)|].
    split.
    { rewrite length_app, length_take. cbn [length].
      rewrite length_app, length_take, !length_drop. lia. }
    rewrite Htake. split.
    { rewrite <- (take_drop q (take k buf)) at 3. symmetry. apply Permutation_middle. }
    split; [done|]. by apply StronglySorted_lt_NoDup.
Qed.

(** ** Life cycle *)

(** Symbolic execution of the primitives on a memory whose object map is
    written with the objects of interest in front. *)
Section run.
Context {A : Type}.
Implicit Types (O : gmap oid HyperLogLog) (h : gmap ptr (list Z)).
Implicit Types (d s : HyperLogLog) (this other : oid).

Lemma rd_this (f : HyperLogLog → A) this d O h :
  rd f this (mkMem (<[this := d]> O) h) = Some (f d, mkMem (<[this := d]> O) h).
Proof. unfold rd. cbn. by rewrite lookup_insert_eq. Qed.

Lemma rd_other (f : HyperLogLog → A) this other d s O h :
  this ≠ other →
  rd f other (mkMem (<[this := d]> (<[other := s]> O)) h)
  = Some (f s, mkMem (<[this := d]> (<[other := s]> O)) h).
Proof. intros Hne. unfold rd. cbn. by rewrite lookup_insert_ne, lookup_insert_eq. Qed.
End run.

Lemma wr_this upd this d (O : gmap oid HyperLogLog) (h : gmap ptr (list Z)) :
  wr upd this (mkMem (<[this := d]> O) h) = Some (tt, mkMem (<[this := upd d]> O) h).
Proof. unfold wr. cbn. by rewrite lookup_insert_eq, insert_insert_eq. Qed.

Lemma wr_other upd this other d s (O : gmap oid HyperLogLog) (h : gmap ptr (list Z)) :
  this ≠ other →
  wr upd other (mkMem (<[this := d]> (<[other := s]> O)) h)
  = Some (tt, mkMem (<[this := d]> (<[other := upd s]> O)) h).
Proof.
  intros Hne. unfold wr. cbn. rewrite lookup_insert_ne, lookup_insert_eq by done.
  do 3 f_equal. rewrite (insert_insert_ne _ other this) by done.
  by rewrite insert_insert_eq.
Qed.

Lemma delete_array_null (m : Mem) : delete_array None m = Some (tt, m).
Proof. done. Qed.

Lemma delete_array_live a b (O : gmap oid HyperLogLog) (h : gmap ptr (list Z)) :
  h !! a = Some b →
  delete_array (Some a) (mkMem O h) = Some (tt, mkMem O (delete a h)).
Proof. intros Hb. unfold delete_array. cbn. by rewrite Hb. Qed.

Ltac run_bind := unfold mbind, M_bind; cbv beta.
Ltac run_step :=
  first
    [ rewrite rd_this
    | rewrite wr_this
    | rewrite rd_other by done
    | rewrite wr_other by done
    | rewrite delete_array_null ];
  cbv beta iota.

Lemma delete_array_run p (O : gmap oid HyperLogLog) (h : gmap ptr (list Z)) :
  (∀ a, p = Some a → is_Some (h !! a)) →
  delete_array p (mkMem O h) = Some (tt, mkMem O (released p h)).
Proof.
  intros Hp. destruct p as [a|]; [|done].
  destruct (Hp a eq_refl) as [b Hb]. by apply (delete_array_live a b).
Qed.

Lemma releasable_second (h : gmap ptr (list Z)) (s : HyperLogLog) :
  releasable h s →
  ∀ a, _explicit_data s = Some a → is_Some (released (_registers s) h !! a).
Proof.
  intros [Hlive Hne] a Ha. destruct (_registers s) as [r|] eqn:Hr; cbn.
  - rewrite lookup_delete_ne.
    + apply Hlive. by left.
    + intros ->. by apply (Hne a).
  - apply Hlive. by left.
Qed.

Lemma clear_run this (s : HyperLogLog) (O : gmap oid HyperLogLog) (h : gmap ptr (list Z)) :
  releasable h s →
  clear this (mkMem (<[this := s]> O) h)
  = Some (tt, mkMem (<[this := empty_hll]> O)
                (released (_explicit_data s) (released (_registers s) h))).
Proof.
  intros Hrel. pose proof (releasable_second h s Hrel) as Hsnd.
  destruct Hrel as [Hlive Hne]. destruct s as [t n e r]. cbn in *.
  unfold clear. run_bind. do 2 run_step. cbn [with_type _registers].
  rewrite (delete_array_run r) by (intros a ->; apply Hlive; by right).
  cbv beta iota. do 2 run_step. cbn [with_registers _explicit_data].
  rewrite (delete_array_run e) by (intros a ->; by apply Hsnd).
  cbv beta iota. do 2 run_step. done.
Qed.

(** C9. [clear] returns any sketch whose payload pointers may be deleted
    to EMPTY: the kind is [HLL_DATA_EMPTY], both payload arrays are
    released and the pointers null, the explicit count is 0; no other
    object and no other array is touched; a second [clear] changes
    nothing. *)
Theorem clear_resets_to_empty (m : Mem) (this : oid) (s : HyperLogLog) :
  objs m !! this = Some s →
  releasable (heap m) s →
  ∃ m', clear this m = Some (tt, m') ∧
        objs m' !! this = Some (mkHLL HLL_DATA_EMPTY 0 None None) ∧
        (∀ a, owns s a → heap m' !! a = None) ∧
        (∀ o, o ≠ this → objs m' !! o = objs m !! o) ∧
        (∀ a, ¬ owns s a → heap m' !! a = heap m !! a) ∧
        clear this m' = Some (tt, m').
Proof.
  intros Hs Hrel. destruct m as [O h]. cbn [objs heap] in *.
  replace (mkMem O h) with (mkMem (<[this := s]> O) h) by (by rewrite insert_id).
  rewrite (clear_run this s _ _ Hrel). eexists. split; [reflexivity|].
  cbn [objs heap]. split; [apply lookup_insert_eq|].
  split.
  { intros a [Ha|Ha]; rewrite Ha; cbn.
    - apply lookup_delete_eq.
    - destruct (_explicit_data s) as [e|]; cbn.
      + destruct (decide (e = a)) as [->|Hne]; [apply lookup_delete_eq|].
        rewrite lookup_delete_ne by done. apply lookup_delete_eq.
      + apply lookup_delete_eq. }
  split.
  { intros o Ho. rewrite !lookup_insert_ne by done. done. }
  split.
  { intros a Hnot. unfold owns in Hnot.
    destruct (_explicit_data s) as [e|], (_registers s) as [r|]; cbn;
      rewrite ?lookup_delete_ne; (done || naive_solver). }
  rewrite (clear_run this empty_hll); [done|].
  split; [intros a [Ha|Ha]; discriminate | intros a Ha; discriminate].
Qed.

Lemma copy_assign_self (m : Mem) (o : oid) (uninit : list Z) :
  copy_assign o o uninit m = Some (tt, m).
Proof.
  unfold copy_assign. destruct (decide (o ≠ o)) as [Hne|_]; [by destruct Hne|]. done.
Qed.

Lemma move_assign_self (m : Mem) (o : oid) :
  move_assign o o m = Some (tt, m).
Proof.
  unfold move_assign. destruct (decide (o ≠ o)) as [Hne|_]; [by destruct Hne|]. done.
Qed.

(** C10. Assigning an object to itself, by copy or by move, changes
    nothing: both operators test [this != &other] before anything else. *)
Theorem self_assignment_noop (m : Mem) (o : oid) (uninit : list Z) :
  copy_assign o o uninit m = Some (tt, m) ∧ move_assign o o m = Some (tt, m).
Proof. split; [apply copy_assign_self | apply move_assign_self]. Qed.

Lemma construct_run this (O : gmap oid HyperLogLog) (h : gmap ptr (list Z)) :
  O !! this = None →
  construct this (mkMem O h) = Some (tt, mkMem (<[this := empty_hll]> O) h).
Proof. intros Hthis. unfold construct. cbn. by rewrite Hthis. Qed.

Lemma release_payload_run this (d : HyperLogLog)
    (O : gmap oid HyperLogLog) (h : gmap ptr (list Z)) :
  releasable h d →
  release_payload this (mkMem (<[this := d]> O) h)
  = Some (tt, mkMem (<[this := mkHLL (_type d) 0 None None]> O)
                (released (_explicit_data d) (released (_registers d) h))).
Proof.
  intros Hrel. pose proof (releasable_second h d Hrel) as Hsnd.
  destruct Hrel as [Hlive Hne]. destruct d as [t n e r]. cbn in *.
  unfold release_payload. run_bind. run_step. cbn [_registers].
  destruct r as [r|].
  - destruct (Hlive r ltac:(by right)) as [b Hb].
    rewrite (delete_array_live r b) by done. cbv beta iota.
    do 2 run_step. cbn [with_registers _explicit_data].
    destruct e as [e|].
    + destruct (Hsnd e eq_refl) as [b' Hb']. cbn in Hb'.
      rewrite (delete_array_live e b') by done. cbv beta iota.
      by do 2 run_step.
    + unfold mret, M_ret. cbv beta iota. by run_step.
  - unfold mret at 1, M_ret at 1. cbv beta iota. run_step. cbn [_explicit_data].
    destruct e as [e|].
    + destruct (Hsnd e eq_refl) as [b' Hb']. cbn in Hb'.
      rewrite (delete_array_live e b') by done. cbv beta iota.
      by do 2 run_step.
    + unfold mret, M_ret. cbv beta iota. by run_step.
Qed.

(** Members of the destination and of the source once the [switch] of
    the move operations has run. *)
Lemma move_payload_run this other (d s : HyperLogLog)
    (O : gmap oid HyperLogLog) (h : gmap ptr (list Z)) :
  this ≠ other →
  move_payload this other (mkMem (<[this := d]> (<[other := s]> O)) h)
  = Some (tt,
      match _type s with
      | HLL_DATA_EMPTY =>
          mkMem (<[this := with_type HLL_DATA_EMPTY d]> (<[other := s]> O)) h
      | HLL_DATA_EXPLICIT =>
          mkMem (<[this := mkHLL HLL_DATA_EXPLICIT (_explicit_data_num s)
                             (_explicit_data s) (_registers d)]>
                   (<[other := mkHLL HLL_DATA_EMPTY 0 None (_registers s)]> O)) h
      | t =>
          mkMem (<[this := mkHLL t (_explicit_data_num d) (_explicit_data d)
                             (_registers s)]>
                   (<[other := mkHLL HLL_DATA_EMPTY (_explicit_data_num s)
                                (_explicit_data s) None]> O)) h
      end).
Proof.
  intros Hne. destruct s as [t n e r], d as [t' n' e' r'].
  unfold move_payload. run_bind. do 2 run_step. cbn [_type].
  destruct t; cbv beta iota; repeat run_step; done.
Qed.

(** ** Preservation of the representation invariant *)

Lemma released_lookup_other (d : HyperLogLog) (h : gmap ptr (list Z)) (a : ptr) :
  ¬ owns d a →
  released (_explicit_data d) (released (_registers d) h) !! a = h !! a.
Proof.
  intros Hnot. unfold owns in Hnot.
  destruct (_explicit_data d) as [e|], (_registers d) as [r|]; cbn;
    rewrite ?lookup_delete_ne; first [done | intros ->; apply Hnot; auto].
Qed.

Lemma hll_wf_frame (h h' : gmap ptr (list Z)) (x : HyperLogLog) :
  hll_wf h x → (∀ a, owns x a → h' !! a = h !! a) → hll_wf h' x.
Proof.
  unfold hll_wf, owns. intros Hwf Hsame.
  destruct (_type x); [done| | |].
  - destruct Hwf as (Hn & Hr & a & b & Ha & Hb & Hlen).
    split; [done|]. split; [done|]. exists a, b. rewrite Hsame by auto. done.
  - destruct Hwf as (Hn & He & a & b & Ha & Hb & Hlen).
    split; [done|]. split; [done|]. exists a, b. rewrite Hsame by auto. done.
  - destruct Hwf as (Hn & He & a & b & Ha & Hb & Hlen).
    split; [done|]. split; [done|]. exists a, b. rewrite Hsame by auto. done.
Qed.

Lemma hll_wf_releasable (h : gmap ptr (list Z)) (x : HyperLogLog) :
  hll_wf h x → releasable h x.
Proof.
  unfold hll_wf, releasable, owns. intros Hwf.
  destruct (_type x).
  - destruct Hwf as (_ & -> & ->). split; [intros a [?|?]; done | done].
  - destruct Hwf as (_ & -> & a & b & -> & Hb & _).
    split; [|done]. intros a' [[= <-]|?]; [by eexists | done].
  - destruct Hwf as (_ & -> & a & b & -> & Hb & _).
    split; [|done]. intros a' [?|[= <-]]; [done | by eexists].
  - destruct Hwf as (_ & -> & a & b & -> & Hb & _).
    split; [|done]. intros a' [?|[= <-]]; [done | by eexists].
Qed.

Lemma owns_empty (a : ptr) : ¬ owns empty_hll a.
Proof. intros [H|H]; discriminate. Qed.

(** Two objects are rewritten, the others keep their members and their
    arrays. *)
Lemma mem_wf_replace2 (O O' : gmap oid HyperLogLog) (h h' : gmap ptr (list Z))
    (this other : oid) (d' s' : HyperLogLog) :
  mem_wf (mkMem O h) →
  this ≠ other →
  O' !! this = Some d' → O' !! other = Some s' →
  (∀ o, o ≠ this → o ≠ other → O' !! o = O !! o) →
  hll_wf h' d' → hll_wf h' s' →
  (∀ a, owns d' a → ¬ owns s' a) →
  (∀ o x a, o ≠ this → o ≠ other → O !! o = Some x → owns x a →
     h' !! a = h !! a ∧ ¬ owns d' a ∧ ¬ owns s' a) →
  mem_wf (mkMem O' h').
Proof.
  intros [Hwf Huniq] Hne Hthis Hother Hrest Hd Hs Hds Hframe. cbn in *.
  split; cbn.
  - intros o x Hx. destruct (decide (o = this)) as [->|H1]; [congruence|].
    destruct (decide (o = other)) as [->|H2]; [congruence|].
    rewrite Hrest in Hx by done. apply (hll_wf_frame h); [by apply (Hwf o)|].
    intros a Ha. by apply (Hframe o x a).
  - intros o1 o2 x1 x2 a H1 H2 Ho1 Ho2.
    destruct (decide (o1 = this)) as [->|N1], (decide (o2 = this)) as [->|N2];
      [done| | |].
    + assert (x1 = d') by congruence. subst x1.
      destruct (decide (o2 = other)) as [->|M2].
      * assert (x2 = s') by congruence. subst x2. by destruct (Hds a).
      * rewrite Hrest in H2 by done. by destruct (Hframe o2 x2 a) as (_ & ? & _).
    + assert (x2 = d') by congruence. subst x2.
      destruct (decide (o1 = other)) as [->|M1].
      * assert (x1 = s') by congruence. subst x1. by destruct (Hds a).
      * rewrite Hrest in H1 by done. by destruct (Hframe o1 x1 a) as (_ & ? & _).
    + destruct (decide (o1 = other)) as [->|M1], (decide (o2 = other)) as [->|M2];
        [done| | |].
      * assert (x1 = s') by congruence. subst x1.
        rewrite Hrest in H2 by done. by destruct (Hframe o2 x2 a) as (_ & _ & ?).
      * assert (x2 = s') by congruence. subst x2.
        rewrite Hrest in H1 by done. by destruct (Hframe o1 x1 a) as (_ & _ & ?).
      * rewrite Hrest in H1, H2 by done. by apply (Huniq o1 o2 x1 x2 a).
Qed.

(** One object is rewritten. *)
Lemma mem_wf_replace1 (O O' : gmap oid HyperLogLog) (h h' : gmap ptr (list Z))
    (this : oid) (d' : HyperLogLog) :
  mem_wf (mkMem O h) →
  O' !! this = Some d' →
  (∀ o, o ≠ this → O' !! o = O !! o) →
  hll_wf h' d' →
  (∀ o x a, o ≠ this → O !! o = Some x → owns x a →
     h' !! a = h !! a ∧ ¬ owns d' a) →
  mem_wf (mkMem O' h').
Proof.
  intros [Hwf Huniq] Hthis Hrest Hd Hframe. cbn in *.
  split; cbn.
  - intros o x Hx. destruct (decide (o = this)) as [->|H1]; [congruence|].
    rewrite Hrest in Hx by done. apply (hll_wf_frame h); [by apply (Hwf o)|].
    intros a Ha. by apply (Hframe o x a).
  - intros o1 o2 x1 x2 a H1 H2 Ho1 Ho2.
    destruct (decide (o1 = this)) as [->|N1], (decide (o2 = this)) as [->|N2];
      [done| | |].
    + assert (x1 = d') by congruence. subst x1.
      rewrite Hrest in H2 by done. by destruct (Hframe o2 x2 a) as (_ & ?).
    + assert (x2 = d') by congruence. subst x2.
      rewrite Hrest in H1 by done. by destruct (Hframe o1 x1 a) as (_ & ?).
    + rewrite Hrest in H1, H2 by done. by apply (Huniq o1 o2 x1 x2 a).
Qed.

(** ** Move construction and move assignment *)

(** On a well-formed source, and a destination whose payload is already
    released, the [switch] hands every member over and resets the source. *)
Lemma move_payload_wf this other (t0 : HllDataType) (s : HyperLogLog)
    (O : gmap oid HyperLogLog) (h h0 : gmap ptr (list Z)) :
  this ≠ other → hll_wf h0 s →
  move_payload this other
    (mkMem (<[this := mkHLL t0 0 None None]> (<[other := s]> O)) h)
  = Some (tt, mkMem (<[this := s]> (<[other := empty_hll]> O)) h).
Proof.
  intros Hne Hwf. rewrite move_payload_run by done.
  destruct s as [t n e r]. unfold hll_wf in Hwf. cbn in *.
  destruct t.
  - destruct Hwf as (-> & -> & ->). done.
  - destruct Hwf as (_ & -> & _). done.
  - destruct Hwf as (-> & -> & _). done.
  - destruct Hwf as (-> & -> & _). done.
Qed.

Lemma payload_frame (h h' : gmap ptr (list Z)) (s : HyperLogLog) :
  (∀ a, owns s a → h' !! a = h !! a) → payload h' s = payload h s.
Proof.
  intros Hsame. unfold payload, owns in *.
  destruct (_type s); [done| | |].
  - destruct (_explicit_data s) as [a|]; [|done]. cbn. by rewrite Hsame by auto.
  - destruct (_registers s) as [a|]; [|done]. cbn. by rewrite Hsame by auto.
  - destruct (_registers s) as [a|]; [|done]. cbn. by rewrite Hsame by auto.
Qed.

(** C7.  For a well-formed sketch [s] of any kind: after move
    construction from [s], and after move assignment from [s] to an object
    other than [s] itself, the moved-from object is EMPTY (kind
    [HLL_DATA_EMPTY], both payload pointers null, explicit count 0) and
    the destination holds the former members of [s], whose payload array
    is untouched; the representation invariant is kept. *)
Theorem move_transfers_payload (m : Mem) (this other : oid) (s : HyperLogLog) :
  mem_wf m →
  objs m !! other = Some s →
  (objs m !! this = None →
     ∃ m', HyperLogLog_move this other m = Some (tt, m') ∧
           objs m' !! other = Some (mkHLL HLL_DATA_EMPTY 0 None None) ∧
           objs m' !! this = Some s ∧
           payload (heap m') s = payload (heap m) s ∧
           mem_wf m') ∧
  (this ≠ other → is_Some (objs m !! this) →
     ∃ m', move_assign this other m = Some (tt, m') ∧
           objs m' !! other = Some (mkHLL HLL_DATA_EMPTY 0 None None) ∧
           objs m' !! this = Some s ∧
           payload (heap m') s = payload (heap m) s ∧
           mem_wf m').
Proof.
  intros Hm Hs. destruct m as [O h]. cbn [objs heap] in *.
  pose proof Hm as [Hwf Huniq]. cbn [objs heap] in *.
  pose proof (Hwf other s Hs) as Hswf.
  split.
  - intros Hfresh. assert (Hne : this ≠ other) by congruence.
    unfold HyperLogLog_move. run_bind.
    rewrite construct_run by done. cbv beta iota.
    replace (<[this := empty_hll]> O) with (<[this := empty_hll]> (<[other := s]> O))
      by (by rewrite (insert_id O other s Hs)).
    unfold empty_hll at 1. rewrite (move_payload_wf this other _ s _ h h) by done.
    eexists. split; [reflexivity|]. cbn [objs heap].
    split; [by rewrite lookup_insert_ne, lookup_insert_eq|].
    split; [by rewrite lookup_insert_eq|]. split; [done|].
    apply (mem_wf_replace2 O _ h h this other s empty_hll); try done.
    + by rewrite lookup_insert_eq.
    + by rewrite lookup_insert_ne, lookup_insert_eq.
    + intros o H1 H2. by rewrite !lookup_insert_ne.
    + intros a _. apply owns_empty.
    + intros o x a H1 H2 Hx Ha. split; [done|]. split; [|apply owns_empty].
      intros Hsa. apply H2. by apply (Huniq o other x s a).
  - intros Hne [d Hd]. pose proof (Hwf this d Hd) as Hdwf.
    unfold move_assign. rewrite decide_True by done. run_bind.
    replace (mkMem O h) with (mkMem (<[this := d]> (<[other := s]> O)) h)
      by (by rewrite !insert_id by (by rewrite ?lookup_insert_ne)).
    rewrite release_payload_run by (by apply hll_wf_releasable). cbv beta iota.
    rewrite (move_payload_wf this other _ s _ _ h) by done.
    assert (Hkeep : ∀ o x a, o ≠ this → O !! o = Some x → owns x a →
              released (_explicit_data d) (released (_registers d) h) !! a = h !! a).
    { intros o x a Ho Hx Ha. apply released_lookup_other.
      intros Hda. apply Ho. by apply (Huniq o this x d a). }
    eexists. split; [reflexivity|]. cbn [objs heap].
    split; [by rewrite lookup_insert_ne, lookup_insert_eq|].
    split; [by rewrite lookup_insert_eq|].
    split; [apply payload_frame; intros a Ha; by apply (Hkeep other s a)|].
    apply (mem_wf_replace2 O _ h _ this other s empty_hll); try done.
    + by rewrite lookup_insert_eq.
    + by rewrite lookup_insert_ne, lookup_insert_eq.
    + intros o H1 H2. by rewrite !lookup_insert_ne.
    + apply (hll_wf_frame h); [done|]. intros a Ha. by apply (Hkeep other s a).
    + intros a _. apply owns_empty.
    + intros o x a H1 H2 Hx Ha. split; [by apply (Hkeep o x a)|].
      split; [|apply owns_empty].
      intros Hsa. apply H2. by apply (Huniq o other x s a).
Qed.

(** ** Copy construction and copy assignment *)

Lemma new_array_run n uninit (O : gmap oid HyperLogLog) (h : gmap ptr (list Z)) :
  new_array n uninit (mkMem O h)
  = Some (fresh (dom h),
          mkMem O (<[fresh (dom h) := resize (Z.to_nat n) 0 uninit]> h)).
Proof. done. Qed.

Lemma fresh_not_live (h : gmap ptr (list Z)) : h !! fresh (dom h) = None.
Proof. apply not_elem_of_dom. apply is_fresh. Qed.

Lemma memcpy_run (d s : ptr) (bd bs : list Z) (n : Z)
    (O : gmap oid HyperLogLog) (h : gmap ptr (list Z)) :
  d ≠ s → h !! d = Some bd → h !! s = Some bs →
  0 <= n <= Z.of_nat (length bd) → n <= Z.of_nat (length bs) →
  memcpy (Some d) (Some s) n (mkMem O h)
  = Some (tt, mkMem O (<[d := take (Z.to_nat n) bs ++ drop (Z.to_nat n) bd]> h)).
Proof.
  intros Hne Hd Hs Hn1 Hn2. unfold memcpy. cbn. rewrite Hd, Hs.
  by rewrite decide_True by done.
Qed.

Lemma hll_wf_live (h : gmap ptr (list Z)) (x : HyperLogLog) (a : ptr) :
  hll_wf h x → owns x a → is_Some (h !! a).
Proof. intros Hwf Ha. by apply (hll_wf_releasable h x Hwf). Qed.

(** The copy [switch] on a well-formed source and a destination without
    payload: the destination gets the kind of the source and a newly
    allocated array with the same contents; live arrays are untouched. *)
Lemma copy_payload_run this other uninit (t0 : HllDataType) (s : HyperLogLog)
    (O : gmap oid HyperLogLog) (h : gmap ptr (list Z)) :
  this ≠ other → hll_wf h s →
  ∃ d' h',
    copy_payload this other uninit
      (mkMem (<[this := mkHLL t0 0 None None]> (<[other := s]> O)) h)
    = Some (tt, mkMem (<[this := d']> (<[other := s]> O)) h') ∧
    _type d' = _type s ∧
    hll_wf h' d' ∧
    payload h' d' = payload h s ∧
    (∀ a, owns d' a → h !! a = None) ∧
    (∀ a, is_Some (h !! a) → h' !! a = h !! a).
Proof.
  intros Hne Hwf. destruct s as [t n e r]. unfold hll_wf in Hwf. cbn in Hwf.
  unfold copy_payload. run_bind. do 2 run_step. cbn [_type with_type].
  destruct t; cbv beta iota.
  - destruct Hwf as (-> & -> & ->).
    exists (mkHLL HLL_DATA_EMPTY 0 None None), h.
    split; [done|]. split; [done|]. split; [done|]. split; [done|].
    split; [intros a [?|?]; done | done].
  - destruct Hwf as (Hn & -> & a & b & -> & Hb & Hlen).
    change HLL_EXPLICIT_INT64_NUM_DOUBLE with 320 in *.
    do 2 run_step. rewrite new_array_run. cbv beta iota.
    set (p := fresh (dom h)).
    assert (Hp : h !! p = None) by apply fresh_not_live.
    assert (Hpa : p ≠ a) by congruence.
    do 4 run_step. cbn [_explicit_data _explicit_data_num with_explicit_data
                        with_explicit_data_num].
    rewrite (memcpy_run p a (resize (Z.to_nat 320) 0 uninit) b);
      [ | done | by rewrite lookup_insert_eq | by rewrite lookup_insert_ne
        | rewrite length_resize; lia | lia ].
    rewrite insert_insert_eq.
    eexists _, _. split; [reflexivity|]. split; [done|].
    assert (Hcopy : length (take (Z.to_nat n) b
                            ++ drop (Z.to_nat n) (resize (Z.to_nat 320) 0 uninit))
                    = Z.to_nat 320).
    { rewrite length_app, length_take, length_drop, length_resize. lia. }
    split.
    { unfold hll_wf. cbn. split; [done|]. split; [done|].
      eexists _, _. split; [done|]. split; [apply lookup_insert_eq | exact Hcopy]. }
    split.
    { unfold payload. cbn. rewrite lookup_insert_eq, Hb. cbn. f_equal.
      apply take_app_length'. rewrite length_take. lia. }
    split.
    { intros x [[= <-]|?]; done. }
    intros x [bx Hx]. rewrite lookup_insert_ne; [done|]. intros <-. congruence.
  - destruct Hwf as (-> & -> & a & b & -> & Hb & Hlen).
    change HLL_REGISTERS_COUNT with 16384 in *.
    rewrite new_array_run. cbv beta iota.
    set (p := fresh (dom h)).
    assert (Hp : h !! p = None) by apply fresh_not_live.
    assert (Hpa : p ≠ a) by congruence.
    do 3 run_step. cbn [_registers with_registers].
    rewrite (memcpy_run p a (resize (Z.to_nat 16384) 0 uninit) b);
      [ | done | by rewrite lookup_insert_eq | by rewrite lookup_insert_ne
        | rewrite length_resize; lia | lia ].
    rewrite insert_insert_eq.
    assert (Hcopy : take (Z.to_nat 16384) b
                    ++ drop (Z.to_nat 16384) (resize (Z.to_nat 16384) 0 uninit) = b).
    { rewrite take_ge by lia. rewrite drop_ge by (rewrite length_resize; lia).
      apply app_nil_r. }
    rewrite Hcopy.
    eexists _, _. split; [reflexivity|]. split; [done|].
    split.
    { unfold hll_wf. cbn. split; [done|]. split; [done|].
      eexists _, _. split; [done|]. split; [apply lookup_insert_eq | exact Hlen]. }
    split.
    { unfold payload. cbn. by rewrite lookup_insert_eq, Hb. }
    split.
    { intros x [?|[= <-]]; done. }
    intros x [bx Hx]. rewrite lookup_insert_ne; [done|]. intros <-. congruence.
  - destruct Hwf as (-> & -> & a & b & -> & Hb & Hlen).
    change HLL_REGISTERS_COUNT with 16384 in *.
    rewrite new_array_run. cbv beta iota.
    set (p := fresh (dom h)).
    assert (Hp : h !! p = None) by apply fresh_not_live.
    assert (Hpa : p ≠ a) by congruence.
    do 3 run_step. cbn [_registers with_registers].
    rewrite (memcpy_run p a (resize (Z.to_nat 16384) 0 uninit) b);
      [ | done | by rewrite lookup_insert_eq | by rewrite lookup_insert_ne
        | rewrite length_resize; lia | lia ].
    rewrite insert_insert_eq.
    assert (Hcopy : take (Z.to_nat 16384) b
                    ++ drop (Z.to_nat 16384) (resize (Z.to_nat 16384) 0 uninit) = b).
    { rewrite take_ge by lia. rewrite drop_ge by (rewrite length_resize; lia).
      apply app_nil_r. }
    rewrite Hcopy.
    eexists _, _. split; [reflexivity|]. split; [done|].
    split.
    { unfold hll_wf. cbn. split; [done|]. split; [done|].
      eexists _, _. split; [done|]. split; [apply lookup_insert_eq | exact Hlen]. }
    split.
    { unfold payload. cbn. by rewrite lookup_insert_eq, Hb. }
    split.
    { intros x [?|[= <-]]; done. }
    intros x [bx Hx]. rewrite lookup_insert_ne; [done|]. intros <-. congruence.
Qed.

(** The copy [switch] once the arrays of the former destination [d0] are
    released ([d0] is [empty_hll] in the constructor). *)
Lemma copy_into (O : gmap oid HyperLogLog) (h : gmap ptr (list Z))
    (this other : oid) (d0 s : HyperLogLog) (t0 : HllDataType) (uninit : list Z) :
  mem_wf (mkMem O h) → this ≠ other → O !! other = Some s →
  (∀ o x a, o ≠ this → O !! o = Some x → owns x a → ¬ owns d0 a) →
  ∃ d' h',
    copy_payload this other uninit
      (mkMem (<[this := mkHLL t0 0 None None]> (<[other := s]> O))
             (released (_explicit_data d0) (released (_registers d0) h)))
    = Some (tt, mkMem (<[this := d']> (<[other := s]> O)) h') ∧
    _type d' = _type s ∧
    payload h' d' = payload h s ∧
    payload h' s = payload h s ∧
    (∀ a, owns d' a → ¬ owns s a ∧ (h !! a = None ∨ owns d0 a)) ∧
    mem_wf (mkMem (<[this := d']> (<[other := s]> O)) h').
Proof.
  intros Hm Hne Hs Hd0. pose proof Hm as [Hwf Huniq]. cbn [objs heap] in *.
  set (hr := released (_explicit_data d0) (released (_registers d0) h)).
  assert (Hkeep : ∀ o x a, o ≠ this → O !! o = Some x → owns x a →
            hr !! a = h !! a ∧ is_Some (hr !! a)).
  { intros o x a Ho Hx Ha.
    assert (hr !! a = h !! a) as Heq
      by (apply released_lookup_other; by apply (Hd0 o x a)).
    split; [done|]. rewrite Heq. by apply (hll_wf_live h x a), Ha; apply (Hwf o). }
  assert (Hswf : hll_wf hr s).
  { apply (hll_wf_frame h); [by apply (Hwf other)|].
    intros a Ha. by apply (Hkeep other s a). }
  destruct (copy_payload_run this other uninit t0 s O hr Hne Hswf)
    as (d' & h' & Hrun & Htype & Hdwf & Hpay & Hfresh & Hframe).
  exists d', h'. split; [exact Hrun|]. split; [exact Htype|].
  assert (Hsame : ∀ o x a, o ≠ this → O !! o = Some x → owns x a →
            h' !! a = h !! a).
  { intros o x a Ho Hx Ha. destruct (Hkeep o x a Ho Hx Ha) as [Heq Hlive].
    by rewrite Hframe. }
  assert (Hps : payload hr s = payload h s).
  { apply payload_frame. intros a Ha. by apply (Hkeep other s a). }
  split; [by rewrite Hpay|].
  split.
  { apply payload_frame. intros a Ha. by apply (Hsame other s a). }
  assert (Hnew : ∀ o x a, o ≠ this → O !! o = Some x → owns x a → ¬ owns d' a).
  { intros o x a Ho Hx Ha Hda. destruct (Hkeep o x a Ho Hx Ha) as [_ [b Hb]].
    rewrite (Hfresh a Hda) in Hb. discriminate. }
  split.
  { intros a Ha. split.
    - intros Hsa. by apply (Hnew other s a).
    - destruct (decide (owns d0 a)) as [?|Hnot]; [by right|left].
      rewrite <- (released_lookup_other d0 h a Hnot). by apply Hfresh. }
  apply (mem_wf_replace2 O _ h h' this other d' s); try done.
  - by rewrite lookup_insert_eq.
  - by rewrite lookup_insert_ne, lookup_insert_eq.
  - intros o H1 H2. by rewrite !lookup_insert_ne.
  - apply (hll_wf_frame h); [by apply (Hwf other)|].
    intros a Ha. by apply (Hsame other s a).
  - intros a Ha Hsa. by apply (Hnew other s a).
  - intros o x a H1 H2 Hx Ha. split; [by apply (Hsame o x a)|].
    split; [by apply (Hnew o x a)|].
    intros Hsa. apply H2. by apply (Huniq o other x s a).
Qed.

(** C8. Copy construction and copy assignment from a well-formed sketch
    [s] of any kind give the destination the kind of [s] and payload
    contents equal to those of [s]; for a destination other than [s] the
    array is newly allocated (not live before, or the destination's own
    released one) and is not an array of [s]; the source keeps its members
    and contents; every array still has one owner. *)
Theorem copy_duplicates_payload (m : Mem) (this other : oid) (s : HyperLogLog)
    (uninit : list Z) :
  mem_wf m →
  objs m !! other = Some s →
  (objs m !! this = None →
     ∃ m' d', HyperLogLog_copy this other uninit m = Some (tt, m') ∧
       objs m' !! this = Some d' ∧
       _type d' = _type s ∧
       payload (heap m') d' = payload (heap m) s ∧
       (∀ a, owns d' a → ¬ owns s a ∧ heap m !! a = None) ∧
       objs m' !! other = Some s ∧
       payload (heap m') s = payload (heap m) s ∧
       mem_wf m') ∧
  (∀ d, objs m !! this = Some d →
     ∃ m' d', copy_assign this other uninit m = Some (tt, m') ∧
       objs m' !! this = Some d' ∧
       _type d' = _type s ∧
       payload (heap m') d' = payload (heap m) s ∧
       (this ≠ other →
          ∀ a, owns d' a → ¬ owns s a ∧ (heap m !! a = None ∨ owns d a)) ∧
       objs m' !! other = Some s ∧
       payload (heap m') s = payload (heap m) s ∧
       mem_wf m').
Proof.
  intros Hm Hs. destruct m as [O h]. cbn [objs heap] in *.
  pose proof Hm as [Hwf Huniq]. cbn [objs heap] in *.
  split.
  - intros Hfresh. assert (Hne : this ≠ other) by congruence.
    destruct (copy_into O h this other empty_hll s HLL_DATA_EMPTY uninit)
      as (d' & h' & Hrun & Htype & Hpd & Hps & Hnew & Hwf'); try done.
    { intros o x a _ _ _. apply owns_empty. }
    cbn [released empty_hll _explicit_data _registers] in Hrun.
    unfold HyperLogLog_copy. run_bind.
    rewrite construct_run by done. cbv beta iota.
    replace (<[this := empty_hll]> O) with (<[this := empty_hll]> (<[other := s]> O))
      by (by rewrite (insert_id O other s Hs)).
    unfold empty_hll at 1. rewrite Hrun.
    exists (mkMem (<[this := d']> (<[other := s]> O)) h'), d'.
    split; [done|]. cbn [objs heap].
    split; [by rewrite lookup_insert_eq|]. split; [done|]. split; [done|].
    split.
    { intros a Ha. destruct (Hnew a Ha) as [Hns [Hnone|Hown]]; [done|].
      by destruct (owns_empty a). }
    split; [by rewrite lookup_insert_ne, lookup_insert_eq|]. done.
  - intros d Hd. unfold copy_assign.
    destruct (decide (this ≠ other)) as [Hne|Heq].
    + destruct (copy_into O h this other d s (_type d) uninit)
        as (d' & h' & Hrun & Htype & Hpd & Hps & Hnew & Hwf'); try done.
      { intros o x a Ho Hx Ha Hda. apply Ho. by apply (Huniq o this x d a). }
      run_bind.
      replace (mkMem O h) with (mkMem (<[this := d]> (<[other := s]> O)) h)
        by (by rewrite !insert_id by (by rewrite ?lookup_insert_ne)).
      rewrite release_payload_run by (by apply hll_wf_releasable, (Hwf this)).
      cbv beta iota. rewrite Hrun.
      exists (mkMem (<[this := d']> (<[other := s]> O)) h'), d'.
      split; [done|]. cbn [objs heap].
      split; [by rewrite lookup_insert_eq|]. split; [done|]. split; [done|].
      split; [done|].
      split; [by rewrite lookup_insert_ne, lookup_insert_eq|]. done.
    + assert (this = other) as -> by (by destruct (decide (this = other)); [|destruct Heq]).
      exists (mkMem O h), s. split; [done|]. cbn [objs heap].
      repeat split; done.
Qed.

(** ** Constructors *)

Lemma store_run (a : ptr) (b : list Z) (i v : Z)
    (O : gmap oid HyperLogLog) (h : gmap ptr (list Z)) :
  h !! a = Some b → 0 <= i < Z.of_nat (length b) →
  store (Some a) i v (mkMem O h)
  = Some (tt, mkMem O (<[a := <[Z.to_nat i := v]> b]> h)).
Proof.
  intros Hb Hi. unfold store. cbn. rewrite Hb. by rewrite decide_True by done.
Qed.

(** The default constructor yields an EMPTY object and keeps the
    invariant. *)
Lemma HyperLogLog_default_wf (m : Mem) (this : oid) :
  mem_wf m → objs m !! this = None →
  ∃ m', HyperLogLog_default this m = Some (tt, m') ∧
        objs m' !! this = Some empty_hll ∧
        heap m' = heap m ∧
        mem_wf m'.
Proof.
  intros Hm Hfresh. destruct m as [O h]. cbn [objs heap] in *.
  unfold HyperLogLog_default. rewrite construct_run by done.
  eexists. split; [reflexivity|]. cbn [objs heap].
  split; [apply lookup_insert_eq|]. split; [done|].
  apply (mem_wf_replace1 O _ h h this empty_hll); try done.
  - apply lookup_insert_eq.
  - intros o Ho. by rewrite lookup_insert_ne.
  - intros o x a _ _ _. split; [done | apply owns_empty].
Qed.

(** The constructor from a hash yields an EXPLICIT object holding that
    one hash, and keeps the invariant. *)
Lemma HyperLogLog_hash_wf (m : Mem) (this : oid) (hash_value : Z) (uninit : list Z) :
  mem_wf m → objs m !! this = None →
  ∃ m' d, HyperLogLog_hash this hash_value uninit m = Some (tt, m') ∧
          objs m' !! this = Some d ∧
          _type d = HLL_DATA_EXPLICIT ∧
          payload (heap m') d = Some [hash_value] ∧
          mem_wf m'.
Proof.
  intros Hm Hfresh. destruct m as [O h]. cbn [objs heap] in *.
  pose proof Hm as [Hwf Huniq]. cbn [objs heap] in *.
  unfold HyperLogLog_hash. run_bind. rewrite construct_run by done. cbv beta iota.
  run_step. rewrite new_array_run. cbv beta iota. do 2 run_step.
  set (p := fresh (dom h)).
  assert (Hp : h !! p = None) by apply fresh_not_live.
  cbn [empty_hll with_type with_explicit_data _explicit_data].
  set (b := resize (Z.to_nat HLL_EXPLICIT_INT64_NUM_DOUBLE) 0 uninit).
  assert (Hb : length b = Z.to_nat HLL_EXPLICIT_INT64_NUM_DOUBLE) by apply length_resize.
  change HLL_EXPLICIT_INT64_NUM_DOUBLE with 320 in *.
  rewrite (store_run p b) by (rewrite ?lookup_insert_eq; (done || lia)).
  cbv beta iota. run_step. rewrite insert_insert_eq.
  cbn [with_explicit_data_num _type _explicit_data _registers].
  eexists _, _. split; [reflexivity|]. cbn [objs heap].
  split; [apply lookup_insert_eq|]. split; [done|].
  split.
  { unfold payload. cbn [_type _explicit_data _explicit_data_num].
    cbn. rewrite lookup_insert_eq. cbn. f_equal.
    destruct b as [|x b]; [cbn in Hb; lia|]. done. }
  apply (mem_wf_replace1 O _ h _ this (mkHLL HLL_DATA_EXPLICIT 1 (Some p) None));
    try done.
  - apply lookup_insert_eq.
  - intros o Ho. by rewrite lookup_insert_ne.
  - unfold hll_wf. cbn [_type _explicit_data _explicit_data_num _registers].
    change HLL_EXPLICIT_INT64_NUM_DOUBLE with 320.
    split; [lia|]. split; [done|]. eexists _, _. split; [done|].
    split; [apply lookup_insert_eq|]. by rewrite length_insert.
  - intros o x a Ho Hx Ha.
    destruct (hll_wf_live h x a (Hwf o x Hx) Ha) as [bx Hbx].
    assert (a ≠ p) by congruence.
    split; [by rewrite lookup_insert_ne|].
    intros [[= ?]|?]; done.
Qed.

Lemma empty_mem_wf : mem_wf empty_mem.
Proof.
  split; cbn.
  - intros o s H. by rewrite lookup_empty in H.
  - intros o1 o2 s1 s2 a H. by rewrite lookup_empty in H.
Qed.

(** [one_explicit] is the memory [HyperLogLog(sample_hash)] builds. *)
Lemma one_explicit_built :
  HyperLogLog_hash 0%nat sample_hash [] empty_mem = Some (tt, one_explicit).
Proof. vm_compute. reflexivity. Qed.

Lemma one_explicit_wf : mem_wf one_explicit.
Proof.
  destruct (HyperLogLog_hash_wf empty_mem 0%nat sample_hash [] empty_mem_wf)
    as (m' & d & Hrun & _ & _ & _ & Hwf); [done|].
  rewrite one_explicit_built in Hrun. by injection Hrun as <-.
Qed.

Lemma two_sketches_built :
  HyperLogLog_default 1%nat one_explicit = Some (tt, two_sketches).
Proof. vm_compute. reflexivity. Qed.

Lemma two_sketches_wf : mem_wf two_sketches.
Proof.
  destruct (HyperLogLog_default_wf one_explicit 1%nat one_explicit_wf)
    as (m' & Hrun & _ & _ & Hwf); [done|].
  rewrite two_sketches_built in Hrun. by injection Hrun as <-.
Qed.

(** ** Instances on the sample memories *)

(** C2 on three concrete register arrays. *)
Lemma merge_registers_semilattice_witness :
  length zero_registers = Z.to_nat HLL_REGISTERS_COUNT ∧
  length one_register_set = Z.to_nat HLL_REGISTERS_COUNT ∧
  length all_registers_two = Z.to_nat HLL_REGISTERS_COUNT ∧
  (∃ ab, _merge_registers zero_registers one_register_set = Some ab ∧
         length ab = Z.to_nat HLL_REGISTERS_COUNT ∧
         ∀ i x y, zero_registers !! i = Some x → one_register_set !! i = Some y →
                  ab !! i = Some (Z.max x y)) ∧
  _merge_registers zero_registers one_register_set
    = _merge_registers one_register_set zero_registers ∧
  (_merge_registers zero_registers one_register_set
     ≫= λ ab, _merge_registers ab all_registers_two)
    = (_merge_registers one_register_set all_registers_two
         ≫= λ bc, _merge_registers zero_registers bc) ∧
  _merge_registers zero_registers zero_registers = Some zero_registers.
Proof.
  assert (Ha : length zero_registers = Z.to_nat HLL_REGISTERS_COUNT)
    by apply length_replicate.
  assert (Hb : length one_register_set = Z.to_nat HLL_REGISTERS_COUNT)
    by (unfold one_register_set; rewrite length_insert; apply length_replicate).
  assert (Hc : length all_registers_two = Z.to_nat HLL_REGISTERS_COUNT)
    by apply length_replicate.
  split; [exact Ha|]. split; [exact Hb|]. split; [exact Hc|].
  exact (merge_registers_semilattice zero_registers one_register_set
           all_registers_two Ha Hb Hc).
Defined.

(** C3 on the buffer of [one_explicit], which holds [sample_hash]. *)
Lemma explicit_data_insert_sorted_witness :
  length sample_explicit_data = Z.to_nat HLL_EXPLICIT_INT64_NUM_DOUBLE ∧
  0 <= 1 < HLL_EXPLICIT_INT64_NUM_DOUBLE ∧
  Sorted Z.lt (take (Z.to_nat 1) sample_explicit_data) ∧
  (sample_hash ∈ take (Z.to_nat 1) sample_explicit_data →
     _explicit_data_insert sample_explicit_data 1 sample_hash
     = Some (false, sample_explicit_data, 1)) ∧
  (5 ∉ take (Z.to_nat 1) sample_explicit_data →
     ∃ buf',
       _explicit_data_insert sample_explicit_data 1 5 = Some (true, buf', 1 + 1) ∧
       length buf' = length sample_explicit_data ∧
       take (Z.to_nat (1 + 1)) buf' ≡ₚ 5 :: take (Z.to_nat 1) sample_explicit_data ∧
       StronglySorted Z.lt (take (Z.to_nat (1 + 1)) buf') ∧
       NoDup (take (Z.to_nat (1 + 1)) buf')).
Proof.
  assert (H1 : length sample_explicit_data = Z.to_nat HLL_EXPLICIT_INT64_NUM_DOUBLE)
    by (vm_compute; reflexivity).
  assert (H2 : 0 <= 1 < HLL_EXPLICIT_INT64_NUM_DOUBLE) by (change HLL_EXPLICIT_INT64_NUM_DOUBLE with 320; lia).
  assert (H3 : Sorted Z.lt (take (Z.to_nat 1) sample_explicit_data))
    by (repeat constructor).
  split; [exact H1|]. split; [exact H2|]. split; [exact H3|].
  split.
  - exact (proj1 (explicit_data_insert_sorted sample_explicit_data 1 sample_hash H1 H2 H3)).
  - exact (proj2 (explicit_data_insert_sorted sample_explicit_data 1 5 H1 H2 H3)).
Defined.

(** [memory_consumed] adds the capacity constants, whatever the element
    size. *)
Lemma memory_consumed_run (sizeof_this : Z) (this : oid) (s : HyperLogLog) (m : Mem) :
  objs m !! this = Some s →
  0 <= sizeof_this < 2 ^ 32 →
  memory_consumed sizeof_this this m
  = Some (sizeof_this
          + (if _explicit_data s is Some _ then HLL_EXPLICIT_INT64_NUM_DOUBLE else 0)
          + (if _registers s is Some _ then HLL_REGISTERS_COUNT else 0), m).
Proof.
  intros Hs Hsz. unfold memory_consumed, rd. run_bind. rewrite Hs. cbv beta iota.
  rewrite Hs. unfold mret, M_ret.
  change HLL_EXPLICIT_INT64_NUM_DOUBLE with 320.
  change HLL_REGISTERS_COUNT with 16384.
  unfold uint64_t, wrap.
  destruct (_explicit_data s), (_registers s);
    rewrite ?(Z.mod_small (sizeof_this + 320)) by lia;
    rewrite ?Z.mod_small by lia; do 2 f_equal; lia.
Qed.

(** On every well-formed FULL or SPARSE sketch the answer is the object
    plus the bytes of the register array. *)
Lemma memory_consumed_registers (sizeof_this : Z) (this : oid) (s : HyperLogLog) (m : Mem) :
  mem_wf m → objs m !! this = Some s →
  _type s = HLL_DATA_FULL ∨ _type s = HLL_DATA_SPARSE →
  0 <= sizeof_this < 2 ^ 32 →
  memory_consumed sizeof_this this m
  = Some (sizeof_this + heap_bytes (heap m) s, m).
Proof.
  intros [Hwf _] Hs Ht Hsz. rewrite (memory_consumed_run _ _ s) by done.
  specialize (Hwf this s Hs). unfold hll_wf in Hwf. unfold heap_bytes.
  destruct Ht as [Ht|Ht]; rewrite Ht in Hwf;
    destruct Hwf as (_ & -> & a & b & -> & Hb & Hlen); cbn; rewrite Hb, Hlen;
    change HLL_REGISTERS_COUNT with 16384; do 2 f_equal; lia.
Qed.

(** On every well-formed EXPLICIT sketch the answer is the object plus
    320, while the explicit array holds 2560 bytes. *)
Lemma memory_consumed_explicit (sizeof_this : Z) (this : oid) (s : HyperLogLog) (m : Mem) :
  mem_wf m → objs m !! this = Some s →
  _type s = HLL_DATA_EXPLICIT →
  0 <= sizeof_this < 2 ^ 32 →
  memory_consumed sizeof_this this m = Some (sizeof_this + 320, m) ∧
  heap_bytes (heap m) s = 2560.
Proof.
  intros [Hwf _] Hs Ht Hsz. rewrite (memory_consumed_run _ _ s) by done.
  specialize (Hwf this s Hs). unfold hll_wf in Hwf. unfold heap_bytes.
  rewrite Ht in Hwf. destruct Hwf as (_ & -> & a & b & -> & Hb & Hlen).
  cbn. rewrite Hb, Hlen. change HLL_EXPLICIT_INT64_NUM_DOUBLE with 320.
  split; [do 2 f_equal; lia | lia].
Qed.

(** C6 (the code departs from the claim).  For the sketch built by
    [HyperLogLog(sample_hash)], with a 24-byte object, [memory_consumed]
    answers 24 + 320 = 344, while the object plus the heap bytes of its
    320-slot array are 24 + 2560 = 2584. *)
Theorem memory_consumed_counts_slots :
  objs one_explicit !! 0%nat = Some sample_explicit ∧
  memory_consumed 24 0%nat one_explicit = Some (344, one_explicit) ∧
  24 + heap_bytes (heap one_explicit) sample_explicit = 2584.
Proof. split; [|split]; vm_compute; reflexivity. Qed.

Lemma two_sketches_source : objs two_sketches !! 0%nat = Some sample_explicit.
Proof. vm_compute. reflexivity. Qed.

Lemma two_sketches_target : objs two_sketches !! 1%nat = Some empty_hll.
Proof. vm_compute. reflexivity. Qed.

(** C7 for the move assignment of object 0 to object 1 of
    [two_sketches]. *)
Lemma move_transfers_payload_witness :
  mem_wf two_sketches ∧
  objs two_sketches !! 0%nat = Some sample_explicit ∧
  1%nat ≠ 0%nat ∧
  is_Some (objs two_sketches !! 1%nat) ∧
  ∃ m', move_assign 1%nat 0%nat two_sketches = Some (tt, m') ∧
        objs m' !! 0%nat = Some (mkHLL HLL_DATA_EMPTY 0 None None) ∧
        objs m' !! 1%nat = Some sample_explicit ∧
        payload (heap m') sample_explicit = payload (heap two_sketches) sample_explicit ∧
        mem_wf m'.
Proof.
  assert (H1 : 1%nat ≠ 0%nat) by discriminate.
  assert (H2 : is_Some (objs two_sketches !! 1%nat))
    by (rewrite two_sketches_target; eexists; reflexivity).
  split; [exact two_sketches_wf|]. split; [exact two_sketches_source|].
  split; [exact H1|]. split; [exact H2|].
  exact (proj2 (move_transfers_payload two_sketches 1%nat 0%nat sample_explicit
                  two_sketches_wf two_sketches_source) H1 H2).
Defined.

(** C8 for the copy assignment of object 0 to object 1 of
    [two_sketches]. *)
Lemma copy_duplicates_payload_witness :
  mem_wf two_sketches ∧
  objs two_sketches !! 0%nat = Some sample_explicit ∧
  objs two_sketches !! 1%nat = Some empty_hll ∧
  ∃ m' d', copy_assign 1%nat 0%nat [] two_sketches = Some (tt, m') ∧
     objs m' !! 1%nat = Some d' ∧
     _type d' = _type sample_explicit ∧
     payload (heap m') d' = payload (heap two_sketches) sample_explicit ∧
     (1%nat ≠ 0%nat →
        ∀ a, owns d' a →
          ¬ owns sample_explicit a ∧ (heap two_sketches !! a = None ∨ owns empty_hll a)) ∧
     objs m' !! 0%nat = Some sample_explicit ∧
     payload (heap m') sample_explicit = payload (heap two_sketches) sample_explicit ∧
     mem_wf m'.
Proof.
  split; [exact two_sketches_wf|]. split; [exact two_sketches_source|].
  split; [exact two_sketches_target|].
  exact (proj2 (copy_duplicates_payload two_sketches 1%nat 0%nat sample_explicit []
                  two_sketches_wf two_sketches_source) empty_hll two_sketches_target).
Defined.

Lemma sample_explicit_releasable : releasable (heap one_explicit) sample_explicit.
Proof.
  apply hll_wf_releasable. apply (proj1 one_explicit_wf 0%nat). vm_compute. reflexivity.
Qed.

(** C9 for [clear] on the object of [one_explicit]. *)
Lemma clear_resets_to_empty_witness :
  objs one_explicit !! 0%nat = Some sample_explicit ∧
  releasable (heap one_explicit) sample_explicit ∧
  ∃ m', clear 0%nat one_explicit = Some (tt, m') ∧
        objs m' !! 0%nat = Some (mkHLL HLL_DATA_EMPTY 0 None None) ∧
        (∀ a, owns sample_explicit a → heap m' !! a = None) ∧
        (∀ o, o ≠ 0%nat → objs m' !! o = objs one_explicit !! o) ∧
        (∀ a, ¬ owns sample_explicit a → heap m' !! a = heap one_explicit !! a) ∧
        clear 0%nat m' = Some (tt, m').
Proof.
  assert (H1 : objs one_explicit !! 0%nat = Some sample_explicit)
    by (vm_compute; reflexivity).
  split; [exact H1|]. split; [exact sample_explicit_releasable|].
  exact (clear_resets_to_empty one_explicit 0%nat sample_explicit H1
           sample_explicit_releasable).
Defined.

(** ** Codec *)

(** [int32_t] picks the representative of [x] modulo [2^32] in the signed
    range. *)
Lemma int32_t_spec (x : Z) :
  - 2 ^ 31 <= int32_t x < 2 ^ 31 ∧ ∃ q, int32_t x = x + q * 2 ^ 32.
Proof.
  unfold int32_t. pose proof (Z.mod_pos_bound (x + 2 ^ 31) (2 ^ 32) ltac:(lia)).
  split; [lia|]. exists (- ((x + 2 ^ 31) / 2 ^ 32)).
  pose proof (Z.div_mod (x + 2 ^ 31) (2 ^ 32) ltac:(lia)). lia.
Qed.

Lemma int32_t_unique (x k q : Z) :
  - 2 ^ 31 <= k < 2 ^ 31 → k = x + q * 2 ^ 32 → k = int32_t x.
Proof.
  intros Hk Hq. destruct (int32_t_spec x) as [Hr [q' Hq']]. lia.
Qed.

(** C5.  [is_valid] accepts a buffer exactly when byte 0 is a tag in
    {0, 1, 2, 3} and the length is plausible for it: at least 1 for EMPTY;
    at least 2 and equal to [2 + 8 * bytes[1]] for EXPLICIT; at least 5
    and equal to [5 + 3 * k] for SPARSE, [k] being the signed 32-bit
    little-endian count in bytes 1..4; at least 16385 for FULL. *)
Theorem is_valid_plausible (slice : list Z) :
  is_valid slice = true ↔
  ∃ tag, slice !! 0%nat = Some tag ∧
    ((tag = 0 ∧ 1 <= Z.of_nat (length slice)) ∨
     (tag = 1 ∧ 2 <= Z.of_nat (length slice) ∧
        ∃ n, slice !! 1%nat = Some n ∧ Z.of_nat (length slice) = 2 + 8 * n) ∨
     (tag = 2 ∧ 5 <= Z.of_nat (length slice) ∧
        ∃ b1 b2 b3 b4 k q,
          slice !! 1%nat = Some b1 ∧ slice !! 2%nat = Some b2 ∧
          slice !! 3%nat = Some b3 ∧ slice !! 4%nat = Some b4 ∧
          - 2 ^ 31 <= k < 2 ^ 31 ∧
          k = b1 + 2 ^ 8 * b2 + 2 ^ 16 * b3 + 2 ^ 24 * b4 + q * 2 ^ 32 ∧
          Z.of_nat (length slice) = 5 + 3 * k) ∨
     (tag = 3 ∧ 16385 <= Z.of_nat (length slice))).
Proof.
  unfold is_valid. change HLL_REGISTERS_COUNT with 16384.
  cbn [HllDataType_value].
  destruct slice as [|tag rest]; cbn [lookup list_lookup].
  { split; [discriminate | intros (tag & Htag & _); discriminate]. }
  destruct (Z.eqb_spec tag 0) as [->|H0].
  { rewrite Z.leb_le. split.
    - intros Hsz. exists 0. split; [done|]. left. done.
    - intros (tag & [= <-] & Hcase). cbn [length]. lia. }
  destruct (Z.eqb_spec tag 1) as [->|H1].
  { rewrite andb_true_iff, Z.leb_le, Z.eqb_eq. split.
    - intros [Hsz Heq]. exists 1. split; [done|]. right. left.
      split; [done|]. split; [done|].
      destruct rest as [|n rest']; [cbn in Hsz; lia|]. exists n. done.
    - intros (tag & [= <-] & [[? _]|[(_ & Hsz & n & Hn & Heq)|[[? _]|[? _]]]]);
        try discriminate.
      split; [done|]. destruct rest as [|n' rest']; [discriminate|].
      cbn in Hn. injection Hn as ->. done. }
  destruct (Z.eqb_spec tag 2) as [->|H2].
  { rewrite andb_true_iff, Z.leb_le, Z.eqb_eq. split.
    - intros [Hsz Heq]. exists 2. split; [done|]. right. right. left.
      split; [done|]. split; [done|].
      destruct rest as [|b1 [|b2 [|b3 [|b4 rest']]]]; try (cbn in Hsz; lia).
      destruct (int32_t_spec (decode_le [b1; b2; b3; b4])) as [Hr [q Hq]].
      exists b1, b2, b3, b4, (int32_t (decode_le [b1; b2; b3; b4])), q.
      do 4 (split; [done|]). split; [exact Hr|]. split; [|exact Heq].
      rewrite Hq. cbn [decode_le]. lia.
    - intros (tag & [= <-] & [[? _]|[[? _]|[(_ & Hsz & Hk)|[? _]]]]);
        try discriminate.
      destruct Hk as (b1 & b2 & b3 & b4 & k & q & E1 & E2 & E3 & E4 & Hr & Hq & Heq).
      split; [done|].
      destruct rest as [|c1 [|c2 [|c3 [|c4 rest']]]]; try discriminate.
      cbn in E1, E2, E3, E4.
      injection E1 as ->. injection E2 as ->. injection E3 as ->. injection E4 as ->.
      rewrite Heq. do 2 f_equal. apply (int32_t_unique _ k q); [done|].
      change (take 4 (drop 1 (2 :: b1 :: b2 :: b3 :: b4 :: rest')))
        with [b1; b2; b3; b4].
      rewrite Hq. cbn [decode_le]. lia. }
  destruct (Z.eqb_spec tag 3) as [->|H3].
  { rewrite Z.leb_le. split.
    - intros Hsz. exists 3. split; [done|]. do 3 right. split; [done|lia].
    - intros (tag & [= <-] & [[? _]|[[? _]|[[? _]|[_ Hsz]]]]); try discriminate. lia. }
  split; [discriminate|].
  intros (tag' & [= <-] & [[? _]|[[? _]|[[? _]|[? _]]]]); done.
Qed.

Lemma decode_sparse_length (k : nat) (body regs regs' : list Z) :
  decode_sparse k body regs = Some regs' → length regs' = length regs.
Proof.
  revert body regs; induction k as [|k IH]; intros body regs; cbn [decode_sparse].
  - by intros [= <-].
  - destruct (Z.ltb_spec (decode_le (take 2 body)) HLL_REGISTERS_COUNT); [|done].
    intros Hrec. apply IH in Hrec. by rewrite length_insert in Hrec.
Qed.

(** The record loop fails exactly when one of the [k] records carries an
    index outside the registers. *)
Lemma decode_sparse_None (k : nat) (body regs : list Z) :
  length body = (3 * k)%nat →
  decode_sparse k body regs = None ↔
  ∃ (i : nat) b0 b1,
    body !! (3 * i)%nat = Some b0 ∧ body !! (3 * i + 1)%nat = Some b1 ∧
    HLL_REGISTERS_COUNT <= b0 + 256 * b1.
Proof.
  revert body regs; induction k as [|k IH]; intros body regs Hlen.
  - destruct body; [|discriminate]. cbn. split; [discriminate|].
    intros (i & b0 & b1 & H0 & _). by rewrite lookup_nil in H0.
  - destruct body as [|b0 [|b1 [|v body']]]; try (cbn in Hlen; lia).
    cbn [decode_sparse]. change (take 2 (b0 :: b1 :: v :: body')) with [b0; b1].
    change (drop 3 (b0 :: b1 :: v :: body')) with body'.
    cbn [decode_le].
    replace (b0 + 2 ^ 8 * (b1 + 2 ^ 8 * 0)) with (b0 + 256 * b1) by lia.
    destruct (Z.ltb_spec (b0 + 256 * b1) HLL_REGISTERS_COUNT) as [Hin|Hout].
    + rewrite IH by (cbn in Hlen; lia). split.
      * intros (i & c0 & c1 & H0 & H1 & Hc). exists (S i), c0, c1.
        replace (3 * S i)%nat with (S (S (S (3 * i)))) by lia.
        cbn. done.
      * intros (i & c0 & c1 & H0 & H1 & Hc). destruct i as [|i].
        { cbn in H0, H1. injection H0 as <-. injection H1 as <-. lia. }
        exists i, c0, c1.
        replace (3 * S i)%nat with (S (S (S (3 * i)))) in H0, H1 by lia.
        cbn in H0, H1. done.
    + split; [|done]. intros _. exists 0%nat, b0, b1. done.
Qed.

Lemma decode_hashes_length (n : nat) (body : list Z) :
  length (decode_hashes n body) = n.
Proof. revert body; induction n as [|n IH]; intros body; cbn; [done|]. by rewrite IH. Qed.

Lemma declared_size_tag (tag z : Z) (rest : list Z) :
  declared_size (tag :: rest) = Some z → tag = 0 ∨ tag = 1 ∨ tag = 2 ∨ tag = 3.
Proof.
  unfold declared_size. cbn [lookup list_lookup].
  destruct tag as [|[[q|q|]|[q|q|]|]|q]; try discriminate; intros _; lia.
Qed.

Lemma declared_size_sparse (rest : list Z) :
  declared_size (2 :: rest) = Some (Z.of_nat (length (2 :: rest))) →
  length (drop 5 (2 :: rest))
  = Nat.mul 3 (Z.to_nat (int32_t (decode_le (take 4 (drop 1 (2 :: rest)))))).
Proof.
  unfold declared_size, bytes_at. cbn [lookup list_lookup].
  destruct (decide (1 + 4 ≤ length ((2 :: rest)%Z))%nat) as [Hlen|]; [|discriminate].
  cbn [mbind option_bind]. intros [= Heq]. rewrite length_drop.
  change (drop 1 (2 :: rest)) with (drop 0 rest). cbn [length] in *. lia.
Qed.

(** Decoding fails exactly on the three causes of InvalidEncoding. *)
Lemma decode_None (slice : list Z) :
  decode slice = None ↔ invalid_encoding slice.
Proof.
  unfold decode, invalid_encoding.
  destruct slice as [|tag rest].
  { split; [|done]. intros _. left. intros tag Htag. discriminate. }
  cbn [lookup list_lookup].
  destruct (decide (declared_size (tag :: rest)
                    = Some (Z.of_nat (length (tag :: rest))))) as [Hd|Hd].
  - assert (Hknown : ¬ tag_unknown (tag :: rest)).
    { intros Hunk. apply (Hunk tag eq_refl).
      destruct (declared_size_tag _ _ _ Hd) as [-> | [-> | [-> | ->]]]; lia. }
    assert (Hmatch : ¬ length_mismatch (tag :: rest)).
    { intros (t & _ & _ & Hne). by apply Hne. }
    destruct (declared_size_tag _ _ _ Hd) as [-> | [-> | [-> | ->]]];
      cbn [Z.eqb Pos.eqb];
      try (split; [discriminate|];
           intros [?|[?|(Htag & _)]]; [done | done | discriminate]).
    pose proof (declared_size_sparse rest Hd) as Hlen.
    pose proof (decode_sparse_None _ (drop 5 (2 :: rest)) zero_registers Hlen) as Hsp.
    destruct (decode_sparse _ (drop 5 (2 :: rest)) zero_registers) as [regs|] eqn:Hdec;
      cbn [mbind option_bind].
    + split; [discriminate|]. intros [?|[?|(_ & _ & i & b0 & b1 & H0 & H1 & Hb)]];
        [done | done |].
      assert (Some regs = None) as Hnone; [|discriminate].
      apply Hsp. exists i, b0, b1. rewrite !lookup_drop.
      replace (5 + 3 * i + 1)%nat with (5 + (3 * i + 1))%nat in H1 by lia. done.
    + split; [|done]. intros _. right. right. split; [done|]. split; [done|].
      destruct (proj1 Hsp eq_refl) as (i & b0 & b1 & H0 & H1 & Hb).
      exists i, b0, b1. rewrite !lookup_drop in H0, H1.
      replace (5 + (3 * i + 1))%nat with (5 + 3 * i + 1)%nat in H1 by lia. done.
  - split; [|done]. intros _.
    destruct (decide (0 <= tag <= 3)) as [Hin|Hout].
    + right. left. exists tag. done.
    + left. intros t [= <-]. done.
Qed.

Lemma decode_fits (slice : list Z) (t : HllDataType) (content : list Z) :
  Forall is_byte slice → decode slice = Some (t, content) → fits t content.
Proof.
  intros Hbytes. unfold decode.
  destruct slice as [|tag rest]; [discriminate|]. cbn [lookup list_lookup].
  destruct (decide (declared_size (tag :: rest)
                    = Some (Z.of_nat (length (tag :: rest))))) as [Hd|Hd];
    [|discriminate].
  destruct (declared_size_tag _ _ _ Hd) as [-> | [-> | [-> | ->]]]; cbn [Z.eqb Pos.eqb].
  - intros [= <- <-]. done.
  - intros [= <- <-]. unfold fits. rewrite decode_hashes_length.
    change HLL_EXPLICIT_INT64_NUM_DOUBLE with 320.
    destruct rest as [|n rest']; cbn; [lia|].
    apply Forall_cons in Hbytes as [_ Hrest]. apply Forall_cons in Hrest as [Hn _].
    unfold is_byte in Hn. lia.
  - destruct (decode_sparse _ (drop 5 (2 :: rest)) zero_registers) as [regs|] eqn:Hdec;
      cbn [mbind option_bind]; [|discriminate].
    intros [= <- <-]. unfold fits. rewrite (decode_sparse_length _ _ _ _ Hdec).
    apply length_replicate.
  - intros [= <- <-]. unfold fits.
    unfold declared_size in Hd. cbn [lookup list_lookup] in Hd.
    assert (Hsz : 1 + HLL_REGISTERS_COUNT = Z.of_nat (length (3 :: rest)))
      by congruence.
    change HLL_REGISTERS_COUNT with 16384 in *. cbn [length] in Hsz.
    change (drop 0 rest) with rest. lia.
Qed.

Lemma write_array_run (a : ptr) (b content : list Z)
    (O : gmap oid HyperLogLog) (h : gmap ptr (list Z)) :
  h !! a = Some b → (length content ≤ length b)%nat →
  write_array (Some a) content (mkMem O h)
  = Some (tt, mkMem O (<[a := content ++ drop (length content) b]> h)).
Proof.
  intros Hb Hlen. unfold write_array. cbn. rewrite Hb. by rewrite decide_True by done.
Qed.

(** Loading decoded contents into an EMPTY object: the members and the
    heap afterwards. *)
Lemma load_payload_run this (t : HllDataType) (content uninit : list Z)
    (O : gmap oid HyperLogLog) (h : gmap ptr (list Z)) :
  fits t content →
  ∃ d h',
    load_payload this t content uninit (mkMem (<[this := empty_hll]> O) h)
    = Some (tt, mkMem (<[this := d]> O) h') ∧
    _type d = t ∧
    _explicit_data_num d = loaded_num t content ∧
    payload h' d = Some content ∧
    hll_wf h' d ∧
    (∀ a, owns d a → h !! a = None) ∧
    (∀ a, ¬ owns d a → h' !! a = h !! a).
Proof.
  intros Hfit. unfold load_payload, fits in *.
  destruct t.
  - subst content. exists empty_hll, h. repeat split; try done.
    intros a Ha. by destruct (owns_empty a).
  - run_bind. rewrite new_array_run. cbv beta iota.
    set (p := fresh (dom h)). set (b := resize _ 0 uninit).
    assert (Hb : length b = Z.to_nat HLL_EXPLICIT_INT64_NUM_DOUBLE) by apply length_resize.
    rewrite (write_array_run p b) by (rewrite ?lookup_insert_eq; (done || lia)).
    cbv beta iota. do 3 run_step. rewrite insert_insert_eq.
    eexists _, _. split; [reflexivity|]. split; [done|]. split; [done|].
    split; [|split; [|split]].
    + unfold payload. cbn. rewrite lookup_insert_eq. cbn. f_equal.
      rewrite Nat2Z.id. by apply take_app_length'.
    + unfold hll_wf. cbn.
      split; [change HLL_EXPLICIT_INT64_NUM_DOUBLE with 320 in *; lia|]. split; [done|].
      eexists p, _. split; [done|]. split; [apply lookup_insert_eq|].
      rewrite length_app, length_drop. lia.
    + intros a [Ha|Ha]; cbn in Ha; [|discriminate].
      injection Ha as <-. apply fresh_not_live.
    + intros a Ha. apply lookup_insert_ne. intros <-. apply Ha. by left.
  - run_bind. rewrite new_array_run. cbv beta iota.
    set (p := fresh (dom h)). set (b := resize _ 0 uninit).
    assert (Hb : length b = Z.to_nat HLL_REGISTERS_COUNT) by apply length_resize.
    rewrite (write_array_run p b) by (rewrite ?lookup_insert_eq; (done || lia)).
    cbv beta iota. do 2 run_step. rewrite insert_insert_eq.
    eexists _, _. split; [reflexivity|]. split; [done|]. split; [done|].
    split; [|split; [|split]].
    + unfold payload. cbn. rewrite lookup_insert_eq. cbn. f_equal.
      rewrite drop_ge by lia. apply app_nil_r.
    + unfold hll_wf. cbn. split; [done|]. split; [done|].
      eexists p, _. split; [done|]. split; [apply lookup_insert_eq|].
      rewrite length_app, length_drop. lia.
    + intros a [Ha|Ha]; cbn in Ha; [discriminate|].
      injection Ha as <-. apply fresh_not_live.
    + intros a Ha. apply lookup_insert_ne. intros <-. apply Ha. by right.
  - run_bind. rewrite new_array_run. cbv beta iota.
    set (p := fresh (dom h)). set (b := resize _ 0 uninit).
    assert (Hb : length b = Z.to_nat HLL_REGISTERS_COUNT) by apply length_resize.
    rewrite (write_array_run p b) by (rewrite ?lookup_insert_eq; (done || lia)).
    cbv beta iota. do 2 run_step. rewrite insert_insert_eq.
    eexists _, _. split; [reflexivity|]. split; [done|]. split; [done|].
    split; [|split; [|split]].
    + unfold payload. cbn. rewrite lookup_insert_eq. cbn. f_equal.
      rewrite drop_ge by lia. apply app_nil_r.
    + unfold hll_wf. cbn. split; [done|]. split; [done|].
      eexists p, _. split; [done|]. split; [apply lookup_insert_eq|].
      rewrite length_app, length_drop. lia.
    + intros a [Ha|Ha]; cbn in Ha; [discriminate|].
      injection Ha as <-. apply fresh_not_live.
    + intros a Ha. apply lookup_insert_ne. intros <-. apply Ha. by right.
Qed.

(** On a target that is not EMPTY [deserialize] has no outcome. *)
Lemma deserialize_unsupported (m : Mem) (this : oid) (s : HyperLogLog)
    (slice uninit : list Z) :
  objs m !! this = Some s → _type s ≠ HLL_DATA_EMPTY →
  deserialize this slice uninit m = None.
Proof.
  intros Hs Hne. unfold deserialize. run_bind. unfold rd. rewrite Hs.
  by destruct (_type s).
Qed.

(** C4, as amended.  On any byte buffer and an EMPTY target, the one
    target the function supports, [deserialize] fails exactly when the
    tag is unknown, the length differs from the declared size, or a
    SPARSE record carries an index of 16384 or more; a failure leaves the
    memory as it was; a success leaves a target whose members are those
    [decode] reads off the bytes: its kind, its count, its contents in an
    array that is new, the other pointer null, with every other object
    and array untouched and the representation invariant kept. *)
Theorem deserialize_contract (m : Mem) (this : oid) (s : HyperLogLog)
    (slice uninit : list Z) :
  Forall is_byte slice →
  mem_wf m →
  objs m !! this = Some s →
  _type s = HLL_DATA_EMPTY →
  ((∃ m', deserialize this slice uninit m = Some (false, m')) ↔
     invalid_encoding slice) ∧
  (invalid_encoding slice → deserialize this slice uninit m = Some (false, m)) ∧
  (¬ invalid_encoding slice →
     ∃ t content m' d,
       decode slice = Some (t, content) ∧
       deserialize this slice uninit m = Some (true, m') ∧
       objs m' = <[this := d]> (objs m) ∧
       _type d = t ∧
       _explicit_data_num d = loaded_num t content ∧
       payload (heap m') d = Some content ∧
       (∀ a, owns d a → heap m !! a = None) ∧
       (∀ a, ¬ owns d a → heap m' !! a = heap m !! a) ∧
       mem_wf m').
Proof.
  intros Hbytes Hm Hs Hempty.
  destruct m as [O h]. cbn [objs heap] in *.
  assert (Hse : s = empty_hll).
  { pose proof (proj1 Hm this s Hs) as Hwf. unfold hll_wf in Hwf.
    rewrite Hempty in Hwf. destruct Hwf as (Hn & He & Hr).
    destruct s; cbn in *. by subst. }
  subst s.
  assert (Hstate : mkMem O h = mkMem (<[this := empty_hll]> O) h)
    by (by rewrite insert_id).
  assert (Hfail : invalid_encoding slice →
                  deserialize this slice uninit (mkMem O h) = Some (false, mkMem O h)).
  { intros Hinv. apply decode_None in Hinv. rewrite Hstate at 1.
    unfold deserialize. run_bind. rewrite rd_this. cbn [_type empty_hll].
    rewrite Hinv. by rewrite <- Hstate. }
  assert (Hok : ¬ invalid_encoding slice →
     ∃ t content m' d,
       decode slice = Some (t, content) ∧
       deserialize this slice uninit (mkMem O h) = Some (true, m') ∧
       objs m' = <[this := d]> O ∧
       _type d = t ∧
       _explicit_data_num d = loaded_num t content ∧
       payload (heap m') d = Some content ∧
       (∀ a, owns d a → h !! a = None) ∧
       (∀ a, ¬ owns d a → heap m' !! a = h !! a) ∧
       mem_wf m').
  { intros Hvalid. destruct (decode slice) as [[t content]|] eqn:Hdec;
      [|by destruct Hvalid; apply decode_None].
    pose proof (decode_fits slice t content Hbytes Hdec) as Hfit.
    destruct (load_payload_run this t content uninit O h Hfit)
      as (d & h' & Hload & Htype & Hnum & Hpay & Hdwf & Hnew & Hframe).
    exists t, content, (mkMem (<[this := d]> O) h'), d.
    split; [done|]. split.
    { rewrite Hstate. unfold deserialize. run_bind. rewrite rd_this.
      cbn [_type empty_hll]. rewrite Hdec. run_bind. by rewrite Hload. }
    cbn [objs heap]. do 6 (split; [done|]).
    apply (mem_wf_replace1 O _ h h' this d); try done.
    - apply lookup_insert_eq.
    - intros o Ho. by apply lookup_insert_ne.
    - intros o x a Ho Hx Ha.
      assert (Hlive : is_Some (h !! a))
        by (apply (hll_wf_live h x a); [by apply (proj1 Hm o)|done]).
      assert (Hnd : ¬ owns d a).
      { intros Hd. rewrite (Hnew a Hd) in Hlive. by destruct Hlive. }
      split; [by apply Hframe|done]. }
  split; [|split; done].
  split.
  - intros [m' Hrun]. destruct (decode slice) as [[t content]|] eqn:Hdec.
    + assert (Hvalid : ¬ invalid_encoding slice)
        by (intros Hinv; apply decode_None in Hinv; congruence).
      destruct (Hok Hvalid) as (t' & c' & m'' & d & _ & Hrun' & _).
      rewrite Hrun' in Hrun. discriminate.
    + by apply decode_None.
  - intros Hinv. exists (mkMem O h). by apply Hfail.
Qed.

Example decode_sample_slice :
  decode sample_slice = Some (HLL_DATA_EXPLICIT, [sample_hash]).
Proof. vm_compute. reflexivity. Qed.

Lemma sample_slice_bytes : Forall is_byte sample_slice.
Proof. apply (bool_decide_unpack _). vm_compute. exact I. Qed.

Lemma sample_slice_valid : ¬ invalid_encoding sample_slice.
Proof. intros Hinv. apply decode_None in Hinv. by rewrite decode_sample_slice in Hinv. Qed.

(** C4 as stated fails on a prior state that is not EMPTY: the header
    supports an empty HLL only, and reading the well-formed
    [sample_slice] into the EXPLICIT sketch of [one_explicit] has no
    outcome, neither a failure nor a success. *)
Lemma deserialize_needs_empty_target :
  Forall is_byte sample_slice ∧
  ¬ invalid_encoding sample_slice ∧
  mem_wf one_explicit ∧
  objs one_explicit !! 0%nat = Some sample_explicit ∧
  ¬ ∃ r m', deserialize 0%nat sample_slice [] one_explicit = Some (r, m').
Proof.
  split; [apply sample_slice_bytes|]. split; [apply sample_slice_valid|].
  split; [apply one_explicit_wf|]. split; [vm_compute; reflexivity|].
  intros (r & m' & Hrun).
  rewrite (deserialize_unsupported one_explicit 0%nat sample_explicit) in Hrun;
    [discriminate | vm_compute; reflexivity | discriminate].
Qed.

(** C4 (amended) for [sample_slice] read into the EMPTY object of
    [two_sketches]. *)
Lemma deserialize_contract_witness :
  Forall is_byte sample_slice ∧
  mem_wf two_sketches ∧
  objs two_sketches !! 1%nat = Some empty_hll ∧
  _type empty_hll = HLL_DATA_EMPTY ∧
  ((∃ m', deserialize 1%nat sample_slice [] two_sketches = Some (false, m')) ↔
     invalid_encoding sample_slice) ∧
  (invalid_encoding sample_slice →
     deserialize 1%nat sample_slice [] two_sketches = Some (false, two_sketches)) ∧
  (¬ invalid_encoding sample_slice →
     ∃ t content m' d,
       decode sample_slice = Some (t, content) ∧
       deserialize 1%nat sample_slice [] two_sketches = Some (true, m') ∧
       objs m' = <[1%nat := d]> (objs two_sketches) ∧
       _type d = t ∧
       _explicit_data_num d = loaded_num t content ∧
       payload (heap m') d = Some content ∧
       (∀ a, owns d a → heap two_sketches !! a = None) ∧
       (∀ a, ¬ owns d a → heap m' !! a = heap two_sketches !! a) ∧
       mem_wf m').
Proof.
  assert (H2 : objs two_sketches !! 1%nat = Some empty_hll)
    by (vm_compute; reflexivity).
  assert (H3 : _type empty_hll = HLL_DATA_EMPTY) by reflexivity.
  split; [exact sample_slice_bytes|]. split; [exact two_sketches_wf|].
  split; [exact H2|]. split; [exact H3|].
  exact (deserialize_contract two_sketches 1%nat empty_hll sample_slice []
           sample_slice_bytes two_sketches_wf H2 H3).
Defined.

(** * Further properties *)

(** ** The explicit buffer under successive insertions *)

(** Both outcomes of an insertion, with the slots the call leaves alone. *)
Lemma explicit_data_insert_outcome (buf : list Z) (n : nat) (v : Z) :
  (n < length buf)%nat → Z.of_nat n < 2 ^ 31 →
  StronglySorted Z.lt (take n buf) →
  (v ∈ take n buf ∧
   _explicit_data_insert buf (Z.of_nat n) v = Some (false, buf, Z.of_nat n)) ∨
  ((v ∉ take n buf) ∧
   ∃ buf', _explicit_data_insert buf (Z.of_nat n) v = Some (true, buf', Z.of_nat (S n)) ∧
           length buf' = length buf ∧
           StronglySorted Z.lt (take (S n) buf') ∧
           take (S n) buf' ≡ₚ v :: take n buf ∧
           drop (S n) buf' = drop (S n) buf).
Proof.
  intros Hkl Hsmall Hsorted.
  destruct (explicit_data_scan_spec buf v n Hsorted ltac:(lia) (S n) (Z.of_nat n - 1))
    as [[Hin Hscan]|(Hnot & p & Hscan & Hp & Hsplit)]; [lia | lia | | |].
  { intros j x Hj Hjk _. lia. }
  - left. split; [done|]. unfold _explicit_data_insert.
    unfold int32_t. rewrite Z.mod_small by lia.
    replace (Z.of_nat n + 2 ^ 31 - 2 ^ 31) with (Z.of_nat n) by lia.
    rewrite Nat2Z.id, Hscan. done.
  - right. split; [done|].
    set (q := Z.to_nat (p + 1)).
    exists (take q buf ++ v :: take (n - q) (drop q buf) ++ drop (S n) buf).
    assert (Htake : take (S n)
                      (take q buf ++ v :: take (n - q) (drop q buf) ++ drop (S n) buf)
                    = take q (take n buf) ++ v :: drop q (take n buf))
      by (apply take_insert_gap; lia).
    assert (Hlow : ∀ x, x ∈ take q (take n buf) → x < v).
    { intros x Hx. apply elem_of_take in Hx as (j & Hj & Hjq).
      apply lookup_take_Some in Hj as [Hj Hjk].
      specialize (Hsplit j x Hjk Hj). rewrite decide_True in Hsplit by lia. done. }
    assert (Hhigh : ∀ x, x ∈ drop q (take n buf) → v < x).
    { intros x Hx. apply list_elem_of_lookup in Hx as [j Hj].
      rewrite lookup_drop in Hj. apply lookup_take_Some in Hj as [Hj Hjk].
      specialize (Hsplit (q + j)%nat x Hjk Hj). rewrite decide_False in Hsplit by lia. done. }
    split.
    { rewrite (explicit_data_insert_run buf n v p) by (done || lia).
      do 2 f_equal. lia. }
    split.
    { rewrite length_app, length_take. cbn [length].
      rewrite length_app, length_take, !length_drop. lia. }
    rewrite Htake. split.
    { rewrite <- (take_drop q (take n buf)) in Hsorted.
      apply StronglySorted_app in Hsorted as (Hcross & HA & HB).
      apply StronglySorted_app_2; [| done |].
      - intros x1 x2 H1 H2. apply elem_of_cons in H2 as [->|H2]; [by apply Hlow|].
        by apply Hcross.
      - apply StronglySorted_cons. split; [|done]. by apply Forall_forall. }
    split.
    { rewrite <- (take_drop q (take n buf)) at 3. symmetry. apply Permutation_middle. }
    change (take q buf ++ v :: take (n - q) (drop q buf) ++ drop (S n) buf)
      with (take q buf ++ (v :: take (n - q) (drop q buf)) ++ drop (S n) buf).
    rewrite app_assoc. apply drop_app_length'.
    rewrite length_app, length_take. cbn [length]. rewrite length_take, length_drop. lia.
Qed.

Lemma sorted_lt_same_elements (l1 l2 : list Z) :
  StronglySorted Z.lt l1 → StronglySorted Z.lt l2 →
  (∀ x, x ∈ l1 ↔ x ∈ l2) → l1 = l2.
Proof.
  intros H1 H2 Hel. apply (StronglySorted_unique_strong Z.lt); [|done|done|].
  - intros x1 x2 _ _ ? ?. lia.
  - apply NoDup_Permutation; [by apply StronglySorted_lt_NoDup..|done].
Qed.

Lemma drop_agree_le (a b : list Z) (k k' : nat) :
  drop k a = drop k b → (k ≤ k')%nat → drop k' a = drop k' b.
Proof.
  intros Heq Hle. replace k' with (k + (k' - k))%nat by lia.
  by rewrite <- !drop_drop, Heq.
Qed.

(** One insertion, whatever its outcome: flag, new count, contents and
    the slots at and beyond the new count. *)
Lemma explicit_data_insert_step (buf : list Z) (n : nat) (v : Z) :
  (n < length buf)%nat → Z.of_nat n < 2 ^ 31 →
  StronglySorted Z.lt (take n buf) →
  ∃ buf' n',
    _explicit_data_insert buf (Z.of_nat n) v
      = Some (bool_decide (v ∉ take n buf), buf', Z.of_nat n') ∧
    n' = (if bool_decide (v ∉ take n buf) then S n else n) ∧
    length buf' = length buf ∧
    StronglySorted Z.lt (take n' buf') ∧
    (∀ x, x ∈ take n' buf' ↔ x = v ∨ x ∈ take n buf) ∧
    drop n' buf' = drop n' buf.
Proof.
  intros Hn Hsmall Hsorted.
  destruct (explicit_data_insert_outcome buf n v Hn Hsmall Hsorted)
    as [[Hin Hrun]|(Hnot & buf' & Hrun & Hlen & Hss & Hperm & Hdrop)].
  - exists buf, n. rewrite bool_decide_eq_false_2 by (intros Hc; by apply Hc).
    split; [done|]. split; [done|]. split; [done|]. split; [done|].
    split; [|done]. intros x. split; [auto|]. by intros [->|?].
  - exists buf', (S n). rewrite bool_decide_eq_true_2 by done.
    split; [done|]. split; [done|]. split; [done|]. split; [done|].
    split; [|done]. intros x. rewrite Hperm. apply elem_of_cons.
Qed.

(** X1. Inserting one value twice in a row: the second call finds it,
    returns [false] and changes neither the array nor the count. *)
Theorem explicit_data_insert_again (buf : list Z) (n : nat) (v : Z) :
  (S n < length buf)%nat → Z.of_nat (length buf) < 2 ^ 31 →
  StronglySorted Z.lt (take n buf) →
  ∃ flag buf' n',
    _explicit_data_insert buf (Z.of_nat n) v = Some (flag, buf', n') ∧
    _explicit_data_insert buf' n' v = Some (false, buf', n').
Proof.
  intros Hn Hsmall Hsorted.
  destruct (explicit_data_insert_step buf n v ltac:(lia) ltac:(lia) Hsorted)
    as (buf' & n' & Hrun & Hn' & Hlen & Hss & Hel & _).
  exists (bool_decide (v ∉ take n buf)), buf', (Z.of_nat n').
  split; [done|].
  assert (Hle : (n' ≤ S n)%nat) by (destruct (bool_decide _); lia).
  destruct (explicit_data_insert_outcome buf' n' v ltac:(lia) ltac:(lia) Hss)
    as [[_ Hsecond]|[Hnot _]]; [done|].
  destruct Hnot. apply Hel. by left.
Qed.

(** The array and count after a run of insertions. *)
Lemma explicit_data_insert_all_spec (vs : list Z) (buf : list Z) (n : nat) :
  (n + length vs ≤ length buf)%nat → Z.of_nat (length buf) < 2 ^ 31 →
  StronglySorted Z.lt (take n buf) →
  ∃ buf' n',
    explicit_data_insert_all buf (Z.of_nat n) vs = Some (buf', Z.of_nat n') ∧
    (n ≤ n' ≤ n + length vs)%nat ∧
    length buf' = length buf ∧
    StronglySorted Z.lt (take n' buf') ∧
    (∀ x, x ∈ take n' buf' ↔ x ∈ take n buf ∨ x ∈ vs) ∧
    drop n' buf' = drop n' buf.
Proof.
  revert buf n; induction vs as [|v vs IH]; intros buf n Hcap Hsmall Hsorted.
  - exists buf, n. cbn. split; [done|]. split; [lia|]. split; [done|].
    split; [done|]. split; [|done]. intros x. split; [auto|].
    intros [?|Hx]; [done|]. by apply elem_of_nil in Hx.
  - cbn [length] in Hcap. cbn [explicit_data_insert_all].
    destruct (explicit_data_insert_step buf n v ltac:(lia) ltac:(lia) Hsorted)
      as (buf1 & n1 & Hrun & Hn1 & Hlen1 & Hss1 & Hel1 & Hdrop1).
    rewrite Hrun.
    assert (Hn1' : (n ≤ n1 ≤ S n)%nat) by (destruct (bool_decide _); lia).
    destruct (IH buf1 n1) as (buf' & n' & Hall & Hn' & Hlen & Hss & Hel & Hdrop);
      [lia | by rewrite Hlen1 | done |].
    exists buf', n'. split; [done|]. split; [cbn [length]; lia|].
    split; [congruence|]. split; [done|]. split.
    + intros x. rewrite Hel, Hel1, elem_of_cons. tauto.
    + rewrite Hdrop. apply (drop_agree_le _ _ n1); [done|lia].
Qed.

(** X2. A run of insertions into an ascending buffer with room for them
    keeps the buffer ascending, stores exactly the old hashes and the
    inserted values, and leaves a count equal to the number of distinct
    hashes; the slots from the count on are untouched. *)
Theorem explicit_data_insert_all_exact (vs : list Z) (buf : list Z) (n : nat) :
  (n + length vs ≤ length buf)%nat → Z.of_nat (length buf) < 2 ^ 31 →
  StronglySorted Z.lt (take n buf) →
  ∃ buf' n',
    explicit_data_insert_all buf (Z.of_nat n) vs = Some (buf', Z.of_nat n') ∧
    StronglySorted Z.lt (take n' buf') ∧
    (∀ x, x ∈ take n' buf' ↔ x ∈ take n buf ∨ x ∈ vs) ∧
    n' = size (list_to_set (take n buf) ∪ list_to_set vs : gset Z) ∧
    length buf' = length buf ∧
    drop n' buf' = drop n' buf.
Proof.
  intros Hcap Hsmall Hsorted.
  destruct (explicit_data_insert_all_spec vs buf n Hcap Hsmall Hsorted)
    as (buf' & n' & Hall & Hn' & Hlen & Hss & Hel & Hdrop).
  exists buf', n'. split; [done|]. split; [done|]. split; [done|].
  split; [|done].
  assert (Hset : (list_to_set (take n buf) ∪ list_to_set vs : gset Z)
                 = list_to_set (take n' buf')).
  { apply set_eq. intros x.
    rewrite elem_of_union, !elem_of_list_to_set, Hel. done. }
  rewrite Hset, size_list_to_set by (by apply StronglySorted_lt_NoDup).
  rewrite length_take. lia.
Qed.

(** X3. The outcome of a run of insertions does not depend on their
    order, nor on repetitions: two runs with the same set of values end
    with the same array and the same count. *)
Theorem explicit_data_insert_all_order (vs vs' : list Z) (buf : list Z) (n : nat) :
  (n + length vs ≤ length buf)%nat → (n + length vs' ≤ length buf)%nat →
  Z.of_nat (length buf) < 2 ^ 31 →
  StronglySorted Z.lt (take n buf) →
  (∀ x, x ∈ vs ↔ x ∈ vs') →
  is_Some (explicit_data_insert_all buf (Z.of_nat n) vs) ∧
  explicit_data_insert_all buf (Z.of_nat n) vs
  = explicit_data_insert_all buf (Z.of_nat n) vs'.
Proof.
  intros Hcap Hcap' Hsmall Hsorted Hsame.
  destruct (explicit_data_insert_all_spec vs buf n Hcap Hsmall Hsorted)
    as (b1 & n1 & Hall1 & Hn1 & Hlen1 & Hss1 & Hel1 & Hdrop1).
  destruct (explicit_data_insert_all_spec vs' buf n Hcap' Hsmall Hsorted)
    as (b2 & n2 & Hall2 & Hn2 & Hlen2 & Hss2 & Hel2 & Hdrop2).
  split; [by rewrite Hall1|]. rewrite Hall1, Hall2.
  assert (Htake : take n1 b1 = take n2 b2).
  { apply sorted_lt_same_elements; [done..|]. intros x. rewrite Hel1, Hel2, Hsame. done. }
  assert (Hn : n1 = n2).
  { apply (f_equal length) in Htake. rewrite !length_take in Htake. lia. }
  subst n2. do 2 f_equal.
  rewrite <- (take_drop n1 b1), <- (take_drop n1 b2). congruence.
Qed.

(** X4. With the array full (the count equals its capacity) there is no
    room for the shift: inserting a value that is not stored writes past
    the array and has no defined result, while inserting a stored value
    still returns [false]. *)
Theorem explicit_data_insert_full (buf : list Z) (v : Z) :
  Z.of_nat (length buf) < 2 ^ 31 →
  StronglySorted Z.lt buf →
  _explicit_data_insert buf (Z.of_nat (length buf)) v
  = if bool_decide (v ∈ buf) then Some (false, buf, Z.of_nat (length buf)) else None.
Proof.
  intros Hsmall Hsorted. set (n := length buf).
  assert (Htake : take n buf = buf) by (by apply take_ge).
  assert (Hsorted' : StronglySorted Z.lt (take n buf)) by (by rewrite Htake).
  unfold _explicit_data_insert.
  assert (Hi : int32_t (Z.of_nat n) = Z.of_nat n).
  { unfold int32_t. rewrite Z.mod_small by lia. lia. }
  rewrite Hi, Nat2Z.id.
  destruct (decide (n = 0%nat)) as [Hz|Hnz].
  - assert (buf = []) as -> by (by apply nil_length_inv).
    cbn. rewrite bool_decide_eq_false_2; [done|]. apply not_elem_of_nil.
  - destruct (explicit_data_scan_spec buf v n Hsorted' ltac:(lia) (S n) (Z.of_nat n - 1))
      as [[Hin Hscan]|(Hnot & p & Hscan & Hp & _)]; [lia | lia | | |].
    { intros j x Hj Hjk _. lia. }
    + rewrite Hscan. rewrite Htake in Hin. by rewrite bool_decide_eq_true_2.
    + rewrite Hscan. rewrite Htake in Hnot. rewrite bool_decide_eq_false_2 by done.
      cbv zeta.
      assert (Hbytes : uint64_t (uint32_t (Z.of_nat n - (p + 1)) * 8)
                       = (Z.of_nat n - (p + 1)) * 8).
      { unfold uint64_t, uint32_t, wrap. rewrite (Z.mod_small (_ - _)) by lia.
        rewrite Z.mod_small by lia. lia. }
      rewrite Hbytes.
      destruct (Z.eqb_spec ((Z.of_nat n - (p + 1)) * 8) 0) as [Hq|Hq].
      * destruct (Z.ltb_spec (p + 1) (Z.of_nat (length buf))); [lia|].
        by rewrite andb_false_r.
      * unfold memmove. rewrite Z.div_mul by lia.
        destruct (Z.leb_spec (p + 1 + 1 + (Z.of_nat n - (p + 1))) (Z.of_nat (length buf)));
          [lia|]. by rewrite andb_false_r.
Qed.

(** ** The register array under successive updates and merges *)

Lemma update_registers_insert (regs : list Z) (h r : Z) :
  is_uint64 h → regs !! register_index h = Some r →
  _update_registers regs h
  = Some (<[register_index h := Z.max r (register_rank h)]> regs).
Proof.
  intros Hh Hr. rewrite update_registers_unfold by done.
  fold (register_index h). by rewrite Hr.
Qed.

Lemma register_index_bound (h : Z) :
  (register_index h < Z.to_nat HLL_REGISTERS_COUNT)%nat.
Proof.
  unfold register_index. change HLL_REGISTERS_COUNT with 16384.
  pose proof (Z.mod_pos_bound h 16384 ltac:(lia)). lia.
Qed.

Lemma register_rank_range (h : Z) : 1 <= register_rank h <= 51.
Proof.
  unfold register_rank. pose proof (ctzl_guarded_suffix h) as Hc.
  change HLL_ZERO_COUNT_BITS with 50 in Hc. lia.
Qed.

Lemma register_after_cons (j : nat) (r h : Z) (hs : list Z) :
  register_after j r (h :: hs)
  = register_after j (if decide (register_index h = j)
                      then Z.max r (register_rank h) else r) hs.
Proof. done. Qed.

(** Every register after a run of updates, read off the hashes. *)
Lemma update_registers_all_lookup (hs : list Z) (regs : list Z) :
  length regs = Z.to_nat HLL_REGISTERS_COUNT → Forall is_uint64 hs →
  ∃ res, update_registers_all regs hs = Some res ∧
         length res = Z.to_nat HLL_REGISTERS_COUNT ∧
         ∀ j, res !! j = (λ r, register_after j r hs) <$> regs !! j.
Proof.
  revert regs; induction hs as [|h hs IH]; intros regs Hlen Hhs.
  - exists regs. split; [done|]. split; [done|]. intros j. cbn.
    by destruct (regs !! j).
  - apply Forall_cons in Hhs as [Hh Hhs]. cbn [update_registers_all].
    destruct (lookup_lt_is_Some_2 regs (register_index h)) as [r Hr].
    { rewrite Hlen. apply register_index_bound. }
    rewrite (update_registers_insert regs h r Hh Hr).
    destruct (IH (<[register_index h := Z.max r (register_rank h)]> regs))
      as (res & Hrun & Hres & Hlk); [by rewrite length_insert | done |].
    exists res. split; [done|]. split; [done|]. intros j. rewrite Hlk.
    destruct (decide (register_index h = j)) as [<-|Hne].
    + rewrite list_lookup_insert_eq by (rewrite Hlen; apply register_index_bound).
      rewrite Hr. cbn [fmap option_fmap option_map]. f_equal.
      rewrite register_after_cons. by rewrite decide_True.
    + rewrite list_lookup_insert_ne by done. destruct (regs !! j) as [x|]; [|done].
      cbn [fmap option_fmap option_map]. f_equal.
      rewrite register_after_cons. by rewrite decide_False.
Qed.

Lemma register_after_bounds (j : nat) (hs : list Z) (r : Z) :
  r <= register_after j r hs ∧
  (∀ h, h ∈ hs → register_index h = j → register_rank h <= register_after j r hs) ∧
  (register_after j r hs = r ∨
   ∃ h, h ∈ hs ∧ register_index h = j ∧ register_after j r hs = register_rank h).
Proof.
  revert r; induction hs as [|h hs IH]; intros r.
  - cbn. split; [lia|]. split; [|by left]. intros h Hh. by apply elem_of_nil in Hh.
  - rewrite register_after_cons.
    destruct (decide (register_index h = j)) as [Hj|Hj].
    + destruct (IH (Z.max r (register_rank h))) as (Hle & Hall & Hatt).
      split; [lia|]. split.
      * intros h' Hh' Hj'. apply elem_of_cons in Hh' as [->|Hh']; [lia|]. by apply Hall.
      * destruct Hatt as [Heq|(h' & Hh' & Hj' & Heq)].
        -- destruct (Z.max_spec r (register_rank h)) as [[_ Hm]|[_ Hm]].
           ++ right. exists h. split; [by left|]. split; [done|]. lia.
           ++ left. lia.
        -- right. exists h'. split; [by right|]. done.
    + destruct (IH r) as (Hle & Hall & Hatt).
      split; [done|]. split.
      * intros h' Hh' Hj'. apply elem_of_cons in Hh' as [->|Hh']; [done|]. by apply Hall.
      * destruct Hatt as [Heq|(h' & Hh' & Hj' & Heq)]; [by left|].
        right. exists h'. split; [by right|]. done.
Qed.

Lemma register_after_same_set (j : nat) (hs hs' : list Z) (r : Z) :
  (∀ h, h ∈ hs ↔ h ∈ hs') → register_after j r hs = register_after j r hs'.
Proof.
  intros Hsame.
  destruct (register_after_bounds j hs r) as (H1 & H2 & H3).
  destruct (register_after_bounds j hs' r) as (H1' & H2' & H3').
  apply Z.le_antisymm.
  - destruct H3 as [->|(h & Hh & Hj & ->)]; [done|]. apply H2'; [by apply Hsame|done].
  - destruct H3' as [->|(h & Hh & Hj & ->)]; [done|]. apply H2; [by apply Hsame|done].
Qed.

Lemma register_after_max (j : nat) (hs : list Z) (r s : Z) :
  register_after j (Z.max r s) hs = Z.max r (register_after j s hs).
Proof.
  revert s; induction hs as [|h hs IH]; intros s; [done|].
  rewrite !register_after_cons.
  destruct (decide (register_index h = j)); [|apply IH].
  rewrite <- Z.max_assoc. apply IH.
Qed.

Lemma register_after_app (j : nat) (xs ys : list Z) (r : Z) :
  register_after j r (xs ++ ys) = register_after j (register_after j r xs) ys.
Proof. unfold register_after. apply foldl_app. Qed.

(** X5. The register array after a run of updates depends only on the
    set of hashes folded in: order and repetition do not matter. *)
Theorem update_registers_all_order (hs hs' : list Z) (regs : list Z) :
  length regs = Z.to_nat HLL_REGISTERS_COUNT →
  Forall is_uint64 hs → Forall is_uint64 hs' →
  (∀ h, h ∈ hs ↔ h ∈ hs') →
  is_Some (update_registers_all regs hs) ∧
  update_registers_all regs hs = update_registers_all regs hs'.
Proof.
  intros Hlen Hhs Hhs' Hsame.
  destruct (update_registers_all_lookup hs regs Hlen Hhs) as (r1 & Hr1 & Hl1 & Hk1).
  destruct (update_registers_all_lookup hs' regs Hlen Hhs') as (r2 & Hr2 & Hl2 & Hk2).
  split; [by rewrite Hr1|]. rewrite Hr1, Hr2. f_equal.
  apply list_eq. intros j. rewrite Hk1, Hk2.
  destruct (regs !! j) as [r|]; [|done]. cbn. f_equal.
  by apply register_after_same_set.
Qed.

(** X6. Merging the arrays built from two runs of hashes gives the array
    built from both runs together: for register arrays, merge is the
    union of the hash streams. *)
Theorem merge_registers_union (xs ys : list Z) (a b : list Z) :
  length a = Z.to_nat HLL_REGISTERS_COUNT →
  length b = Z.to_nat HLL_REGISTERS_COUNT →
  Forall is_uint64 xs → Forall is_uint64 ys →
  ∃ ra rb ab,
    update_registers_all a xs = Some ra ∧
    update_registers_all b ys = Some rb ∧
    _merge_registers a b = Some ab ∧
    _merge_registers ra rb = update_registers_all ab (xs ++ ys).
Proof.
  intros Ha Hb Hxs Hys.
  destruct (update_registers_all_lookup xs a Ha Hxs) as (ra & Hra & Hla & Hka).
  destruct (update_registers_all_lookup ys b Hb Hys) as (rb & Hrb & Hlb & Hkb).
  assert (Hab : length (zip_with Z.max a b) = Z.to_nat HLL_REGISTERS_COUNT)
    by (rewrite zip_max_length; congruence).
  destruct (update_registers_all_lookup (xs ++ ys) (zip_with Z.max a b) Hab)
    as (rab & Hrab & Hlab & Hkab); [by apply Forall_app|].
  exists ra, rb, (zip_with Z.max a b).
  split; [done|]. split; [done|]. split; [by apply merge_registers_zip|].
  rewrite merge_registers_zip by done. rewrite Hrab. f_equal.
  apply list_eq. intros j. rewrite Hkab, !lookup_zip_with, Hka, Hkb.
  destruct (a !! j) as [x|]; [|done]. destruct (b !! j) as [y|]; [|done]. cbn.
  f_equal. rewrite register_after_app.
  rewrite (Z.max_comm x y), register_after_max.
  rewrite (Z.max_comm y), register_after_max. done.
Qed.

(** X7. Registers that start within [0, 51] stay there under updates
    and under merges, so the byte stored in a register is never cut by
    the conversion to [uint8_t]. *)
Theorem registers_stay_in_range (hs : list Z) (a b : list Z) :
  length a = Z.to_nat HLL_REGISTERS_COUNT →
  length b = Z.to_nat HLL_REGISTERS_COUNT →
  Forall is_uint64 hs →
  Forall (λ r, 0 <= r <= 51) a → Forall (λ r, 0 <= r <= 51) b →
  (∃ res, update_registers_all a hs = Some res ∧ Forall (λ r, 0 <= r <= 51) res) ∧
  (∃ ab, _merge_registers a b = Some ab ∧ Forall (λ r, 0 <= r <= 51) ab).
Proof.
  intros Ha Hb Hhs Hra Hrb. split.
  - destruct (update_registers_all_lookup hs a Ha Hhs) as (res & Hres & Hl & Hk).
    exists res. split; [done|]. apply Forall_lookup. intros j y Hy.
    rewrite Hk in Hy. destruct (a !! j) as [r|] eqn:Hr; [|done].
    cbn in Hy. injection Hy as <-.
    pose proof (Forall_lookup_1 _ _ _ _ Hra Hr) as Hrange. cbn in Hrange.
    destruct (register_after_bounds j hs r) as (Hle & _ & [->|(h & _ & _ & ->)]);
      [lia|]. pose proof (register_rank_range h). lia.
  - exists (zip_with Z.max a b). split; [by apply merge_registers_zip|].
    apply Forall_lookup. intros j y Hy. rewrite lookup_zip_with in Hy.
    destruct (a !! j) as [x|] eqn:Hx; [|done].
    destruct (b !! j) as [z|] eqn:Hz; [|done]. cbn in Hy. injection Hy as <-.
    pose proof (Forall_lookup_1 _ _ _ _ Hra Hx) as H1.
    pose proof (Forall_lookup_1 _ _ _ _ Hrb Hz) as H2. cbn in H1, H2. lia.
Qed.

(** ** Construction followed by destruction *)

Lemma end_of_storage_run this (s : HyperLogLog)
    (O : gmap oid HyperLogLog) (h : gmap ptr (list Z)) :
  end_of_storage this (mkMem (<[this := s]> O) h)
  = Some (tt, mkMem (delete this O) h).
Proof.
  unfold end_of_storage. cbn. by rewrite lookup_insert_eq, delete_insert_eq.
Qed.

Lemma HyperLogLog_dtor_run this (s : HyperLogLog)
    (O : gmap oid HyperLogLog) (h : gmap ptr (list Z)) :
  releasable h s →
  HyperLogLog_dtor this (mkMem (<[this := s]> O) h)
  = Some (tt, mkMem (delete this O)
                (released (_explicit_data s) (released (_registers s) h))).
Proof.
  intros Hrel. unfold HyperLogLog_dtor. run_bind.
  rewrite (clear_run this s O h Hrel). cbv beta iota.
  apply end_of_storage_run.
Qed.

Lemma HyperLogLog_hash_run this (hash_value : Z) (uninit : list Z)
    (O : gmap oid HyperLogLog) (h : gmap ptr (list Z)) :
  O !! this = None →
  HyperLogLog_hash this hash_value uninit (mkMem O h)
  = Some (tt, mkMem (<[this := mkHLL HLL_DATA_EXPLICIT 1 (Some (fresh (dom h))) None]> O)
                (<[fresh (dom h) :=
                     <[0%nat := hash_value]>
                       (resize (Z.to_nat HLL_EXPLICIT_INT64_NUM_DOUBLE) 0 uninit)]> h)).
Proof.
  intros Hfresh. unfold HyperLogLog_hash. run_bind.
  rewrite construct_run by done. cbv beta iota.
  run_step. rewrite new_array_run. cbv beta iota. do 2 run_step.
  cbn [empty_hll with_type with_explicit_data _explicit_data].
  set (b := resize (Z.to_nat HLL_EXPLICIT_INT64_NUM_DOUBLE) 0 uninit).
  assert (Hb : length b = Z.to_nat HLL_EXPLICIT_INT64_NUM_DOUBLE) by apply length_resize.
  change HLL_EXPLICIT_INT64_NUM_DOUBLE with 320 in *.
  rewrite (store_run (fresh (dom h)) b) by (rewrite ?lookup_insert_eq; (done || lia)).
  cbv beta iota. run_step. by rewrite insert_insert_eq.
Qed.

(** X8. Building a sketch from a hash and destroying it gives back the
    memory exactly as it was: the array of the constructor is released by
    the destructor and nothing else is touched. *)
Theorem hash_construct_destroy (m : Mem) (this : oid) (hash_value : Z)
    (uninit : list Z) :
  objs m !! this = None →
  (HyperLogLog_hash this hash_value uninit ≫= λ _, HyperLogLog_dtor this) m
  = Some (tt, m).
Proof.
  intros Hfresh. destruct m as [O h]. cbn [objs] in Hfresh. run_bind.
  rewrite HyperLogLog_hash_run by done. cbv beta iota.
  rewrite HyperLogLog_dtor_run.
  - cbn [_explicit_data _registers released].
    rewrite delete_insert_eq, !delete_id by (done || apply fresh_not_live). done.
  - split.
    + intros a [[= <-]|?]; [|done]. rewrite lookup_insert_eq. by eexists.
    + done.
Qed.

(** The copy [switch] once more, with the heap it leaves: releasing the
    new array gives back the heap the copy started from. *)
Lemma copy_payload_run_exact this other uninit (t0 : HllDataType) (s : HyperLogLog)
    (O : gmap oid HyperLogLog) (h : gmap ptr (list Z)) :
  this ≠ other → hll_wf h s →
  ∃ d' h',
    copy_payload this other uninit
      (mkMem (<[this := mkHLL t0 0 None None]> (<[other := s]> O)) h)
    = Some (tt, mkMem (<[this := d']> (<[other := s]> O)) h') ∧
    _type d' = _type s ∧
    hll_wf h' d' ∧
    payload h' d' = payload h s ∧
    (∀ a, owns d' a → h !! a = None) ∧
    released (_explicit_data d') (released (_registers d') h') = h.
Proof.
  intros Hne Hwf. destruct s as [t n e r]. unfold hll_wf in Hwf. cbn in Hwf.
  unfold copy_payload. run_bind. do 2 run_step. cbn [_type with_type].
  assert (Hp : h !! fresh (dom h) = None) by apply fresh_not_live.
  destruct t; cbv beta iota.
  - destruct Hwf as (-> & -> & ->).
    exists (mkHLL HLL_DATA_EMPTY 0 None None), h.
    split; [done|]. split; [done|]. split; [done|]. split; [done|].
    split; [intros a [?|?]; done | done].
  - destruct Hwf as (Hn & -> & a & b & -> & Hb & Hlen).
    change HLL_EXPLICIT_INT64_NUM_DOUBLE with 320 in *.
    do 2 run_step. rewrite new_array_run. cbv beta iota.
    set (p := fresh (dom h)) in *.
    assert (Hpa : p ≠ a) by congruence.
    do 4 run_step. cbn [_explicit_data _explicit_data_num with_explicit_data
                        with_explicit_data_num].
    rewrite (memcpy_run p a (resize (Z.to_nat 320) 0 uninit) b);
      [ | done | by rewrite lookup_insert_eq | by rewrite lookup_insert_ne
        | rewrite length_resize; lia | lia ].
    rewrite insert_insert_eq.
    eexists _, _. split; [reflexivity|]. split; [done|].
    split.
    { unfold hll_wf. cbn. split; [done|]. split; [done|].
      eexists _, _. split; [done|]. split; [apply lookup_insert_eq|].
      rewrite length_app, length_take, length_drop, length_resize.
      change HLL_EXPLICIT_INT64_NUM_DOUBLE with 320. lia. }
    split.
    { unfold payload. cbn. rewrite lookup_insert_eq, Hb. cbn. f_equal.
      apply take_app_length'. rewrite length_take. lia. }
    split; [intros x [[= <-]|?]; done|].
    cbn [_explicit_data _registers released with_explicit_data
         with_explicit_data_num with_type with_registers].
    by rewrite delete_insert_eq, delete_id.
  - destruct Hwf as (-> & -> & a & b & -> & Hb & Hlen).
    change HLL_REGISTERS_COUNT with 16384 in *.
    rewrite new_array_run. cbv beta iota.
    set (p := fresh (dom h)) in *.
    assert (Hpa : p ≠ a) by congruence.
    do 3 run_step. cbn [_registers with_registers].
    rewrite (memcpy_run p a (resize (Z.to_nat 16384) 0 uninit) b);
      [ | done | by rewrite lookup_insert_eq | by rewrite lookup_insert_ne
        | rewrite length_resize; lia | lia ].
    rewrite insert_insert_eq.
    assert (Hcopy : take (Z.to_nat 16384) b
                    ++ drop (Z.to_nat 16384) (resize (Z.to_nat 16384) 0 uninit) = b).
    { rewrite take_ge by lia. rewrite drop_ge by (rewrite length_resize; lia).
      apply app_nil_r. }
    rewrite Hcopy.
    eexists _, _. split; [reflexivity|]. split; [done|].
    split.
    { unfold hll_wf. cbn. split; [done|]. split; [done|].
      eexists _, _. split; [done|]. split; [apply lookup_insert_eq | exact Hlen]. }
    split; [unfold payload; cbn; by rewrite lookup_insert_eq, Hb|].
    split; [intros x [?|[= <-]]; done|].
    cbn [_explicit_data _registers released with_explicit_data
         with_explicit_data_num with_type with_registers].
    by rewrite delete_insert_eq, delete_id.
  - destruct Hwf as (-> & -> & a & b & -> & Hb & Hlen).
    change HLL_REGISTERS_COUNT with 16384 in *.
    rewrite new_array_run. cbv beta iota.
    set (p := fresh (dom h)) in *.
    assert (Hpa : p ≠ a) by congruence.
    do 3 run_step. cbn [_registers with_registers].
    rewrite (memcpy_run p a (resize (Z.to_nat 16384) 0 uninit) b);
      [ | done | by rewrite lookup_insert_eq | by rewrite lookup_insert_ne
        | rewrite length_resize; lia | lia ].
    rewrite insert_insert_eq.
    assert (Hcopy : take (Z.to_nat 16384) b
                    ++ drop (Z.to_nat 16384) (resize (Z.to_nat 16384) 0 uninit) = b).
    { rewrite take_ge by lia. rewrite drop_ge by (rewrite length_resize; lia).
      apply app_nil_r. }
    rewrite Hcopy.
    eexists _, _. split; [reflexivity|]. split; [done|].
    split.
    { unfold hll_wf. cbn. split; [done|]. split; [done|].
      eexists _, _. split; [done|]. split; [apply lookup_insert_eq | exact Hlen]. }
    split; [unfold payload; cbn; by rewrite lookup_insert_eq, Hb|].
    split; [intros x [?|[= <-]]; done|].
    cbn [_explicit_data _registers released with_explicit_data
         with_explicit_data_num with_type with_registers].
    by rewrite delete_insert_eq, delete_id.
Qed.

(** X9. Copy-constructing a sketch and destroying the copy gives back
    the memory exactly as it was: the copy owns an array of its own, and
    its destruction frees that array and leaves the source alone. *)
Theorem copy_construct_destroy (m : Mem) (this other : oid) (s : HyperLogLog)
    (uninit : list Z) :
  mem_wf m →
  objs m !! other = Some s →
  objs m !! this = None →
  (HyperLogLog_copy this other uninit ≫= λ _, HyperLogLog_dtor this) m
  = Some (tt, m).
Proof.
  intros [Hwf _] Hs Hfresh. destruct m as [O h]. cbn [objs heap] in *.
  assert (Hne : this ≠ other) by congruence.
  destruct (copy_payload_run_exact this other uninit HLL_DATA_EMPTY s O h Hne
              (Hwf other s Hs))
    as (d' & h' & Hrun & _ & Hdwf & _ & _ & Hback).
  unfold HyperLogLog_copy. run_bind.
  rewrite construct_run by done. cbv beta iota.
  replace (<[this := empty_hll]> O) with (<[this := empty_hll]> (<[other := s]> O))
    by (by rewrite (insert_id O other s Hs)).
  unfold empty_hll at 1. rewrite Hrun. cbv beta iota.
  rewrite HyperLogLog_dtor_run by (by apply hll_wf_releasable).
  rewrite Hback, (insert_id O other s Hs), delete_id by done. done.
Qed.

(** X10. Move-constructing a sketch and destroying the moved-from
    source relocates the sketch: the new object has the members of the
    old one, the payload array keeps its address and contents, and
    nothing is freed. *)
Theorem move_construct_destroy_source (m : Mem) (this other : oid)
    (s : HyperLogLog) :
  mem_wf m →
  objs m !! other = Some s →
  objs m !! this = None →
  (HyperLogLog_move this other ≫= λ _, HyperLogLog_dtor other) m
  = Some (tt, mkMem (<[this := s]> (delete other (objs m))) (heap m)).
Proof.
  intros [Hwf _] Hs Hfresh. destruct m as [O h]. cbn [objs heap] in *.
  assert (Hne : this ≠ other) by congruence.
  unfold HyperLogLog_move. run_bind.
  rewrite construct_run by done. cbv beta iota.
  replace (<[this := empty_hll]> O) with (<[this := empty_hll]> (<[other := s]> O))
    by (by rewrite (insert_id O other s Hs)).
  unfold empty_hll at 1.
  rewrite (move_payload_wf this other _ s _ h h) by (done || by apply (Hwf other)).
  cbv beta iota.
  rewrite (insert_insert_ne _ this other) by done.
  rewrite HyperLogLog_dtor_run.
  - cbn [empty_hll _explicit_data _registers released].
    by rewrite delete_insert_ne by done.
  - split; [intros a Ha; by destruct (owns_empty a) | done].
Qed.

(** ** The life cycle keeps the heap tidy *)

Lemma released_live (d : HyperLogLog) (h : gmap ptr (list Z)) (a : ptr) :
  is_Some (released (_explicit_data d) (released (_registers d) h) !! a) →
  is_Some (h !! a) ∧ ¬ owns d a.
Proof.
  unfold owns. intros Hlive.
  destruct (_explicit_data d) as [e|], (_registers d) as [r|]; cbn in Hlive.
  - destruct (decide (e = a)) as [->|He]; [by rewrite lookup_delete_eq in Hlive; destruct Hlive|].
    rewrite lookup_delete_ne in Hlive by done.
    destruct (decide (r = a)) as [->|Hr]; [by rewrite lookup_delete_eq in Hlive; destruct Hlive|].
    rewrite lookup_delete_ne in Hlive by done. split; [done|]. intros [[= ?]|[= ?]]; done.
  - destruct (decide (e = a)) as [->|He]; [by rewrite lookup_delete_eq in Hlive; destruct Hlive|].
    rewrite lookup_delete_ne in Hlive by done. split; [done|]. intros [[= ?]|?]; done.
  - destruct (decide (r = a)) as [->|Hr]; [by rewrite lookup_delete_eq in Hlive; destruct Hlive|].
    rewrite lookup_delete_ne in Hlive by done. split; [done|]. intros [?|[= ?]]; done.
  - split; [done|]. intros [?|?]; done.
Qed.

Lemma no_garbage_step2 (O O' : gmap oid HyperLogLog) (h h' : gmap ptr (list Z))
    (this other : oid) (d' s' : HyperLogLog) :
  no_garbage (mkMem O h) →
  O' !! this = Some d' → O' !! other = Some s' →
  (∀ o, o ≠ this → o ≠ other → O' !! o = O !! o) →
  (∀ a, is_Some (h' !! a) →
     owns d' a ∨ owns s' a ∨
     (is_Some (h !! a) ∧ (∀ x, O !! this = Some x → ¬ owns x a) ∧
      (∀ x, O !! other = Some x → ¬ owns x a))) →
  no_garbage (mkMem O' h').
Proof.
  intros Hng Hthis Hother Hrest Hlive a Ha. cbn in *.
  destruct (Hlive a Ha) as [Hd|[Hs|(Hold & Hnd & Hns)]].
  - by exists this, d'.
  - by exists other, s'.
  - destruct (Hng a Hold) as (o & x & Hx & Hown).
    exists o, x. split; [|done]. rewrite Hrest; [done| |].
    + intros ->. by apply (Hnd x).
    + intros ->. by apply (Hns x).
Qed.

Lemma no_garbage_step1 (O O' : gmap oid HyperLogLog) (h h' : gmap ptr (list Z))
    (this : oid) (d' : HyperLogLog) :
  no_garbage (mkMem O h) →
  O' !! this = Some d' →
  (∀ o, o ≠ this → O' !! o = O !! o) →
  (∀ a, is_Some (h' !! a) →
     owns d' a ∨ (is_Some (h !! a) ∧ ∀ x, O !! this = Some x → ¬ owns x a)) →
  no_garbage (mkMem O' h').
Proof.
  intros Hng Hthis Hrest Hlive a Ha. cbn in *.
  destruct (Hlive a Ha) as [Hd|(Hold & Hnd)].
  - by exists this, d'.
  - destruct (Hng a Hold) as (o & x & Hx & Hown).
    exists o, x. split; [|done]. rewrite Hrest; [done|].
    intros ->. by apply (Hnd x).
Qed.

(** The memory after a move: the destination has the members of the
    source, the source is empty. *)
Lemma moved_state_tidy (O : gmap oid HyperLogLog) (h h' : gmap ptr (list Z))
    (this other : oid) (s : HyperLogLog) :
  tidy (mkMem O h) → this ≠ other → O !! other = Some s →
  (∀ o x a, o ≠ this → O !! o = Some x → owns x a → h' !! a = h !! a) →
  (∀ a, is_Some (h' !! a) →
     is_Some (h !! a) ∧ ∀ x, O !! this = Some x → ¬ owns x a) →
  tidy (mkMem (<[this := s]> (<[other := empty_hll]> O)) h').
Proof.
  intros [Hm Hng] Hne Hs Hkeep Hlive. pose proof Hm as [Hwf Huniq].
  cbn [objs heap] in *. split.
  - apply (mem_wf_replace2 O _ h h' this other s empty_hll); try done.
    + by rewrite lookup_insert_eq.
    + by rewrite lookup_insert_ne, lookup_insert_eq.
    + intros o H1 H2. by rewrite !lookup_insert_ne.
    + apply (hll_wf_frame h); [by apply (Hwf other)|].
      intros a Ha. by apply (Hkeep other s a).
    + intros a _. apply owns_empty.
    + intros o x a H1 H2 Hx Ha. split; [by apply (Hkeep o x a)|].
      split; [|apply owns_empty].
      intros Hsa. apply H2. by apply (Huniq o other x s a).
  - apply (no_garbage_step2 O _ h h' this other s empty_hll); try done.
    + by rewrite lookup_insert_eq.
    + by rewrite lookup_insert_ne, lookup_insert_eq.
    + intros o H1 H2. by rewrite !lookup_insert_ne.
    + intros a Ha. destruct (Hlive a Ha) as [Hold Hnd].
      destruct (decide (owns s a)) as [?|Hns]; [by left|].
      right. right. split; [done|]. split; [done|]. intros x Hx. congruence.
Qed.

(** The memory after a copy into [this]. *)
Lemma copied_state_tidy (O : gmap oid HyperLogLog) (h : gmap ptr (list Z))
    (this other : oid) (d0 s : HyperLogLog) (t0 : HllDataType) (uninit : list Z) :
  tidy (mkMem O h) → this ≠ other → O !! other = Some s →
  (∀ x, O !! this = Some x → x = d0) →
  (∀ o x a, o ≠ this → O !! o = Some x → owns x a → ¬ owns d0 a) →
  ∃ m',
    copy_payload this other uninit
      (mkMem (<[this := mkHLL t0 0 None None]> (<[other := s]> O))
             (released (_explicit_data d0) (released (_registers d0) h)))
    = Some (tt, m') ∧ tidy m'.
Proof.
  intros [Hm Hng] Hne Hs Hthis Hd0. pose proof Hm as [Hwf Huniq].
  cbn [objs heap] in *.
  destruct (copy_into O h this other d0 s t0 uninit Hm Hne Hs Hd0)
    as (d' & h' & Hrun & _ & _ & _ & _ & Hwf').
  set (hr := released (_explicit_data d0) (released (_registers d0) h)) in *.
  assert (Hswf : hll_wf hr s).
  { apply (hll_wf_frame h); [by apply (Hwf other)|].
    intros a Ha. apply released_lookup_other. by apply (Hd0 other s a). }
  destruct (copy_payload_run_exact this other uninit t0 s O hr Hne Hswf)
    as (d2 & h2 & Hrun2 & _ & _ & _ & _ & Hback).
  rewrite Hrun in Hrun2. injection Hrun2 as Hobjs Hheap. subst h2.
  assert (d2 = d') as ->.
  { apply (f_equal (λ M, M !! this)) in Hobjs.
    rewrite !lookup_insert_eq in Hobjs. congruence. }
  eexists. split; [exact Hrun|]. split; [exact Hwf'|].
  apply (no_garbage_step2 O _ h h' this other d' s); try done.
  - by rewrite lookup_insert_eq.
  - by rewrite lookup_insert_ne, lookup_insert_eq.
  - intros o H1 H2. by rewrite !lookup_insert_ne.
  - intros a Ha. destruct (decide (owns d' a)) as [?|Hnd]; [by left|].
    destruct (decide (owns s a)) as [?|Hns]; [by right; left|].
    right. right.
    rewrite <- (released_lookup_other d' h' a Hnd), Hback in Ha.
    destruct (released_live d0 h a Ha) as [Hold Hnd0].
    split; [done|]. split; [|intros x Hx; congruence].
    intros x Hx. by rewrite (Hthis x Hx).
Qed.

Lemma move_assign_run this other (d s : HyperLogLog)
    (O : gmap oid HyperLogLog) (h h0 : gmap ptr (list Z)) :
  this ≠ other → releasable h d → hll_wf h0 s →
  move_assign this other (mkMem (<[this := d]> (<[other := s]> O)) h)
  = Some (tt, mkMem (<[this := s]> (<[other := empty_hll]> O))
                (released (_explicit_data d) (released (_registers d) h))).
Proof.
  intros Hne Hrel Hs. unfold move_assign. rewrite decide_True by done. run_bind.
  rewrite release_payload_run by done. cbv beta iota.
  by rewrite (move_payload_wf this other _ s _ _ h0).
Qed.

(** X11. Each constructor, run on a tidy memory (invariant kept, no
    array without owner), leaves a tidy memory. *)
Theorem constructors_keep_tidy (m : Mem) (this : oid) :
  tidy m →
  objs m !! this = None →
  (∃ m', HyperLogLog_default this m = Some (tt, m') ∧ tidy m') ∧
  (∀ hash_value uninit,
     ∃ m', HyperLogLog_hash this hash_value uninit m = Some (tt, m') ∧ tidy m') ∧
  (∀ other uninit, is_Some (objs m !! other) →
     ∃ m', HyperLogLog_copy this other uninit m = Some (tt, m') ∧ tidy m') ∧
  (∀ other, is_Some (objs m !! other) →
     ∃ m', HyperLogLog_move this other m = Some (tt, m') ∧ tidy m').
Proof.
  intros Htidy Hfresh. pose proof Htidy as [Hm Hng].
  destruct m as [O h]. cbn [objs heap] in *.
  split; [|split; [|split]].
  - destruct (HyperLogLog_default_wf (mkMem O h) this Hm Hfresh)
      as (m' & Hrun & _ & _ & Hwf').
    exists m'. split; [done|]. split; [done|].
    unfold HyperLogLog_default in Hrun. rewrite construct_run in Hrun by done.
    injection Hrun as <-.
    apply (no_garbage_step1 O _ h h this empty_hll); try done.
    + apply lookup_insert_eq.
    + intros o Ho. by rewrite lookup_insert_ne.
    + intros a Ha. right. split; [done|]. intros x Hx. congruence.
  - intros hash_value uninit.
    destruct (HyperLogLog_hash_wf (mkMem O h) this hash_value uninit Hm Hfresh)
      as (m' & d & Hrun & _ & _ & _ & Hwf').
    exists m'. split; [done|]. split; [done|].
    rewrite HyperLogLog_hash_run in Hrun by done. injection Hrun as <-.
    eapply (no_garbage_step1 O _ h _ this); try done.
    + apply lookup_insert_eq.
    + intros o Ho. by rewrite lookup_insert_ne.
    + intros a Ha. destruct (decide (a = fresh (dom h))) as [->|Hne].
      * left. by left.
      * right. rewrite lookup_insert_ne in Ha by done.
        split; [done|]. intros x Hx. congruence.
  - intros other uninit [s Hs]. assert (Hne : this ≠ other) by congruence.
    destruct (copied_state_tidy O h this other empty_hll s HLL_DATA_EMPTY uninit)
      as (m' & Hrun & Htidy'); try done.
    { intros x Hx. congruence. }
    { intros o x a _ _ _. apply owns_empty. }
    cbn [released empty_hll _explicit_data _registers] in Hrun.
    exists m'. split; [|done].
    unfold HyperLogLog_copy. run_bind. rewrite construct_run by done. cbv beta iota.
    replace (<[this := empty_hll]> O) with (<[this := empty_hll]> (<[other := s]> O))
      by (by rewrite (insert_id O other s Hs)).
    done.
  - intros other [s Hs]. assert (Hne : this ≠ other) by congruence.
    exists (mkMem (<[this := s]> (<[other := empty_hll]> O)) h). split.
    + unfold HyperLogLog_move. run_bind. rewrite construct_run by done. cbv beta iota.
      replace (<[this := empty_hll]> O) with (<[this := empty_hll]> (<[other := s]> O))
        by (by rewrite (insert_id O other s Hs)).
      unfold empty_hll at 1. apply (move_payload_wf this other _ s _ h h); [done|].
      by apply (proj1 Hm other).
    + apply (moved_state_tidy O h h this other s); try done.
      intros a Ha. split; [done|]. intros x Hx. congruence.
Qed.

(** X12. Both assignment operators, run on a tidy memory, leave a tidy
    memory: the former payload of the destination is released, the new
    one has a single owner, and no array is left without owner. *)
Theorem assignments_keep_tidy (m : Mem) (this other : oid) :
  tidy m →
  is_Some (objs m !! this) →
  is_Some (objs m !! other) →
  (∀ uninit, ∃ m', copy_assign this other uninit m = Some (tt, m') ∧ tidy m') ∧
  (∃ m', move_assign this other m = Some (tt, m') ∧ tidy m').
Proof.
  intros Htidy [d Hd] [s Hs]. pose proof Htidy as [Hm Hng].
  pose proof Hm as [Hwf Huniq].
  destruct (decide (this = other)) as [->|Hne].
  { split; [intros uninit|]; exists m;
      (split; [apply copy_assign_self || apply move_assign_self | done]). }
  destruct m as [O h]. cbn [objs heap] in *.
  assert (Hexp : mkMem O h = mkMem (<[this := d]> (<[other := s]> O)) h)
    by (by rewrite !insert_id by (by rewrite ?lookup_insert_ne)).
  assert (Hother : ∀ o x a, o ≠ this → O !! o = Some x → owns x a → ¬ owns d a).
  { intros o x a Ho Hx Ha Hda. apply Ho. by apply (Huniq o this x d a). }
  split.
  - intros uninit.
    destruct (copied_state_tidy O h this other d s (_type d) uninit)
      as (m' & Hrun & Htidy'); try done.
    { intros x Hx. congruence. }
    exists m'. split; [|done].
    unfold copy_assign. rewrite decide_True by done. run_bind. rewrite Hexp.
    rewrite release_payload_run by (by apply hll_wf_releasable, (Hwf this)).
    done.
  - eexists. split.
    + rewrite Hexp. apply (move_assign_run this other d s O h h); [done| |].
      * by apply hll_wf_releasable, (Hwf this).
      * by apply (Hwf other).
    + apply (moved_state_tidy O h _ this other s); try done.
      * intros o x a Ho Hx Ha. apply released_lookup_other. by apply (Hother o x a).
      * intros a Ha. destruct (released_live d h a Ha) as [Hold Hnd].
        split; [done|]. intros x Hx. congruence.
Qed.

(** X13. [clear] and the destructor, run on a tidy memory, leave a tidy
    memory; after the destructor the object is gone from the store. *)
Theorem clear_and_destructor_keep_tidy (m : Mem) (this : oid) :
  tidy m →
  is_Some (objs m !! this) →
  (∃ m', clear this m = Some (tt, m') ∧ tidy m') ∧
  (∃ m', HyperLogLog_dtor this m = Some (tt, m') ∧ tidy m' ∧ objs m' !! this = None).
Proof.
  intros [Hm Hng] [s Hs]. pose proof Hm as [Hwf Huniq].
  destruct m as [O h]. cbn [objs heap] in *.
  assert (Hexp : mkMem O h = mkMem (<[this := s]> O) h) by (by rewrite insert_id).
  assert (Hrel : releasable h s) by (by apply hll_wf_releasable, (Hwf this)).
  assert (Hother : ∀ o x a, o ≠ this → O !! o = Some x → owns x a → ¬ owns s a).
  { intros o x a Ho Hx Ha Hda. apply Ho. by apply (Huniq o this x s a). }
  set (h' := released (_explicit_data s) (released (_registers s) h)).
  split.
  - exists (mkMem (<[this := empty_hll]> O) h'). split.
    + rewrite Hexp. by apply clear_run.
    + split.
      * apply (mem_wf_replace1 O _ h h' this empty_hll); try done.
        -- apply lookup_insert_eq.
        -- intros o Ho. by rewrite lookup_insert_ne.
        -- intros o x a Ho Hx Ha. split; [|apply owns_empty].
           apply released_lookup_other. by apply (Hother o x a).
      * apply (no_garbage_step1 O _ h h' this empty_hll); try done.
        -- apply lookup_insert_eq.
        -- intros o Ho. by rewrite lookup_insert_ne.
        -- intros a Ha. destruct (released_live s h a Ha) as [Hold Hnd].
           right. split; [done|]. intros x Hx. congruence.
  - exists (mkMem (delete this O) h'). split.
    + rewrite Hexp. by apply HyperLogLog_dtor_run.
    + split; [|apply lookup_delete_eq]. split; [split|]; cbn [objs heap].
      * intros o x Hx. apply lookup_delete_Some in Hx as [Ho Hx].
        apply (hll_wf_frame h); [by apply (Hwf o)|].
        intros a Ha. apply released_lookup_other. by apply (Hother o x a).
      * intros o1 o2 x1 x2 a H1 H2.
        apply lookup_delete_Some in H1 as [_ H1].
        apply lookup_delete_Some in H2 as [_ H2]. by apply Huniq.
      * intros a Ha. destruct (released_live s h a Ha) as [Hold Hnd].
        destruct (Hng a Hold) as (o & x & Hx & Hown).
        exists o, x. split; [|done]. apply lookup_delete_Some. split; [|done].
        intros <-. cbn in Hx. apply Hnd. congruence.
Qed.

(** ** A sketch built from a hash, then fed more hashes *)

(** X14. The array of [HyperLogLog(hash_value)] is ready for
    [_explicit_data_insert]: after the constructor, a run of up to 319
    insertions into that array ends with exactly the distinct hashes
    among [hash_value] and the inserted ones, in ascending order, and
    the count is their number.  The constructor touches no other object
    and no other array. *)
Theorem hash_constructor_then_inserts (m : Mem) (this : oid) (hash_value : Z)
    (uninit vs : list Z) :
  objs m !! this = None →
  (length vs < Z.to_nat HLL_EXPLICIT_INT64_NUM_DOUBLE)%nat →
  ∃ m' p b,
    HyperLogLog_hash this hash_value uninit m = Some (tt, m') ∧
    objs m' !! this = Some (mkHLL HLL_DATA_EXPLICIT 1 (Some p) None) ∧
    heap m !! p = None ∧
    heap m' !! p = Some b ∧
    (∀ o, o ≠ this → objs m' !! o = objs m !! o) ∧
    (∀ a, a ≠ p → heap m' !! a = heap m !! a) ∧
    ∃ b' n',
      explicit_data_insert_all b 1 vs = Some (b', Z.of_nat n') ∧
      StronglySorted Z.lt (take n' b') ∧
      (∀ x, x ∈ take n' b' ↔ x = hash_value ∨ x ∈ vs) ∧
      n' = size ({[hash_value]} ∪ list_to_set vs : gset Z).
Proof.
  intros Hfresh Hvs. destruct m as [O h]. cbn [objs heap] in *.
  change HLL_EXPLICIT_INT64_NUM_DOUBLE with 320 in Hvs.
  set (b := <[0%nat := hash_value]>
              (resize (Z.to_nat HLL_EXPLICIT_INT64_NUM_DOUBLE) 0 uninit)).
  assert (Hlen : length b = Z.to_nat 320)
    by (unfold b; rewrite length_insert; apply length_resize).
  assert (Hhead : take 1 b = [hash_value]).
  { unfold b. destruct (resize _ 0 uninit) as [|x tl] eqn:Hr; [|done].
    apply (f_equal length) in Hr. rewrite length_resize in Hr.
    change HLL_EXPLICIT_INT64_NUM_DOUBLE with 320 in Hr. cbn in Hr. lia. }
  exists (mkMem (<[this := mkHLL HLL_DATA_EXPLICIT 1 (Some (fresh (dom h))) None]> O)
                (<[fresh (dom h) := b]> h)), (fresh (dom h)), b.
  split; [by apply HyperLogLog_hash_run|]. cbn [objs heap].
  split; [apply lookup_insert_eq|]. split; [apply fresh_not_live|].
  split; [apply lookup_insert_eq|].
  split; [intros o Ho; by rewrite lookup_insert_ne|].
  split; [intros a Ha; by rewrite lookup_insert_ne|].
  destruct (explicit_data_insert_all_spec vs b 1)
    as (b' & n' & Hall & Hn' & Hlen' & Hss & Hel & _).
  { lia. }
  { lia. }
  { rewrite Hhead. repeat constructor. }
  exists b', n'. split; [exact Hall|]. split; [done|].
  assert (Hmem : ∀ x, x ∈ take n' b' ↔ x = hash_value ∨ x ∈ vs).
  { intros x. rewrite Hel, Hhead, elem_of_cons, elem_of_nil. tauto. }
  split; [done|].
  assert (Hset : ({[hash_value]} ∪ list_to_set vs : gset Z) = list_to_set (take n' b')).
  { apply set_eq. intros x.
    rewrite elem_of_union, elem_of_singleton, !elem_of_list_to_set, Hmem. done. }
  rewrite Hset, size_list_to_set by (by apply StronglySorted_lt_NoDup).
  rewrite length_take. lia.
Qed.

(** ** [memory_consumed] where it is exact *)

(** X15. On a sketch that is not EXPLICIT (EMPTY, SPARSE or FULL)
    [memory_consumed] returns the size of the object plus exactly the
    bytes of heap behind its payload (0, or the 16384 register bytes),
    and it leaves the memory as it was. *)
Theorem memory_consumed_exact_without_explicit (sizeof_this : Z) (this : oid)
    (s : HyperLogLog) (m : Mem) :
  mem_wf m →
  objs m !! this = Some s →
  _type s ≠ HLL_DATA_EXPLICIT →
  0 <= sizeof_this < 2 ^ 32 →
  memory_consumed sizeof_this this m
  = Some (sizeof_this + heap_bytes (heap m) s, m) ∧
  heap_bytes (heap m) s
  = (if decide (_type s = HLL_DATA_EMPTY) then 0 else HLL_REGISTERS_COUNT).
Proof.
  intros [Hwf _] Hs Ht Hsz. rewrite (memory_consumed_run _ _ s) by done.
  specialize (Hwf this s Hs). unfold hll_wf in Hwf. unfold heap_bytes.
  change HLL_REGISTERS_COUNT with 16384.
  destruct (_type s) eqn:Htype; [| done | |].
  - destruct Hwf as (_ & -> & ->). cbn. split; [|done].
    by replace (sizeof_this + 0 + 0) with (sizeof_this + 0) by lia.
  - destruct Hwf as (_ & -> & a & b & -> & Hb & Hlen). cbn. rewrite Hb, Hlen.
    change HLL_REGISTERS_COUNT with 16384. rewrite decide_False by done.
    split; [|lia].
    by replace (sizeof_this + (0 + Z.of_nat (Z.to_nat 16384)))
      with (sizeof_this + 0 + 16384) by lia.
  - destruct Hwf as (_ & -> & a & b & -> & Hb & Hlen). cbn. rewrite Hb, Hlen.
    change HLL_REGISTERS_COUNT with 16384. rewrite decide_False by done.
    split; [|lia].
    by replace (sizeof_this + (0 + Z.of_nat (Z.to_nat 16384)))
      with (sizeof_this + 0 + 16384) by lia.
Qed.

(** ** Instances of the further properties *)

Lemma sample_explicit_data_length : length sample_explicit_data = 320%nat.
Proof. vm_compute. reflexivity. Qed.

Lemma sample_explicit_data_sorted :
  StronglySorted Z.lt (take 1 sample_explicit_data).
Proof. repeat constructor. Qed.

Lemma full_explicit_data_sorted : StronglySorted Z.lt full_explicit_data.
Proof. apply (bool_decide_unpack _). vm_compute. exact I. Qed.

Lemma full_explicit_data_length : length full_explicit_data = 320%nat.
Proof. vm_compute. reflexivity. Qed.

Lemma sample_hashes_uint64 : Forall is_uint64 [sample_hash; 5].
Proof. repeat (apply Forall_cons; split; [unfold is_uint64, sample_hash; lia|]). done. Qed.

Lemma sample_hashes_again_uint64 : Forall is_uint64 [5; sample_hash; 5].
Proof. repeat (apply Forall_cons; split; [unfold is_uint64, sample_hash; lia|]). done. Qed.

Lemma zero_registers_length : length zero_registers = Z.to_nat HLL_REGISTERS_COUNT.
Proof. apply length_replicate. Qed.

Lemma one_register_set_length : length one_register_set = Z.to_nat HLL_REGISTERS_COUNT.
Proof. unfold one_register_set. rewrite length_insert. apply length_replicate. Qed.

Lemma zero_registers_range : Forall (λ r, 0 <= r <= 51) zero_registers.
Proof. apply Forall_replicate. lia. Qed.

Lemma one_register_set_range : Forall (λ r, 0 <= r <= 51) one_register_set.
Proof. apply Forall_insert; [apply zero_registers_range | lia]. Qed.

Lemma one_explicit_tidy : tidy one_explicit.
Proof.
  split; [apply one_explicit_wf|]. intros a [b Hb]. cbn in Hb.
  apply lookup_singleton_Some in Hb as [<- _].
  exists 0%nat, sample_explicit. split; [done | by left].
Qed.

Lemma two_sketches_tidy : tidy two_sketches.
Proof.
  split; [apply two_sketches_wf|]. intros a [b Hb]. cbn in Hb.
  apply lookup_singleton_Some in Hb as [<- _].
  exists 0%nat, sample_explicit. split; [apply two_sketches_source | by left].
Qed.

Lemma one_explicit_free : objs one_explicit !! 1%nat = None.
Proof. done. Qed.

Lemma one_explicit_source : objs one_explicit !! 0%nat = Some sample_explicit.
Proof. done. Qed.

Lemma one_full_wf : mem_wf one_full.
Proof.
  split; cbn.
  - intros o s Hs. apply lookup_singleton_Some in Hs as [<- <-].
    unfold hll_wf. cbn. split; [done|]. split; [done|].
    exists 0%nat, zero_registers. split; [done|]. split; [done|].
    apply zero_registers_length.
  - intros o1 o2 s1 s2 a H1 H2 _ _.
    apply lookup_singleton_Some in H1 as [<- _].
    by apply lookup_singleton_Some in H2 as [<- _].
Qed.

(** X1 on the buffer of [one_explicit] and the value 5. *)
Lemma explicit_data_insert_again_witness :
  (S 1 < length sample_explicit_data)%nat ∧
  Z.of_nat (length sample_explicit_data) < 2 ^ 31 ∧
  StronglySorted Z.lt (take 1 sample_explicit_data) ∧
  ∃ flag buf' n',
    _explicit_data_insert sample_explicit_data (Z.of_nat 1) 5 = Some (flag, buf', n') ∧
    _explicit_data_insert buf' n' 5 = Some (false, buf', n').
Proof.
  assert (H1 : (S 1 < length sample_explicit_data)%nat)
    by (rewrite sample_explicit_data_length; lia).
  assert (H2 : Z.of_nat (length sample_explicit_data) < 2 ^ 31)
    by (rewrite sample_explicit_data_length; lia).
  split; [exact H1|]. split; [exact H2|]. split; [exact sample_explicit_data_sorted|].
  exact (explicit_data_insert_again sample_explicit_data 1 5 H1 H2
           sample_explicit_data_sorted).
Defined.

(** X2 on the buffer of [one_explicit] and the values 5, 7, 5. *)
Lemma explicit_data_insert_all_exact_witness :
  (1 + length [5; 7; 5]%Z ≤ length sample_explicit_data)%nat ∧
  Z.of_nat (length sample_explicit_data) < 2 ^ 31 ∧
  StronglySorted Z.lt (take 1 sample_explicit_data) ∧
  ∃ buf' n',
    explicit_data_insert_all sample_explicit_data (Z.of_nat 1) [5; 7; 5]
      = Some (buf', Z.of_nat n') ∧
    StronglySorted Z.lt (take n' buf') ∧
    (∀ x, x ∈ take n' buf' ↔ x ∈ take 1 sample_explicit_data ∨ x ∈ [5; 7; 5]) ∧
    n' = size (list_to_set (take 1 sample_explicit_data) ∪ list_to_set [5; 7; 5] : gset Z) ∧
    length buf' = length sample_explicit_data ∧
    drop n' buf' = drop n' sample_explicit_data.
Proof.
  assert (H1 : (1 + length [5; 7; 5]%Z ≤ length sample_explicit_data)%nat)
    by (rewrite sample_explicit_data_length; cbn; lia).
  assert (H2 : Z.of_nat (length sample_explicit_data) < 2 ^ 31)
    by (rewrite sample_explicit_data_length; lia).
  split; [exact H1|]. split; [exact H2|]. split; [exact sample_explicit_data_sorted|].
  exact (explicit_data_insert_all_exact [5; 7; 5] sample_explicit_data 1 H1 H2
           sample_explicit_data_sorted).
Defined.

(** X3 on the buffer of [one_explicit]: 5, 7 against 7, 5, 7. *)
Lemma explicit_data_insert_all_order_witness :
  (1 + length [5; 7]%Z ≤ length sample_explicit_data)%nat ∧
  (1 + length [7; 5; 7]%Z ≤ length sample_explicit_data)%nat ∧
  Z.of_nat (length sample_explicit_data) < 2 ^ 31 ∧
  StronglySorted Z.lt (take 1 sample_explicit_data) ∧
  (∀ x : Z, x ∈ [5; 7] ↔ x ∈ [7; 5; 7]) ∧
  is_Some (explicit_data_insert_all sample_explicit_data (Z.of_nat 1) [5; 7]) ∧
  explicit_data_insert_all sample_explicit_data (Z.of_nat 1) [5; 7]
  = explicit_data_insert_all sample_explicit_data (Z.of_nat 1) [7; 5; 7].
Proof.
  assert (H1 : (1 + length [5; 7]%Z ≤ length sample_explicit_data)%nat)
    by (rewrite sample_explicit_data_length; cbn; lia).
  assert (H2 : (1 + length [7; 5; 7]%Z ≤ length sample_explicit_data)%nat)
    by (rewrite sample_explicit_data_length; cbn; lia).
  assert (H3 : Z.of_nat (length sample_explicit_data) < 2 ^ 31)
    by (rewrite sample_explicit_data_length; lia).
  assert (H4 : ∀ x : Z, x ∈ [5; 7] ↔ x ∈ [7; 5; 7]) by (intros ?; rewrite !elem_of_cons, !elem_of_nil; tauto).
  split; [exact H1|]. split; [exact H2|]. split; [exact H3|].
  split; [exact sample_explicit_data_sorted|]. split; [exact H4|].
  exact (explicit_data_insert_all_order [5; 7] [7; 5; 7] sample_explicit_data 1
           H1 H2 H3 sample_explicit_data_sorted H4).
Defined.

(** X4 on a full array of 320 hashes and a value that is not stored. *)
Lemma explicit_data_insert_full_witness :
  Z.of_nat (length full_explicit_data) < 2 ^ 31 ∧
  StronglySorted Z.lt full_explicit_data ∧
  _explicit_data_insert full_explicit_data (Z.of_nat (length full_explicit_data)) 1000
  = if bool_decide (1000 ∈ full_explicit_data)
    then Some (false, full_explicit_data, Z.of_nat (length full_explicit_data))
    else None.
Proof.
  assert (H1 : Z.of_nat (length full_explicit_data) < 2 ^ 31)
    by (rewrite full_explicit_data_length; lia).
  split; [exact H1|]. split; [exact full_explicit_data_sorted|].
  exact (explicit_data_insert_full full_explicit_data 1000 H1 full_explicit_data_sorted).
Defined.

(** X5 on an array of zeros. *)
Lemma update_registers_all_order_witness :
  length zero_registers = Z.to_nat HLL_REGISTERS_COUNT ∧
  Forall is_uint64 [sample_hash; 5] ∧
  Forall is_uint64 [5; sample_hash; 5] ∧
  (∀ h : Z, h ∈ [sample_hash; 5] ↔ h ∈ [5; sample_hash; 5]) ∧
  is_Some (update_registers_all zero_registers [sample_hash; 5]) ∧
  update_registers_all zero_registers [sample_hash; 5]
  = update_registers_all zero_registers [5; sample_hash; 5].
Proof.
  assert (H4 : ∀ h : Z, h ∈ [sample_hash; 5] ↔ h ∈ [5; sample_hash; 5]) by (intros ?; rewrite !elem_of_cons, !elem_of_nil; tauto).
  split; [exact zero_registers_length|]. split; [exact sample_hashes_uint64|].
  split; [exact sample_hashes_again_uint64|]. split; [exact H4|].
  exact (update_registers_all_order [sample_hash; 5] [5; sample_hash; 5] zero_registers
           zero_registers_length sample_hashes_uint64 sample_hashes_again_uint64 H4).
Defined.

(** X6 on an array of zeros and an array with one register set. *)
Lemma merge_registers_union_witness :
  length zero_registers = Z.to_nat HLL_REGISTERS_COUNT ∧
  length one_register_set = Z.to_nat HLL_REGISTERS_COUNT ∧
  Forall is_uint64 [sample_hash; 5] ∧
  Forall is_uint64 [5; sample_hash; 5] ∧
  ∃ ra rb ab,
    update_registers_all zero_registers [sample_hash; 5] = Some ra ∧
    update_registers_all one_register_set [5; sample_hash; 5] = Some rb ∧
    _merge_registers zero_registers one_register_set = Some ab ∧
    _merge_registers ra rb
    = update_registers_all ab ([sample_hash; 5] ++ [5; sample_hash; 5]).
Proof.
  split; [exact zero_registers_length|]. split; [exact one_register_set_length|].
  split; [exact sample_hashes_uint64|]. split; [exact sample_hashes_again_uint64|].
  exact (merge_registers_union [sample_hash; 5] [5; sample_hash; 5]
           zero_registers one_register_set
           zero_registers_length one_register_set_length
           sample_hashes_uint64 sample_hashes_again_uint64).
Defined.

(** X7 on an array of zeros and an array with one register set. *)
Lemma registers_stay_in_range_witness :
  length zero_registers = Z.to_nat HLL_REGISTERS_COUNT ∧
  length one_register_set = Z.to_nat HLL_REGISTERS_COUNT ∧
  Forall is_uint64 [sample_hash; 5] ∧
  Forall (λ r, 0 <= r <= 51) zero_registers ∧
  Forall (λ r, 0 <= r <= 51) one_register_set ∧
  (∃ res, update_registers_all zero_registers [sample_hash; 5] = Some res ∧
          Forall (λ r, 0 <= r <= 51) res) ∧
  (∃ ab, _merge_registers zero_registers one_register_set = Some ab ∧
         Forall (λ r, 0 <= r <= 51) ab).
Proof.
  split; [exact zero_registers_length|]. split; [exact one_register_set_length|].
  split; [exact sample_hashes_uint64|]. split; [exact zero_registers_range|].
  split; [exact one_register_set_range|].
  exact (registers_stay_in_range [sample_hash; 5] zero_registers one_register_set
           zero_registers_length one_register_set_length sample_hashes_uint64
           zero_registers_range one_register_set_range).
Defined.

(** X8 at address 1 of [one_explicit]. *)
Lemma hash_construct_destroy_witness :
  objs one_explicit !! 1%nat = None ∧
  (HyperLogLog_hash 1%nat 5 [] ≫= λ _, HyperLogLog_dtor 1%nat) one_explicit
  = Some (tt, one_explicit).
Proof.
  split; [exact one_explicit_free|].
  exact (hash_construct_destroy one_explicit 1%nat 5 [] one_explicit_free).
Defined.

(** X9 for a copy of the sketch of [one_explicit] at address 1. *)
Lemma copy_construct_destroy_witness :
  mem_wf one_explicit ∧
  objs one_explicit !! 0%nat = Some sample_explicit ∧
  objs one_explicit !! 1%nat = None ∧
  (HyperLogLog_copy 1%nat 0%nat [] ≫= λ _, HyperLogLog_dtor 1%nat) one_explicit
  = Some (tt, one_explicit).
Proof.
  split; [exact one_explicit_wf|]. split; [exact one_explicit_source|].
  split; [exact one_explicit_free|].
  exact (copy_construct_destroy one_explicit 1%nat 0%nat sample_explicit []
           one_explicit_wf one_explicit_source one_explicit_free).
Defined.

(** X10 for the sketch of [one_explicit] moved to address 1. *)
Lemma move_construct_destroy_source_witness :
  mem_wf one_explicit ∧
  objs one_explicit !! 0%nat = Some sample_explicit ∧
  objs one_explicit !! 1%nat = None ∧
  (HyperLogLog_move 1%nat 0%nat ≫= λ _, HyperLogLog_dtor 0%nat) one_explicit
  = Some (tt, mkMem (<[1%nat := sample_explicit]> (delete 0%nat (objs one_explicit)))
                (heap one_explicit)).
Proof.
  split; [exact one_explicit_wf|]. split; [exact one_explicit_source|].
  split; [exact one_explicit_free|].
  exact (move_construct_destroy_source one_explicit 1%nat 0%nat sample_explicit
           one_explicit_wf one_explicit_source one_explicit_free).
Defined.

(** X11 at address 1 of [one_explicit]. *)
Lemma constructors_keep_tidy_witness :
  tidy one_explicit ∧
  objs one_explicit !! 1%nat = None ∧
  (∃ m', HyperLogLog_default 1%nat one_explicit = Some (tt, m') ∧ tidy m') ∧
  (∀ hash_value uninit,
     ∃ m', HyperLogLog_hash 1%nat hash_value uninit one_explicit = Some (tt, m') ∧
           tidy m') ∧
  (∀ other uninit, is_Some (objs one_explicit !! other) →
     ∃ m', HyperLogLog_copy 1%nat other uninit one_explicit = Some (tt, m') ∧ tidy m') ∧
  (∀ other, is_Some (objs one_explicit !! other) →
     ∃ m', HyperLogLog_move 1%nat other one_explicit = Some (tt, m') ∧ tidy m').
Proof.
  split; [exact one_explicit_tidy|]. split; [exact one_explicit_free|].
  exact (constructors_keep_tidy one_explicit 1%nat one_explicit_tidy one_explicit_free).
Defined.

(** X12 for the two objects of [two_sketches]. *)
Lemma assignments_keep_tidy_witness :
  tidy two_sketches ∧
  is_Some (objs two_sketches !! 1%nat) ∧
  is_Some (objs two_sketches !! 0%nat) ∧
  (∀ uninit, ∃ m', copy_assign 1%nat 0%nat uninit two_sketches = Some (tt, m') ∧
                   tidy m') ∧
  (∃ m', move_assign 1%nat 0%nat two_sketches = Some (tt, m') ∧ tidy m').
Proof.
  assert (H1 : is_Some (objs two_sketches !! 1%nat))
    by (rewrite two_sketches_target; by eexists).
  assert (H0 : is_Some (objs two_sketches !! 0%nat))
    by (rewrite two_sketches_source; by eexists).
  split; [exact two_sketches_tidy|]. split; [exact H1|]. split; [exact H0|].
  exact (assignments_keep_tidy two_sketches 1%nat 0%nat two_sketches_tidy H1 H0).
Defined.

(** X13 for the object of [one_explicit]. *)
Lemma clear_and_destructor_keep_tidy_witness :
  tidy one_explicit ∧
  is_Some (objs one_explicit !! 0%nat) ∧
  (∃ m', clear 0%nat one_explicit = Some (tt, m') ∧ tidy m') ∧
  (∃ m', HyperLogLog_dtor 0%nat one_explicit = Some (tt, m') ∧ tidy m' ∧
         objs m' !! 0%nat = None).
Proof.
  assert (H0 : is_Some (objs one_explicit !! 0%nat))
    by (rewrite one_explicit_source; by eexists).
  split; [exact one_explicit_tidy|]. split; [exact H0|].
  exact (clear_and_destructor_keep_tidy one_explicit 0%nat one_explicit_tidy H0).
Defined.

(** X14 in the empty memory, with the values 5, [sample_hash], 7. *)
Lemma hash_constructor_then_inserts_witness :
  objs empty_mem !! 0%nat = None ∧
  (length [5; sample_hash; 7]%Z < Z.to_nat HLL_EXPLICIT_INT64_NUM_DOUBLE)%nat ∧
  ∃ m' p b,
    HyperLogLog_hash 0%nat sample_hash [] empty_mem = Some (tt, m') ∧
    objs m' !! 0%nat = Some (mkHLL HLL_DATA_EXPLICIT 1 (Some p) None) ∧
    heap empty_mem !! p = None ∧
    heap m' !! p = Some b ∧
    (∀ o, o ≠ 0%nat → objs m' !! o = objs empty_mem !! o) ∧
    (∀ a, a ≠ p → heap m' !! a = heap empty_mem !! a) ∧
    ∃ b' n',
      explicit_data_insert_all b 1 [5; sample_hash; 7] = Some (b', Z.of_nat n') ∧
      StronglySorted Z.lt (take n' b') ∧
      (∀ x, x ∈ take n' b' ↔ x = sample_hash ∨ x ∈ [5; sample_hash; 7]) ∧
      n' = size ({[sample_hash]} ∪ list_to_set [5; sample_hash; 7] : gset Z).
Proof.
  assert (H1 : objs empty_mem !! 0%nat = None) by done.
  assert (H2 : (length [5; sample_hash; 7]%Z < Z.to_nat HLL_EXPLICIT_INT64_NUM_DOUBLE)%nat)
    by (change HLL_EXPLICIT_INT64_NUM_DOUBLE with 320; cbn; lia).
  split; [exact H1|]. split; [exact H2|].
  exact (hash_constructor_then_inserts empty_mem 0%nat sample_hash []
           [5; sample_hash; 7] H1 H2).
Defined.

(** X15 for the FULL sketch of [one_full] and a 24-byte object. *)
Lemma memory_consumed_exact_without_explicit_witness :
  mem_wf one_full ∧
  objs one_full !! 0%nat = Some sample_full ∧
  _type sample_full ≠ HLL_DATA_EXPLICIT ∧
  0 <= 24 < 2 ^ 32 ∧
  memory_consumed 24 0%nat one_full
  = Some (24 + heap_bytes (heap one_full) sample_full, one_full) ∧
  heap_bytes (heap one_full) sample_full
  = (if decide (_type sample_full = HLL_DATA_EMPTY) then 0 else HLL_REGISTERS_COUNT).
Proof.
  assert (H1 : objs one_full !! 0%nat = Some sample_full) by done.
  assert (H2 : _type sample_full ≠ HLL_DATA_EXPLICIT) by discriminate.
  assert (H3 : 0 <= 24 < 2 ^ 32) by lia.
  split; [exact one_full_wf|]. split; [exact H1|]. split; [exact H2|].
  split; [exact H3|].
  exact (memory_consumed_exact_without_explicit 24 0%nat sample_full one_full
           one_full_wf H1 H2 H3).
Defined.
